(** * Verification of the Windows speech-recognition session
      (frontend/windows/runner/speech_recognition.{h,cpp})

    The class [SpeechRecognition] drives a SAPI dictation session: it
    acquires COM resources in [Initialize], activates the grammar and spawns
    a polling thread in [StartListening], stops and joins that thread in
    [StopListening], and releases everything in [Cleanup] or the destructor.

    The embedding is shallow.  The object's fields are a record; every member
    function is a state-passing computation that also logs the calls it makes
    to the operating system, to COM objects, to the callback mutex and to the
    registered callbacks.  What the operating system answers is an input of
    the computation. *)

From Stdlib Require Import ZArith List Bool String Lia Permutation.
Import ListNotations.
Local Open Scope Z_scope.

(** ** Windows and SAPI base types and constants (windows.h, sapi.h) *)

Definition HRESULT := Z.   (* signed 32-bit *)
Definition DWORD := Z.
Definition ULONG := Z.
Definition ptr := Z.       (* an interface pointer or HANDLE; 0 is nullptr *)
Definition HANDLE := ptr.
Definition nullptr : ptr := 0.

(** A 32-bit pattern read as the signed HRESULT it denotes. *)
Definition HRESULT_of_bits (u : Z) : HRESULT :=
  if u <? 2 ^ 31 then u else u - 2 ^ 32.

Definition S_OK : HRESULT := 0.
Definition S_FALSE : HRESULT := 1.
Definition RPC_E_CHANGED_MODE : HRESULT := HRESULT_of_bits 0x80010106.
Definition FAILED (hr : HRESULT) : bool := hr <? 0.
Definition SUCCEEDED (hr : HRESULT) : bool := 0 <=? hr.

Definition WAIT_OBJECT_0 : DWORD := 0.
Definition WAIT_TIMEOUT : DWORD := 258.

Definition SPEI_RECOGNITION : Z := 38.
Definition SPEI_FALSE_RECOGNITION : Z := 43.
Definition SPET_LPARAM_IS_OBJECT : Z := 2.

Inductive SPRULESTATE := SPRS_INACTIVE | SPRS_ACTIVE.

(** [if (p)] on a pointer. *)
Definition non_null (p : ptr) : bool := negb (p =? 0).

(** ** Callbacks

    A [std::function] slot is either empty or holds a callable, which is
    opaque to the session: it is identified by a number and calling it is
    logged with its arguments. *)

Definition callback := nat.
Inductive Slot := ResultSlot | ErrorSlot | StatusSlot.

(** ** The calls a member function makes, in program order *)

Inductive Effect :=
| ECoInitializeEx (hr : HRESULT)
| ECoUninitialize
| ECoCreateInstance (hr : HRESULT) (out : ptr)
| ECreateRecoContext (this : ptr) (hr : HRESULT) (out : ptr)
| ESetInterest (this : ptr) (hr : HRESULT)
| EGetNotifyEventHandle (this : ptr) (h : HANDLE)
| ECreateGrammar (this : ptr) (hr : HRESULT) (out : ptr)
| ELoadDictation (this : ptr) (hr : HRESULT)
| ESetDictationState (this : ptr) (st : SPRULESTATE) (hr : HRESULT)
| ERelease (this : ptr)
| ECloseHandle (h : HANDLE)
| EWaitForSingleObject (h : HANDLE) (ms : Z) (r : DWORD)
| EGetEvents (this : ptr) (hr : HRESULT) (fetched : ULONG)
| EGetText (this : ptr) (hr : HRESULT)
| ECoTaskMemFree
| ELock                      (* callback_mutex_ taken *)
| EUnlock                    (* callback_mutex_ given back *)
| ERead (sl : Slot)          (* a callback field is read *)
| EWrite (sl : Slot)         (* a callback field is assigned *)
| EResult (cb : callback) (text : string) (is_final : bool)
| EError (cb : callback) (msg : string)
| EStatus (cb : callback) (msg : string)
| ESpawn                     (* std::thread constructed on RecognitionThread *)
| EJoin.                     (* recognition_thread_.join() returned *)

Definition trace := list Effect.

(** ** The object *)

Record SpeechRecognition := mkSession {
  recognizer_ : ptr;
  context_ : ptr;
  grammar_ : ptr;
  recognition_event_ : HANDLE;
  is_initialized_ : bool;
  is_listening_ : bool;
  should_stop_ : bool;
  com_initialized_ : bool;
  recognition_thread_ : bool;       (* joinable() *)
  result_callback_ : option callback;
  error_callback_ : option callback;
  status_callback_ : option callback
}.

(** The member initialisers of the header; the constructor body is empty. *)
Definition new_session : SpeechRecognition :=
  {| recognizer_ := nullptr; context_ := nullptr; grammar_ := nullptr;
     recognition_event_ := nullptr;
     is_initialized_ := false; is_listening_ := false; should_stop_ := false;
     com_initialized_ := false; recognition_thread_ := false;
     result_callback_ := None; error_callback_ := None;
     status_callback_ := None |}.

Definition set_recognizer_ (v : ptr) (s : SpeechRecognition) :=
  mkSession v (context_ s) (grammar_ s) (recognition_event_ s)
    (is_initialized_ s) (is_listening_ s) (should_stop_ s) (com_initialized_ s)
    (recognition_thread_ s) (result_callback_ s) (error_callback_ s)
    (status_callback_ s).
Definition set_context_ (v : ptr) (s : SpeechRecognition) :=
  mkSession (recognizer_ s) v (grammar_ s) (recognition_event_ s)
    (is_initialized_ s) (is_listening_ s) (should_stop_ s) (com_initialized_ s)
    (recognition_thread_ s) (result_callback_ s) (error_callback_ s)
    (status_callback_ s).
Definition set_grammar_ (v : ptr) (s : SpeechRecognition) :=
  mkSession (recognizer_ s) (context_ s) v (recognition_event_ s)
    (is_initialized_ s) (is_listening_ s) (should_stop_ s) (com_initialized_ s)
    (recognition_thread_ s) (result_callback_ s) (error_callback_ s)
    (status_callback_ s).
Definition set_recognition_event_ (v : HANDLE) (s : SpeechRecognition) :=
  mkSession (recognizer_ s) (context_ s) (grammar_ s) v
    (is_initialized_ s) (is_listening_ s) (should_stop_ s) (com_initialized_ s)
    (recognition_thread_ s) (result_callback_ s) (error_callback_ s)
    (status_callback_ s).
Definition set_is_initialized_ (v : bool) (s : SpeechRecognition) :=
  mkSession (recognizer_ s) (context_ s) (grammar_ s) (recognition_event_ s)
    v (is_listening_ s) (should_stop_ s) (com_initialized_ s)
    (recognition_thread_ s) (result_callback_ s) (error_callback_ s)
    (status_callback_ s).
Definition set_is_listening_ (v : bool) (s : SpeechRecognition) :=
  mkSession (recognizer_ s) (context_ s) (grammar_ s) (recognition_event_ s)
    (is_initialized_ s) v (should_stop_ s) (com_initialized_ s)
    (recognition_thread_ s) (result_callback_ s) (error_callback_ s)
    (status_callback_ s).
Definition set_should_stop_ (v : bool) (s : SpeechRecognition) :=
  mkSession (recognizer_ s) (context_ s) (grammar_ s) (recognition_event_ s)
    (is_initialized_ s) (is_listening_ s) v (com_initialized_ s)
    (recognition_thread_ s) (result_callback_ s) (error_callback_ s)
    (status_callback_ s).
Definition set_com_initialized_ (v : bool) (s : SpeechRecognition) :=
  mkSession (recognizer_ s) (context_ s) (grammar_ s) (recognition_event_ s)
    (is_initialized_ s) (is_listening_ s) (should_stop_ s) v
    (recognition_thread_ s) (result_callback_ s) (error_callback_ s)
    (status_callback_ s).
Definition set_recognition_thread_ (v : bool) (s : SpeechRecognition) :=
  mkSession (recognizer_ s) (context_ s) (grammar_ s) (recognition_event_ s)
    (is_initialized_ s) (is_listening_ s) (should_stop_ s) (com_initialized_ s)
    v (result_callback_ s) (error_callback_ s) (status_callback_ s).
Definition set_result_callback_ (v : option callback) (s : SpeechRecognition) :=
  mkSession (recognizer_ s) (context_ s) (grammar_ s) (recognition_event_ s)
    (is_initialized_ s) (is_listening_ s) (should_stop_ s) (com_initialized_ s)
    (recognition_thread_ s) v (error_callback_ s) (status_callback_ s).
Definition set_error_callback_ (v : option callback) (s : SpeechRecognition) :=
  mkSession (recognizer_ s) (context_ s) (grammar_ s) (recognition_event_ s)
    (is_initialized_ s) (is_listening_ s) (should_stop_ s) (com_initialized_ s)
    (recognition_thread_ s) (result_callback_ s) v (status_callback_ s).
Definition set_status_callback_ (v : option callback) (s : SpeechRecognition) :=
  mkSession (recognizer_ s) (context_ s) (grammar_ s) (recognition_event_ s)
    (is_initialized_ s) (is_listening_ s) (should_stop_ s) (com_initialized_ s)
    (recognition_thread_ s) (result_callback_ s) (error_callback_ s) v.

(** ** Member functions as logging state transformers *)

Definition M (A : Type) : Type :=
  SpeechRecognition -> A * SpeechRecognition * trace.

Definition ret {A} (a : A) : M A := fun s => (a, s, []).
Definition bind {A B} (m : M A) (k : A -> M B) : M B :=
  fun s =>
    let '(a, s1, t1) := m s in
    let '(b, s2, t2) := k a s1 in
    (b, s2, t1 ++ t2).
Definition emit (e : Effect) : M unit := fun s => (tt, s, [e]).
Definition field {A} (f : SpeechRecognition -> A) : M A := fun s => (f s, s, []).
Definition assign (upd : SpeechRecognition -> SpeechRecognition) : M unit :=
  fun s => (tt, upd s, []).
Definition when_ (b : bool) (m : M unit) : M unit := if b then m else ret tt.

Notation "x <- m ;; k" := (bind m (fun x => k))
  (at level 61, m at next level, right associativity).
Notation "m ;; k" := (bind m (fun _ => k))
  (at level 61, right associativity).

Definition result_of {A} (r : A * SpeechRecognition * trace) : A := fst (fst r).
Definition state_of {A} (r : A * SpeechRecognition * trace) : SpeechRecognition :=
  snd (fst r).
Definition trace_of {A} (r : A * SpeechRecognition * trace) : trace := snd r.

(** [if (error_callback_) error_callback_(msg);] and its status twin, as
    they are written in the member functions: no lock is taken. *)
Definition call_error_callback (msg : string) : M unit :=
  emit (ERead ErrorSlot) ;;
  cb <- field error_callback_ ;;
  match cb with
  | Some f => emit (EError f msg)
  | None => ret tt
  end.

Definition call_status_callback (msg : string) : M unit :=
  emit (ERead StatusSlot) ;;
  cb <- field status_callback_ ;;
  match cb with
  | Some f => emit (EStatus f msg)
  | None => ret tt
  end.

(** *** Cleanup (speech_recognition.cpp, lines 109-128) *)

Definition Cleanup : M unit :=
  g <- field grammar_ ;;
  when_ (non_null g) (emit (ERelease g) ;; assign (set_grammar_ nullptr)) ;;
  c <- field context_ ;;
  when_ (non_null c) (emit (ERelease c) ;; assign (set_context_ nullptr)) ;;
  r <- field recognizer_ ;;
  when_ (non_null r) (emit (ERelease r) ;; assign (set_recognizer_ nullptr)) ;;
  assign (set_recognition_event_ nullptr) ;;
  ci <- field com_initialized_ ;;
  when_ ci (emit ECoUninitialize ;; assign (set_com_initialized_ false)).

(** *** Initialize (lines 33-107)

    [InitEnv] is what the system answers to the calls of one run of
    [Initialize]: the HRESULT of each call and the value it stores through
    its out-parameter. *)

Record InitEnv := mkInitEnv {
  co_initialize_hr : HRESULT;
  co_create_hr : HRESULT;
  co_create_out : ptr;
  create_context_hr : HRESULT;
  create_context_out : ptr;
  set_interest_hr : HRESULT;
  notify_event_handle : HANDLE;
  create_grammar_hr : HRESULT;
  create_grammar_out : ptr;
  load_dictation_hr : HRESULT
}.

Definition msg_com_init : string := "COM 初始化失败".
Definition msg_recognizer : string :=
  "创建语音识别器失败，请确保 Windows 语音识别已启用".
Definition msg_context : string := "创建识别上下文失败".
Definition msg_interest : string := "设置事件失败".
Definition msg_grammar : string := "创建语法失败".
Definition msg_dictation : string :=
  "加载听写语法失败，请确保已安装语音识别语言包".
Definition msg_activate : string := "激活听写失败".

Definition Initialize (env : InitEnv) : M bool :=
  init <- field is_initialized_ ;;
  if init then ret true else
  let hr := co_initialize_hr env in
  emit (ECoInitializeEx hr) ;;
  if FAILED hr && negb (hr =? RPC_E_CHANGED_MODE) then
    call_error_callback msg_com_init ;; ret false
  else
  assign (set_com_initialized_ (negb (hr =? RPC_E_CHANGED_MODE))) ;;
  let hr := co_create_hr env in
  emit (ECoCreateInstance hr (co_create_out env)) ;;
  assign (set_recognizer_ (co_create_out env)) ;;
  if FAILED hr then
    call_error_callback msg_recognizer ;; Cleanup ;; ret false
  else
  r <- field recognizer_ ;;
  let hr := create_context_hr env in
  emit (ECreateRecoContext r hr (create_context_out env)) ;;
  assign (set_context_ (create_context_out env)) ;;
  if FAILED hr then
    call_error_callback msg_context ;; Cleanup ;; ret false
  else
  c <- field context_ ;;
  let hr := set_interest_hr env in
  emit (ESetInterest c hr) ;;
  if FAILED hr then
    call_error_callback msg_interest ;; Cleanup ;; ret false
  else
  emit (EGetNotifyEventHandle c (notify_event_handle env)) ;;
  assign (set_recognition_event_ (notify_event_handle env)) ;;
  let hr := create_grammar_hr env in
  emit (ECreateGrammar c hr (create_grammar_out env)) ;;
  assign (set_grammar_ (create_grammar_out env)) ;;
  if FAILED hr then
    call_error_callback msg_grammar ;; Cleanup ;; ret false
  else
  g <- field grammar_ ;;
  let hr := load_dictation_hr env in
  emit (ELoadDictation g hr) ;;
  if FAILED hr then
    call_error_callback msg_dictation ;; Cleanup ;; ret false
  else
  assign (set_is_initialized_ true) ;;
  call_status_callback "initialized" ;;
  ret true.

(** *** StartListening (lines 130-160) *)

(** Lines 137-159: what StartListening does once the session is known to be
    initialized. *)
Definition StartListening_activate (activate_hr : HRESULT) : M bool :=
  listening <- field is_listening_ ;;
  if listening then ret true else
  g <- field grammar_ ;;
  emit (ESetDictationState g SPRS_ACTIVE activate_hr) ;;
  if FAILED activate_hr then
    call_error_callback msg_activate ;; ret false
  else
  assign (set_is_listening_ true) ;;
  assign (set_should_stop_ false) ;;
  emit ESpawn ;;
  assign (set_recognition_thread_ true) ;;
  call_status_callback "listening" ;;
  ret true.

Definition StartListening (env : InitEnv) (activate_hr : HRESULT) : M bool :=
  init <- field is_initialized_ ;;
  ok <- (if negb init then Initialize env else ret true) ;;
  if negb ok then ret false else
  StartListening_activate activate_hr.

(** *** StopListening (lines 162-183)

    The function blocks in [join].  It is cut at that point: the first half
    raises the stop flag and deactivates the grammar, the second half is
    what runs once the polling thread has ended. *)

Definition StopListening_signal (deactivate_hr : HRESULT) : M unit :=
  assign (set_should_stop_ true) ;;
  assign (set_is_listening_ false) ;;
  g <- field grammar_ ;;
  when_ (non_null g) (emit (ESetDictationState g SPRS_INACTIVE deactivate_hr)).

Definition StopListening_join : M unit :=
  joinable <- field recognition_thread_ ;;
  when_ joinable (emit EJoin ;; assign (set_recognition_thread_ false)) ;;
  call_status_callback "stopped".

Definition StopListening (deactivate_hr : HRESULT) : M unit :=
  listening <- field is_listening_ ;;
  if negb listening then ret tt else
  StopListening_signal deactivate_hr ;;
  StopListening_join.

(** *** The destructor (lines 9-31) *)

Definition destructor (deactivate_hr : HRESULT) : M unit :=
  StopListening deactivate_hr ;;
  g <- field grammar_ ;;
  when_ (non_null g) (emit (ERelease g) ;; assign (set_grammar_ nullptr)) ;;
  c <- field context_ ;;
  when_ (non_null c) (emit (ERelease c) ;; assign (set_context_ nullptr)) ;;
  r <- field recognizer_ ;;
  when_ (non_null r) (emit (ERelease r) ;; assign (set_recognizer_ nullptr)) ;;
  (* no CloseHandle: the event handle is owned by the context *)
  assign (set_recognition_event_ nullptr) ;;
  ci <- field com_initialized_ ;;
  when_ ci (emit ECoUninitialize ;; assign (set_com_initialized_ false)).

(** *** The callback setters (lines 248-261) *)

Definition SetResultCallback (cb : option callback) : M unit :=
  emit ELock ;; emit (EWrite ResultSlot) ;;
  assign (set_result_callback_ cb) ;; emit EUnlock.

Definition SetErrorCallback (cb : option callback) : M unit :=
  emit ELock ;; emit (EWrite ErrorSlot) ;;
  assign (set_error_callback_ cb) ;; emit EUnlock.

Definition SetStatusCallback (cb : option callback) : M unit :=
  emit ELock ;; emit (EWrite StatusSlot) ;;
  assign (set_status_callback_ cb) ;; emit EUnlock.

(** *** RecognitionThread (lines 185-237) *)

Definition wstring := list Z.      (* UTF-16 code units, without the final 0 *)

Record SPEVENT := mkSPEVENT {
  eEventId : Z;
  elParamType : Z;
  lParam : ptr
}.

(** What the system answers during one turn of the inner loop: the reply of
    [GetEvents(1, &event, &fetched)] and, for the object the event carries,
    the reply of [GetText] (its HRESULT and the [LPWSTR] it stores, [None]
    for a null pointer) and the bytes [WideCharToMultiByte] produces for
    that text. *)
Record GetEventsReply := mkReply {
  ge_hr : HRESULT;
  ge_fetched : ULONG;
  ge_event : SPEVENT;
  gt_hr : HRESULT;
  gt_text : option wstring;
  mb_bytes : string
}.

(** WideToUtf8 (lines 239-246); [converted] is what the two calls of
    [WideCharToMultiByte] produce for [wstr]. *)
Definition WideToUtf8 (wstr : wstring) (converted : string) : string :=
  match wstr with
  | [] => EmptyString
  | _ => converted
  end.

Definition string_empty (s : string) : bool :=
  match s with
  | EmptyString => true
  | _ => false
  end.

Definition has_object (event : SPEVENT) : bool :=
  (elParamType event =? SPET_LPARAM_IS_OBJECT) && non_null (lParam event).

(** The body of the inner [while] (lines 196-229) for one fetched event. *)
Definition process_event (r : GetEventsReply) : M unit :=
  let event := ge_event r in
  if (eEventId event =? SPEI_RECOGNITION)
     || (eEventId event =? SPEI_FALSE_RECOGNITION) then
    if has_object event then
      let reco_result := lParam event in
      (if eEventId event =? SPEI_RECOGNITION then
         emit (EGetText reco_result (gt_hr r)) ;;
         if SUCCEEDED (gt_hr r) then
           match gt_text r with
           | Some text =>
               let utf8_text := WideToUtf8 text (mb_bytes r) in
               emit ELock ;;
               emit (ERead ResultSlot) ;;
               cb <- field result_callback_ ;;
               match cb with
               | Some f =>
                   when_ (negb (string_empty utf8_text))
                         (emit (EResult f utf8_text true))
               | None => ret tt
               end ;;
               emit ECoTaskMemFree ;;
               emit EUnlock
           | None => ret tt
           end
         else ret tt
       else ret tt) ;;
      emit (ERelease reco_result)
    else ret tt
  else
    when_ (has_object event) (emit (ERelease (lParam event))).

Definition fetched_one (r : GetEventsReply) : bool :=
  (ge_hr r =? S_OK) && (0 <? ge_fetched r).

(** The inner [while] (lines 195-234), run against the replies the context
    gives to the successive [GetEvents] calls; past the end of [replies] the
    queue is empty and [GetEvents] stores nothing. *)
Fixpoint drain_events (replies : list GetEventsReply) : M unit :=
  c <- field context_ ;;
  match replies with
  | [] => emit (EGetEvents c S_FALSE 0)
  | r :: rest =>
      emit (EGetEvents c (ge_hr r) (ge_fetched r)) ;;
      if fetched_one r then process_event r ;; drain_events rest
      else ret tt
  end.

(** The program counter of the polling thread. *)
Inductive PollPc :=
| NotRunning      (* no thread: never spawned, or joined *)
| AtLoopHead      (* about to test [should_stop_] (line 186) *)
| Draining        (* about to call [GetEvents] (line 195) *)
| Exited.         (* the loop is left; the thread can be joined *)

(** One turn of the outer loop head: the flag test, then the bounded wait. *)
Definition RecognitionThread_wait (wait_result : DWORD) : M PollPc :=
  stop <- field should_stop_ ;;
  if stop then ret Exited else
  h <- field recognition_event_ ;;
  emit (EWaitForSingleObject h 100 wait_result) ;;
  if wait_result =? WAIT_OBJECT_0 then ret Draining else ret AtLoopHead.

(** One turn of the inner loop. *)
Definition RecognitionThread_get_events (r : GetEventsReply) : M PollPc :=
  c <- field context_ ;;
  emit (EGetEvents c (ge_hr r) (ge_fetched r)) ;;
  if fetched_one r then process_event r ;; ret Draining
  else ret AtLoopHead.

(** ** The two threads together

    The control thread runs the public member functions one after the other;
    the polling thread runs [RecognitionThread].  An execution is a sequence
    of actions.  A member function other than [StopListening] never blocks
    and is one action; [StopListening] is two, separated by the wait in
    [join], during which only the polling thread moves. *)

Inductive Tid := ControlThread | PollingThread.

Inductive Call :=
| CallInitialize (env : InitEnv)
| CallStartListening (env : InitEnv) (activate_hr : HRESULT)
| CallStopListening (deactivate_hr : HRESULT)
| CallSetResultCallback (cb : option callback)
| CallSetErrorCallback (cb : option callback)
| CallSetStatusCallback (cb : option callback).

(** A call run to its end on the control thread; [unit] results are
    reported as [true]. *)
Definition do_call (c : Call) : M bool :=
  match c with
  | CallInitialize env => Initialize env
  | CallStartListening env hr => StartListening env hr
  | CallStopListening hr => StopListening hr ;; ret true
  | CallSetResultCallback cb => SetResultCallback cb ;; ret true
  | CallSetErrorCallback cb => SetErrorCallback cb ;; ret true
  | CallSetStatusCallback cb => SetStatusCallback cb ;; ret true
  end.

Fixpoint do_calls (cs : list Call) : M unit :=
  match cs with
  | [] => ret tt
  | c :: rest => do_call c ;; do_calls rest
  end.

Inductive Action :=
| Invoke (c : Call)               (* the control thread calls a member *)
| JoinReturns                     (* [join] returns inside StopListening *)
| PollWait (wait_result : DWORD)  (* the polling thread, outer loop head *)
| PollGetEvents (r : GetEventsReply).  (* the polling thread, inner loop *)

Record World := mkWorld {
  session : SpeechRecognition;
  poller : PollPc;
  in_join : bool;                 (* the control thread waits in [join] *)
  history : list (Tid * Effect)   (* oldest first *)
}.

Definition initial_world : World :=
  mkWorld new_session NotRunning false [].

Definition tagged (t : Tid) (tr : trace) : list (Tid * Effect) :=
  map (fun e => (t, e)) tr.

Definition is_spawn (e : Effect) : bool :=
  match e with
  | ESpawn => true
  | _ => false
  end.

(** The world after a control-thread computation [m]. *)
Definition control_runs {A} (m : M A) (w : World) : option World :=
  let '(_, s', tr) := m (session w) in
  if existsb is_spawn tr then
    (* assigning to a joinable std::thread terminates the program *)
    if recognition_thread_ (session w) then None
    else Some (mkWorld s' AtLoopHead false (history w ++ tagged ControlThread tr))
  else Some (mkWorld s' (poller w) false (history w ++ tagged ControlThread tr)).

Definition step (w : World) (a : Action) : option World :=
  match a with
  | Invoke (CallStopListening hr) =>
      if in_join w then None
      else if is_listening_ (session w) && recognition_thread_ (session w) then
        let '(_, s', tr) := StopListening_signal hr (session w) in
        Some (mkWorld s' (poller w) true (history w ++ tagged ControlThread tr))
      else control_runs (StopListening hr) w
  | Invoke c =>
      if in_join w then None else control_runs (do_call c) w
  | JoinReturns =>
      if in_join w then
        match poller w with
        | Exited =>
            let '(_, s', tr) := StopListening_join (session w) in
            Some (mkWorld s' NotRunning false
                          (history w ++ tagged ControlThread tr))
        | _ => None
        end
      else None
  | PollWait r =>
      match poller w with
      | AtLoopHead =>
          let '(pc, s', tr) := RecognitionThread_wait r (session w) in
          Some (mkWorld s' pc (in_join w) (history w ++ tagged PollingThread tr))
      | _ => None
      end
  | PollGetEvents r =>
      match poller w with
      | Draining =>
          let '(pc, s', tr) := RecognitionThread_get_events r (session w) in
          Some (mkWorld s' pc (in_join w) (history w ++ tagged PollingThread tr))
      | _ => None
      end
  end.

Fixpoint run (w : World) (acts : list Action) : option World :=
  match acts with
  | [] => Some w
  | a :: rest =>
      match step w a with
      | Some w' => run w' rest
      | None => None
      end
  end.

(** ** What is observed of a trace *)

Definition is_invocation (e : Effect) : bool :=
  match e with
  | EResult _ _ _ | EError _ _ | EStatus _ _ => true
  | _ => false
  end.

(** The callback invocations of a trace, in order. *)
Definition invocations (t : trace) : trace := filter is_invocation t.

(** The objects on which [Release] is called, in order. *)
Fixpoint released_objects (t : trace) : list ptr :=
  match t with
  | [] => []
  | ERelease p :: t' => p :: released_objects t'
  | _ :: t' => released_objects t'
  end.

(** A native resource: the COM runtime of the thread, or a COM object. *)
Inductive Resource := ComRuntime | ComObject (p : ptr).

Definition acquired_by (e : Effect) : list Resource :=
  match e with
  | ECoInitializeEx hr => if SUCCEEDED hr then [ComRuntime] else []
  | ECoCreateInstance hr out => if SUCCEEDED hr then [ComObject out] else []
  | ECreateRecoContext _ hr out => if SUCCEEDED hr then [ComObject out] else []
  | ECreateGrammar _ hr out => if SUCCEEDED hr then [ComObject out] else []
  | _ => []
  end.

Definition released_by (e : Effect) : list Resource :=
  match e with
  | ECoUninitialize => [ComRuntime]
  | ERelease p => [ComObject p]
  | _ => []
  end.

Definition acquired (t : trace) : list Resource := flat_map acquired_by t.
Definition released (t : trace) : list Resource := flat_map released_by t.

Definition is_close_handle (e : Effect) : bool :=
  match e with
  | ECloseHandle _ => true
  | _ => false
  end.

Definition is_co_uninitialize (e : Effect) : bool :=
  match e with
  | ECoUninitialize => true
  | _ => false
  end.

(** Accesses to a callback field, and those made while [callback_mutex_]
    is not held by the running thread ([held] is whether it is held at the
    start of the trace). *)
Definition is_access (e : Effect) : bool :=
  match e with
  | ERead _ | EWrite _ | EResult _ _ _ | EError _ _ | EStatus _ _ => true
  | _ => false
  end.

Fixpoint unlocked_accesses (held : bool) (t : trace) : trace :=
  match t with
  | [] => []
  | ELock :: t' => unlocked_accesses true t'
  | EUnlock :: t' => unlocked_accesses false t'
  | e :: t' =>
      if is_access e && negb held then e :: unlocked_accesses held t'
      else unlocked_accesses held t'
  end.

(** The effects of one thread in a history. *)
Definition effects_of (t : Tid) (h : list (Tid * Effect)) : trace :=
  flat_map (fun te => match fst te, t with
                      | ControlThread, ControlThread
                      | PollingThread, PollingThread => [snd te]
                      | _, _ => []
                      end) h.

(** What a session holds, in the order in which teardown gives it back. *)
Definition held_objects (s : SpeechRecognition) : list ptr :=
  filter non_null [grammar_ s; context_ s; recognizer_ s].

Definition held_runtime (s : SpeechRecognition) : list Resource :=
  if com_initialized_ s then [ComRuntime] else [].

Definition held (s : SpeechRecognition) : list Resource :=
  map ComObject (held_objects s) ++ held_runtime s.

Definition nothing_held (s : SpeechRecognition) : Prop :=
  recognizer_ s = nullptr /\ context_ s = nullptr /\ grammar_ s = nullptr
  /\ recognition_event_ s = nullptr /\ com_initialized_ s = false.

Definition co_uninitialize_count (t : trace) : nat :=
  List.length (filter is_co_uninitialize t).

Definition is_co_initialize_ok (e : Effect) : bool :=
  match e with
  | ECoInitializeEx hr => SUCCEEDED hr
  | _ => false
  end.

(** The number of CoInitializeEx calls that succeeded. *)
Definition co_initialize_count (t : trace) : nat :=
  List.length (filter is_co_initialize_ok t).

Definition is_runtime (r : Resource) : bool :=
  match r with
  | ComRuntime => true
  | ComObject _ => false
  end.

Definition count_runtime (l : list Resource) : nat :=
  List.length (filter is_runtime l).

(** The replies of [GetEvents] that the inner loop consumes: those up to the
    first one that does not deliver an event. *)
Fixpoint drained (replies : list GetEventsReply) : list GetEventsReply :=
  match replies with
  | [] => []
  | r :: rest => if fetched_one r then r :: drained rest else []
  end.

Definition is_lock (e : Effect) : bool :=
  match e with
  | ELock => true
  | _ => false
  end.

(** ** The failure points of Initialize *)

Inductive InitStep :=
| StepComRuntime    (* CoInitializeEx *)
| StepRecognizer    (* CoCreateInstance *)
| StepContext       (* CreateRecoContext *)
| StepInterest      (* SetInterest *)
| StepGrammar       (* CreateGrammar *)
| StepDictation.    (* LoadDictation *)

Definition step_fails (env : InitEnv) (k : InitStep) : bool :=
  match k with
  | StepComRuntime =>
      FAILED (co_initialize_hr env)
      && negb (co_initialize_hr env =? RPC_E_CHANGED_MODE)
  | StepRecognizer => FAILED (co_create_hr env)
  | StepContext => FAILED (create_context_hr env)
  | StepInterest => FAILED (set_interest_hr env)
  | StepGrammar => FAILED (create_grammar_hr env)
  | StepDictation => FAILED (load_dictation_hr env)
  end.

Definition steps_before (k : InitStep) : list InitStep :=
  match k with
  | StepComRuntime => []
  | StepRecognizer => [StepComRuntime]
  | StepContext => [StepComRuntime; StepRecognizer]
  | StepInterest => [StepComRuntime; StepRecognizer; StepContext]
  | StepGrammar => [StepComRuntime; StepRecognizer; StepContext; StepInterest]
  | StepDictation =>
      [StepComRuntime; StepRecognizer; StepContext; StepInterest; StepGrammar]
  end.

(** Step [k] is the first one that fails. *)
Definition fails_at (env : InitEnv) (k : InitStep) : bool :=
  step_fails env k && forallb (fun j => negb (step_fails env j)) (steps_before k).

Definition init_error_message (k : InitStep) : string :=
  match k with
  | StepComRuntime => msg_com_init
  | StepRecognizer => msg_recognizer
  | StepContext => msg_context
  | StepInterest => msg_interest
  | StepGrammar => msg_grammar
  | StepDictation => msg_dictation
  end.

(** The resources a run of Initialize holds when it reaches step [k]. *)
Definition acquired_before (env : InitEnv) (k : InitStep) : list Resource :=
  let com :=
    if SUCCEEDED (co_initialize_hr env) then [ComRuntime] else [] in
  match k with
  | StepComRuntime => []
  | StepRecognizer => com
  | StepContext => com ++ [ComObject (co_create_out env)]
  | StepInterest | StepGrammar =>
      com ++ [ComObject (co_create_out env);
              ComObject (create_context_out env)]
  | StepDictation =>
      com ++ [ComObject (co_create_out env);
              ComObject (create_context_out env);
              ComObject (create_grammar_out env)]
  end.

(** The COM rule for out-parameters: a failed call stores a null pointer, a
    successful one a non-null pointer. *)
Definition out_param_ok (hr : HRESULT) (out : ptr) : bool :=
  if FAILED hr then out =? nullptr else non_null out.

Definition com_contract (env : InitEnv) : bool :=
  out_param_ok (co_create_hr env) (co_create_out env)
  && out_param_ok (create_context_hr env) (create_context_out env)
  && out_param_ok (create_grammar_hr env) (create_grammar_out env).

(** The state Uninitialized: nothing is held. *)
Definition Uninitialized (s : SpeechRecognition) : Prop :=
  is_initialized_ s = false /\ is_listening_ s = false
  /\ recognizer_ s = nullptr /\ context_ s = nullptr /\ grammar_ s = nullptr
  /\ recognition_event_ s = nullptr /\ com_initialized_ s = false.

(** The session with other callbacks: the only difference allowed between
    two states that hold the same resources. *)
Definition same_but_callbacks (s s' : SpeechRecognition) : Prop :=
  recognizer_ s' = recognizer_ s /\ context_ s' = context_ s
  /\ grammar_ s' = grammar_ s /\ recognition_event_ s' = recognition_event_ s
  /\ is_initialized_ s' = is_initialized_ s
  /\ is_listening_ s' = is_listening_ s /\ should_stop_ s' = should_stop_ s
  /\ com_initialized_ s' = com_initialized_ s
  /\ recognition_thread_ s' = recognition_thread_ s.

(** ** Kinds of actions, invariants, and whole lifetimes *)

Definition is_start (a : Action) : bool :=
  match a with
  | Invoke (CallStartListening _ _) => true
  | _ => false
  end.

Definition is_poll_action (a : Action) : bool :=
  match a with
  | PollWait _ | PollGetEvents _ => true
  | _ => false
  end.

Definition is_join_return (a : Action) : bool :=
  match a with
  | JoinReturns => true
  | _ => false
  end.

Definition is_running (pc : PollPc) : bool :=
  match pc with
  | NotRunning => false
  | _ => true
  end.

(** [recognition_thread_] is joinable exactly when there is a polling
    thread; outside StopListening that is exactly when the session is
    listening; inside the join the stop flag is up. *)
Record world_ok (w : World) : Prop := mk_world_ok {
  ok_joinable : recognition_thread_ (session w) = is_running (poller w);
  ok_listening :
    in_join w = false ->
    is_listening_ (session w) = recognition_thread_ (session w);
  ok_in_join :
    in_join w = true ->
    should_stop_ (session w) = true
    /\ is_listening_ (session w) = false
    /\ recognition_thread_ (session w) = true
}.

Definition call_contract (c : Call) : bool :=
  match c with
  | CallInitialize env => com_contract env
  | CallStartListening env _ => com_contract env
  | _ => true
  end.

Definition lifetime (cs : list Call) (deactivate_hr : HRESULT) : M unit :=
  do_calls cs ;; destructor deactivate_hr.

(** A session that is not initialized holds nothing. *)
Definition uninitialized_holds_nothing (s : SpeechRecognition) : Prop :=
  is_initialized_ s = false -> Uninitialized s.

(** ** Sample answers of the system, used to run the model *)

Definition E_FAIL : HRESULT := HRESULT_of_bits 0x80004005.

(** Every call succeeds. *)
Definition env_ok : InitEnv :=
  mkInitEnv S_OK S_OK 4096 S_OK 8192 S_OK 64 S_OK 12288 S_OK.

(** The thread is already in another apartment mode; the rest succeeds. *)
Definition env_changed_mode : InitEnv :=
  mkInitEnv RPC_E_CHANGED_MODE S_OK 4096 S_OK 8192 S_OK 64 S_OK 12288 S_OK.

(** Step [k] is the first to fail. *)
Definition env_failing_at (k : InitStep) : InitEnv :=
  match k with
  | StepComRuntime =>
      mkInitEnv E_FAIL S_OK 4096 S_OK 8192 S_OK 64 S_OK 12288 S_OK
  | StepRecognizer =>
      mkInitEnv S_OK E_FAIL 0 S_OK 8192 S_OK 64 S_OK 12288 S_OK
  | StepContext =>
      mkInitEnv S_OK S_OK 4096 E_FAIL 0 S_OK 64 S_OK 12288 S_OK
  | StepInterest =>
      mkInitEnv S_OK S_OK 4096 S_OK 8192 E_FAIL 64 S_OK 12288 S_OK
  | StepGrammar =>
      mkInitEnv S_OK S_OK 4096 S_OK 8192 S_OK 64 E_FAIL 0 S_OK
  | StepDictation =>
      mkInitEnv S_OK S_OK 4096 S_OK 8192 S_OK 64 S_OK 12288 E_FAIL
  end.

(** A session whose three callbacks are registered. *)
Definition with_callbacks (s : SpeechRecognition) : SpeechRecognition :=
  set_status_callback_ (Some 3%nat)
    (set_error_callback_ (Some 2%nat) (set_result_callback_ (Some 1%nat) s)).

Definition initialized_session : SpeechRecognition :=
  state_of (Initialize env_ok (with_callbacks new_session)).

Definition listening_session : SpeechRecognition :=
  state_of (StartListening env_ok S_OK initialized_session).

(** Sample events. *)
Definition reply_recognized (text : wstring) (utf8 : string) : GetEventsReply :=
  mkReply S_OK 1 (mkSPEVENT SPEI_RECOGNITION SPET_LPARAM_IS_OBJECT 20480)
          S_OK (Some text) utf8.

Definition reply_rejected : GetEventsReply :=
  mkReply S_OK 1 (mkSPEVENT SPEI_FALSE_RECOGNITION SPET_LPARAM_IS_OBJECT 24576)
          S_OK None EmptyString.

Definition reply_text_failure : GetEventsReply :=
  mkReply S_OK 1 (mkSPEVENT SPEI_RECOGNITION SPET_LPARAM_IS_OBJECT 28672)
          E_FAIL None EmptyString.

Definition reply_no_object : GetEventsReply :=
  mkReply S_OK 1 (mkSPEVENT SPEI_RECOGNITION 0 0) S_OK None EmptyString.

Definition reply_queue_empty : GetEventsReply :=
  mkReply S_FALSE 0 (mkSPEVENT 0 0 0) S_OK None EmptyString.

Definition hello_utf16 : wstring := [104; 105].
Definition hello_utf8 : string := "hi".

(** A sample execution: start, one recognized phrase, stop, later calls. *)
Definition sample_before_stop : list Action :=
  [Invoke (CallSetResultCallback (Some 1%nat));
   Invoke (CallSetStatusCallback (Some 3%nat));
   Invoke (CallStartListening env_ok S_OK);
   PollWait WAIT_TIMEOUT;
   PollWait WAIT_OBJECT_0;
   PollGetEvents (reply_recognized hello_utf16 hello_utf8)].

Definition sample_during_join : list Action :=
  [PollGetEvents reply_rejected; PollGetEvents reply_queue_empty;
   PollWait WAIT_TIMEOUT].

Definition sample_after_stop : list Action :=
  [Invoke (CallInitialize env_ok);
   Invoke (CallSetResultCallback None);
   Invoke (CallStopListening S_OK)].

Definition world_of (o : option World) : World :=
  match o with
  | Some w => w
  | None => initial_world
  end.

Definition sample_w : World := world_of (run initial_world sample_before_stop).
Definition sample_w1 : World :=
  world_of (step sample_w (Invoke (CallStopListening S_OK))).
Definition sample_w2 : World := world_of (run sample_w1 sample_during_join).
Definition sample_w3 : World := world_of (step sample_w2 JoinReturns).
Definition sample_w4 : World := world_of (run sample_w3 sample_after_stop).

(** A sample lifetime: an Initialize that fails when the grammar is created,
    one that succeeds, a listening phase, and a redundant Initialize. *)
Definition sample_lifetime : list Call :=
  [CallSetErrorCallback (Some 2%nat);
   CallInitialize (env_failing_at StepGrammar);
   CallStartListening env_ok S_OK;
   CallInitialize env_ok;
   CallStopListening S_OK].

(** * Further definitions: invariants, the callbacks, the channels *)


(** ** The accessors of the header (speech_recognition.h, lines 38 and 41) *)

Definition IsListening (s : SpeechRecognition) : bool := is_listening_ s.
Definition IsInitialized (s : SpeechRecognition) : bool := is_initialized_ s.

(** ** Safety of the calls made through a pointer *)

(** The object a call is made on: [p] for [p->Method(...)]. *)
Definition receiver (e : Effect) : option ptr :=
  match e with
  | ECreateRecoContext this _ _ => Some this
  | ESetInterest this _ => Some this
  | EGetNotifyEventHandle this _ => Some this
  | ECreateGrammar this _ _ => Some this
  | ELoadDictation this _ => Some this
  | ESetDictationState this _ _ => Some this
  | ERelease this => Some this
  | EGetEvents this _ _ => Some this
  | EGetText this _ => Some this
  | _ => None
  end.

(** A method called on a null pointer. *)
Definition null_call (e : Effect) : bool :=
  match receiver e with
  | Some p => p =? nullptr
  | None => false
  end.

Definition no_null_call (t : trace) : bool :=
  forallb (fun e => negb (null_call e)) t.

(** The three interface pointers are all set. *)
Definition handles_valid (s : SpeechRecognition) : bool :=
  non_null (recognizer_ s) && non_null (context_ s) && non_null (grammar_ s).

(** What every reachable session satisfies: not initialized, it holds
    nothing; initialized, its three pointers are set; and it listens or has
    a thread only when initialized. *)
Record session_ok (s : SpeechRecognition) : Prop := mk_session_ok {
  sok_uninitialized : is_initialized_ s = false -> Uninitialized s;
  sok_initialized : is_initialized_ s = true -> handles_valid s = true;
  sok_thread : recognition_thread_ s = true -> is_initialized_ s = true;
  sok_listening : is_listening_ s = true -> is_initialized_ s = true
}.

(** The calls of the control thread in an execution all satisfy [C]. *)
Definition action_satisfies (C : Call -> bool) (a : Action) : bool :=
  match a with
  | Invoke c => C c
  | _ => true
  end.

(** The system keeps the COM rule for out-parameters in every call. *)
Definition actions_contract (acts : list Action) : bool :=
  forallb (action_satisfies call_contract) acts.


(** ** Kinds of calls and of callback invocations *)

Definition is_stop_call (c : Call) : bool :=
  match c with
  | CallStopListening _ => true
  | _ => false
  end.

(** A result callback invoked with [is_final = true]. *)
Definition is_final_result (e : Effect) : bool :=
  match e with
  | EResult _ _ true => true
  | _ => false
  end.

Definition is_error_report (e : Effect) : bool :=
  match e with
  | EError _ _ => true
  | _ => false
  end.

(** The sample execution at the point where the polling thread has been
    woken and is about to fetch its first event. *)
Definition sample_draining : World :=
  world_of (run initial_world (firstn 5 sample_before_stop)).

Definition sample_replaced : World :=
  world_of (step sample_draining (Invoke (CallSetResultCallback (Some 9%nat)))).

Definition sample_replaced_event : World :=
  world_of (step sample_replaced
                 (PollGetEvents (reply_recognized hello_utf16 hello_utf8))).

(** ** Counting calls *)

Definition is_get_text (e : Effect) : bool :=
  match e with
  | EGetText _ _ => true
  | _ => false
  end.

Definition is_co_task_mem_free (e : Effect) : bool :=
  match e with
  | ECoTaskMemFree => true
  | _ => false
  end.

Definition count (p : Effect -> bool) (t : trace) : nat :=
  List.length (filter p t).

(** The use of [callback_mutex_] along a trace, from [held]: [Some h] when
    the mutex is never taken while held nor given back while free, [h] being
    whether it is held at the end. *)
Fixpoint lock_run (held : bool) (t : trace) : option bool :=
  match t with
  | [] => Some held
  | ELock :: t' => if held then None else lock_run true t'
  | EUnlock :: t' => if held then lock_run false t' else None
  | _ :: t' => lock_run held t'
  end.

Definition is_join (e : Effect) : bool :=
  match e with
  | EJoin => true
  | _ => false
  end.


(** ** Which callbacks are called *)

(** The callback a call of a setter stores, with the field it goes to. *)
Definition registers (c : Call) : list (Slot * callback) :=
  match c with
  | CallSetResultCallback (Some f) => [(ResultSlot, f)]
  | CallSetErrorCallback (Some f) => [(ErrorSlot, f)]
  | CallSetStatusCallback (Some f) => [(StatusSlot, f)]
  | _ => []
  end.

Definition action_registers (a : Action) : list (Slot * callback) :=
  match a with
  | Invoke c => registers c
  | _ => []
  end.

(** Everything registered along an execution. *)
Definition registrations (acts : list Action) : list (Slot * callback) :=
  flat_map action_registers acts.

(** The callback an effect calls, with the field it was read from. *)
Definition invoked (e : Effect) : option (Slot * callback) :=
  match e with
  | EResult f _ _ => Some (ResultSlot, f)
  | EError f _ => Some (ErrorSlot, f)
  | EStatus f _ => Some (StatusSlot, f)
  | _ => None
  end.

Definition slot_eqb (a b : Slot) : bool :=
  match a, b with
  | ResultSlot, ResultSlot | ErrorSlot, ErrorSlot
  | StatusSlot, StatusSlot => true
  | _, _ => false
  end.

Definition registration_eqb (a b : Slot * callback) : bool :=
  slot_eqb (fst a) (fst b) && Nat.eqb (snd a) (snd b).

Definition registered (F : list (Slot * callback)) (sf : Slot * callback)
  : bool :=
  existsb (registration_eqb sf) F.

(** The callbacks a session stores. *)
Definition stored (sl : Slot) (cb : option callback) : list (Slot * callback) :=
  match cb with
  | Some f => [(sl, f)]
  | None => []
  end.

Definition callbacks_of (s : SpeechRecognition) : list (Slot * callback) :=
  stored ResultSlot (result_callback_ s)
  ++ stored ErrorSlot (error_callback_ s)
  ++ stored StatusSlot (status_callback_ s).

(** Every callback [t] calls is in [F], for the field it is called from. *)
Definition calls_within (F : list (Slot * callback)) (t : trace) : bool :=
  forallb (fun e => match invoked e with
                    | Some sf => registered F sf
                    | None => true
                    end) t.



(** * The channels of the plugin (RegisterSpeechRecognitionChannel,
      lines 263-380) *)

(** The values the handlers build: booleans, strings, and maps whose keys
    are strings. *)
#[warnings="-register-all"]
Inductive EncodableValue :=
| EVBool (b : bool)
| EVString (s : string)
| EVMap (m : list (string * EncodableValue)).

(** [flutter::EncodableMap] is a [std::map]: its entries are kept in the
    order of their keys. *)
Definition EncodableMap := list (string * EncodableValue).

(** [m[key] = value]: the value of an entry that is present is replaced, an
    entry that is missing is inserted at its place. *)
Fixpoint map_assign (key : string) (value : EncodableValue) (m : EncodableMap)
  : EncodableMap :=
  match m with
  | [] => [(key, value)]
  | (k, v) :: m' =>
      match String.compare key k with
      | Eq => (key, value) :: m'
      | Lt => (key, value) :: m
      | Gt => (k, v) :: map_assign key value m'
      end
  end.

Fixpoint map_find (key : string) (m : EncodableMap) : option EncodableValue :=
  match m with
  | [] => None
  | (k, v) :: m' => if (key =? k)%string then Some v else map_find key m'
  end.

(** What a method call is answered ([flutter::MethodResult]). *)
Inductive MethodReply :=
| Success (v : EncodableValue)
| Error (code message : string)
| NotImplemented.

(** What the plugin does, in program order. *)
Inductive Output :=
| OSession (e : Effect)          (* a call made by the session *)
| OMakeSession                   (* std::make_unique<SpeechRecognition>() *)
| OSinkSuccess (sink : ptr) (v : EncodableValue)   (* sink->Success(v) *)
| ODeleteSink (sink : ptr)       (* delete sink *)
| OReply (r : MethodReply).      (* result->Success, Error, NotImplemented *)

(** The two globals (lines 264 and 266). *)
Record Plugin := mkPlugin {
  g_speech_recognition : option SpeechRecognition;  (* [None]: empty pointer *)
  g_event_sink : ptr
}.

Definition initial_plugin : Plugin := mkPlugin None nullptr.

(** The three closures of the stream handler (lines 328, 338 and 348), each
    named by the line it is written on. *)
Definition on_result : callback := 328%nat.
Definition on_error : callback := 338%nat.
Definition on_status : callback := 348%nat.

Definition msg_not_initialized : string := "语音识别未初始化".

(** The maps the closures send. *)
Definition result_event (text : string) (is_final : bool) : EncodableMap :=
  map_assign "type" (EVString "result")
    (map_assign "isFinal" (EVBool is_final)
       (map_assign "text" (EVString text) [])).

Definition error_event (error : string) : EncodableMap :=
  map_assign "type" (EVString "error")
    (map_assign "error" (EVString error) []).

Definition status_event (status : string) : EncodableMap :=
  map_assign "type" (EVString "status")
    (map_assign "status" (EVString status) []).

(** The body of the closure an effect calls, [sink] being [g_event_sink]
    at that time. *)
Definition run_callback (sink : ptr) (e : Effect) : list Output :=
  match e with
  | EResult f text is_final =>
      if Nat.eqb f on_result && non_null sink
      then [OSinkSuccess sink (EVMap (result_event text is_final))] else []
  | EError f error =>
      if Nat.eqb f on_error && non_null sink
      then [OSinkSuccess sink (EVMap (error_event error))] else []
  | EStatus f status =>
      if Nat.eqb f on_status && non_null sink
      then [OSinkSuccess sink (EVMap (status_event status))] else []
  | _ => []
  end.

(** The effects of the session as the plugin sees them: each call, and
    after the call of a callback what its closure does. *)
Definition through (sink : ptr) (t : trace) : list Output :=
  flat_map (fun e => OSession e :: run_callback sink e) t.

(** The method call handler (lines 273-311).  [env] and [hr] are what the
    system answers to the calls of Initialize and to SetDictationState
    during this call. *)
Definition HandleMethodCall (method_name : string) (env : InitEnv)
           (hr : HRESULT) (p : Plugin) : MethodReply * Plugin * list Output :=
  let sink := g_event_sink p in
  if (method_name =? "initialize")%string then
    let '(s, made) := match g_speech_recognition p with
                      | Some s => (s, [])
                      | None => (new_session, [OMakeSession])
                      end in
    let '(success, s', tr) := Initialize env s in
    (Success (EVBool success), mkPlugin (Some s') sink,
     made ++ through sink tr)
  else if (method_name =? "startListening")%string then
    match g_speech_recognition p with
    | None => (Error "NOT_INITIALIZED" msg_not_initialized, p, [])
    | Some s =>
        let '(success, s', tr) := StartListening env hr s in
        (Success (EVBool success), mkPlugin (Some s') sink, through sink tr)
    end
  else if (method_name =? "stopListening")%string then
    match g_speech_recognition p with
    | Some s =>
        let '(_, s', tr) := StopListening hr s in
        (Success (EVBool true), mkPlugin (Some s') sink, through sink tr)
    | None => (Success (EVBool true), p, [])
    end
  else if (method_name =? "isListening")%string then
    (Success (EVBool match g_speech_recognition p with
                     | Some s => IsListening s
                     | None => false
                     end), p, [])
  else if (method_name =? "isInitialized")%string then
    (Success (EVBool match g_speech_recognition p with
                     | Some s => IsInitialized s
                     | None => false
                     end), p, [])
  else (NotImplemented, p, []).

(** The listen handler (lines 319-360); [events] is what
    [events.release()] gives. *)
Definition OnListen (events : ptr) (p : Plugin) : Plugin * list Output :=
  match g_speech_recognition p with
  | Some s =>
      if non_null events then
        let '(_, s', tr) :=
          (SetResultCallback (Some on_result) ;;
           SetErrorCallback (Some on_error) ;;
           SetStatusCallback (Some on_status)) s in
        (mkPlugin (Some s') events, through events tr)
      else (mkPlugin (Some s) events, [])
  | None => (mkPlugin None events, [])
  end.

(** The cancel handler (lines 361-377). *)
Definition OnCancel (p : Plugin) : Plugin * list Output :=
  let sink := g_event_sink p in
  let '(instance, outs) :=
    match g_speech_recognition p with
    | Some s =>
        let '(_, s', tr) :=
          (SetResultCallback None ;;
           SetErrorCallback None ;;
           SetStatusCallback None) s in
        (Some s', through sink tr)
    | None => (None, [])
    end in
  if non_null sink
  then (mkPlugin instance nullptr, outs ++ [ODeleteSink sink])
  else (mkPlugin instance sink, outs).

(** A turn of the inner loop of the polling thread, between two handlers. *)
Definition PollingTurn (r : GetEventsReply) (p : Plugin)
  : Plugin * list Output :=
  match g_speech_recognition p with
  | Some s =>
      if recognition_thread_ s then
        let '(_, s', tr) := RecognitionThread_get_events r s in
        (mkPlugin (Some s') (g_event_sink p), through (g_event_sink p) tr)
      else (p, [])
  | None => (p, [])
  end.

(** What happens to the plugin: the engine calls a handler, or the polling
    thread takes a turn. *)
Inductive Event :=
| MethodCall (method_name : string) (env : InitEnv) (hr : HRESULT)
| Listen (events : ptr)
| Cancel
| Polling (r : GetEventsReply).

Definition handle (a : Event) (p : Plugin) : Plugin * list Output :=
  match a with
  | MethodCall method_name env hr =>
      let '(reply, p', outs) := HandleMethodCall method_name env hr p in
      (p', outs ++ [OReply reply])
  | Listen events => OnListen events p
  | Cancel => OnCancel p
  | Polling r => PollingTurn r p
  end.

Fixpoint handle_all (acts : list Event) (p : Plugin) : Plugin * list Output :=
  match acts with
  | [] => (p, [])
  | a :: rest =>
      let '(p1, outs1) := handle a p in
      let '(p2, outs2) := handle_all rest p1 in
      (p2, outs1 ++ outs2)
  end.

(** What is observed of the plugin. *)
Definition sends (outs : list Output) : list (ptr * EncodableValue) :=
  flat_map (fun o => match o with
                     | OSinkSuccess sink v => [(sink, v)]
                     | _ => []
                     end) outs.

Definition deletes (outs : list Output) : list ptr :=
  flat_map (fun o => match o with
                     | ODeleteSink sink => [sink]
                     | _ => []
                     end) outs.

Definition replies (outs : list Output) : list MethodReply :=
  flat_map (fun o => match o with
                     | OReply r => [r]
                     | _ => []
                     end) outs.

Definition session_effects (outs : list Output) : trace :=
  flat_map (fun o => match o with
                     | OSession e => [e]
                     | _ => []
                     end) outs.

Definition makes_session (o : Output) : bool :=
  match o with
  | OMakeSession => true
  | _ => false
  end.

Definition is_initialize_call (a : Event) : bool :=
  match a with
  | MethodCall method_name _ _ => (method_name =? "initialize")%string
  | _ => false
  end.

Definition is_listen (a : Event) : bool :=
  match a with
  | Listen _ => true
  | _ => false
  end.

Definition is_subscription_change (a : Event) : bool :=
  match a with
  | Listen _ | Cancel => true
  | _ => false
  end.

(** The instance, when there is one, is initialized; it listens. *)
Definition plugin_initialized (p : Plugin) : bool :=
  match g_speech_recognition p with
  | Some s => IsInitialized s
  | None => false
  end.

Definition plugin_listening (p : Plugin) : bool :=
  match g_speech_recognition p with
  | Some s => IsListening s
  | None => false
  end.

(** There is a polling thread. *)
Definition plugin_polling (p : Plugin) : bool :=
  match g_speech_recognition p with
  | Some s => recognition_thread_ s
  | None => false
  end.

Definition is_stop_method (a : Event) : bool :=
  match a with
  | MethodCall method_name _ _ => (method_name =? "stopListening")%string
  | _ => false
  end.

(** The three closures, each in its field. *)
Definition plugin_callbacks : list (Slot * callback) :=
  [(ResultSlot, on_result); (ErrorSlot, on_error); (StatusSlot, on_status)].

(** The three closures are registered with the instance. *)
Definition subscribed (p : Plugin) : Prop :=
  match g_speech_recognition p with
  | Some s => callbacks_of s = plugin_callbacks
  | None => False
  end.

(** No callback is registered with the instance, or there is no instance. *)
Definition unsubscribed (p : Plugin) : Prop :=
  match g_speech_recognition p with
  | Some s => callbacks_of s = []
  | None => True
  end.

(** Sample runs of the plugin. *)
Definition sample_session_events : list Event :=
  [MethodCall "initialize" env_ok S_OK;
   Listen 32768;
   MethodCall "startListening" env_ok S_OK].

Definition sample_plugin : Plugin :=
  fst (handle_all sample_session_events initial_plugin).

Definition sample_initialized_plugin : Plugin :=
  snd (fst (HandleMethodCall "initialize" env_ok S_OK initial_plugin)).

(** The plugin of the sample run before its "startListening". *)
Definition sample_subscribed : Plugin :=
  fst (handle_all (firstn 2 sample_session_events) initial_plugin).

Definition sample_without_initialize : list Event :=
  [Listen 32768; MethodCall "startListening" env_ok S_OK;
   MethodCall "isListening" env_ok S_OK;
   MethodCall "dispose" env_ok S_OK; Cancel].

(** "initialize" fails, the stream is listened to, and "initialize" is
    called again. *)
Definition sample_failed_initialize : Plugin :=
  fst (handle_all
         [MethodCall "initialize" (env_failing_at StepRecognizer) S_OK;
          Listen 32768]
         initial_plugin).

(** What may follow OnCancel: the thread recognizes something, the
    stream is cancelled again, the session is stopped. *)
Definition sample_after_cancel : list Event :=
  [Polling (reply_recognized hello_utf16 hello_utf8);
   Cancel;
   MethodCall "stopListening" env_ok S_OK;
   MethodCall "startListening" env_ok S_OK].

Definition sample_early_listen : list Event :=
  [MethodCall "initialize" env_ok S_OK;
   MethodCall "startListening" env_ok S_OK;
   Polling (reply_recognized hello_utf16 hello_utf8);
   MethodCall "stopListening" env_ok S_OK;
   Cancel].

(** The instance a call of "initialize" works on. *)
Definition instance_or_new (p : Plugin) : SpeechRecognition :=
  match g_speech_recognition p with
  | Some s => s
  | None => new_session
  end.

(** What the three setters write when called in a row. *)
Definition setter_effects : trace :=
  [ELock; EWrite ResultSlot; EUnlock;
   ELock; EWrite ErrorSlot; EUnlock;
   ELock; EWrite StatusSlot; EUnlock].

Definition set_callbacks (r e st : option callback) (s : SpeechRecognition)
  : SpeechRecognition :=
  set_status_callback_ st (set_error_callback_ e (set_result_callback_ r s)).

(** The names of the methods called along a run, in order. *)
Definition method_names (acts : list Event) : list string :=
  flat_map (fun a => match a with
                     | MethodCall method_name _ _ => [method_name]
                     | _ => []
                     end) acts.

(** The answers given while there is no instance. *)
Definition reply_without_instance (method_name : string) : MethodReply :=
  if (method_name =? "startListening")%string
  then Error "NOT_INITIALIZED" msg_not_initialized
  else if (method_name =? "stopListening")%string then Success (EVBool true)
  else if (method_name =? "isListening")%string then Success (EVBool false)
  else if (method_name =? "isInitialized")%string then Success (EVBool false)
  else NotImplemented.

(** * Proofs *)

(** ** Running a computation symbolically *)

Arguments FAILED : simpl never.
Arguments SUCCEEDED : simpl never.
Arguments non_null : simpl never.
Arguments Z.eqb : simpl never.
Arguments Z.ltb : simpl never.

Ltac unfold_m :=
  unfold StopListening_signal, StopListening_join,
    SetResultCallback, SetErrorCallback, SetStatusCallback, Cleanup in *;
  unfold call_error_callback, call_status_callback in *;
  unfold when_, bind, ret, emit, field, assign,
    result_of, state_of, trace_of in *.

Lemma Initialize_when_initialized env s :
  is_initialized_ s = true -> Initialize env s = (true, s, []).
Proof.
  intros H. unfold Initialize, bind, field, ret. rewrite H. reflexivity.
Qed.

Ltac split_ifs :=
  repeat (cbn [fst snd app
               recognizer_ context_ grammar_ recognition_event_
               is_initialized_ is_listening_ should_stop_ com_initialized_
               recognition_thread_ result_callback_ error_callback_
               status_callback_
               set_recognizer_ set_context_ set_grammar_
               set_recognition_event_ set_is_initialized_ set_is_listening_
               set_should_stop_ set_com_initialized_ set_recognition_thread_
               set_result_callback_ set_error_callback_ set_status_callback_];
          match goal with
          | |- context [if ?b then _ else _] => destruct b eqn:?
          | |- context [match ?o with Some _ => _ | None => _ end] =>
              destruct o eqn:?
          end).

(** Initialize touches neither the thread, nor the listening and stop flags,
    nor the callbacks, and spawns nothing. *)
Lemma Initialize_frame env s :
  let r := Initialize env s in
  recognition_thread_ (state_of r) = recognition_thread_ s
  /\ is_listening_ (state_of r) = is_listening_ s
  /\ should_stop_ (state_of r) = should_stop_ s
  /\ result_callback_ (state_of r) = result_callback_ s
  /\ error_callback_ (state_of r) = error_callback_ s
  /\ status_callback_ (state_of r) = status_callback_ s
  /\ existsb is_spawn (trace_of r) = false.
Proof.
  unfold Initialize. unfold_m. destruct s. split_ifs; cbn; auto 10.
Qed.

Lemma Initialize_true_initialized env s :
  result_of (Initialize env s) = true ->
  is_initialized_ (state_of (Initialize env s)) = true.
Proof.
  unfold Initialize. unfold_m. destruct s. split_ifs; cbn; congruence.
Qed.

Lemma StartListening_keeps_initialized env hr s :
  is_initialized_ s = true ->
  is_initialized_ (state_of (StartListening env hr s)) = true.
Proof.
  intros H. unfold StartListening, StartListening_activate. unfold_m. rewrite H. cbn.
  destruct s; cbn in *. split_ifs; cbn; auto.
Qed.

Lemma do_call_keeps_initialized c s :
  is_initialized_ s = true ->
  is_initialized_ (state_of (do_call c s)) = true.
Proof.
  intros H. destruct c; cbn [do_call].
  - rewrite Initialize_when_initialized by assumption. exact H.
  - now apply StartListening_keeps_initialized.
  - unfold StopListening. unfold_m. destruct s; cbn in *.
    split_ifs; cbn; auto.
  - unfold_m. destruct s; cbn in *; auto.
  - unfold_m. destruct s; cbn in *; auto.
  - unfold_m. destruct s; cbn in *; auto.
Qed.

Lemma do_calls_cons c cs s :
  state_of (do_calls (c :: cs) s) = state_of (do_calls cs (state_of (do_call c s))).
Proof.
  cbn [do_calls]. unfold bind, state_of.
  destruct (do_call c s) as [[b s1] t1]. cbn.
  destruct (do_calls cs s1) as [[u s2] t2]. reflexivity.
Qed.

Lemma do_calls_keep_initialized cs : forall s,
  is_initialized_ s = true ->
  is_initialized_ (state_of (do_calls cs s)) = true.
Proof.
  induction cs as [|c cs IH]; intros s H.
  - exact H.
  - rewrite do_calls_cons. apply IH. now apply do_call_keeps_initialized.
Qed.

(** C6. Initialize is idempotent: once a first Initialize has returned true,
    a later Initialize, after any sequence of calls of the public members, so
    in state Initialized or Listening, returns true, leaves the object as it
    is and makes no call at all: no acquisition and no engine operation. *)
Theorem C6_Initialize_idempotent :
  forall (env0 env : InitEnv) (s0 : SpeechRecognition) (later : list Call),
    result_of (Initialize env0 s0) = true ->
    let s := state_of (do_calls later (state_of (Initialize env0 s0))) in
    Initialize env s = (true, s, []).
Proof.
  intros env0 env s0 later H s.
  apply Initialize_when_initialized.
  apply do_calls_keep_initialized.
  now apply Initialize_true_initialized.
Qed.

Lemma C6_Initialize_idempotent_witness :
  result_of (Initialize env_ok new_session) = true
  /\ (let s := state_of (do_calls [CallStartListening env_ok S_OK;
                                   CallSetResultCallback (Some 7%nat)]
                           (state_of (Initialize env_ok new_session))) in
      Initialize (env_failing_at StepRecognizer) s = (true, s, [])).
Proof.
  split.
  - reflexivity.
  - apply (C6_Initialize_idempotent env_ok (env_failing_at StepRecognizer)
             new_session). reflexivity.
Defined.

Lemma bind_run {A B} (m : M A) (k : A -> M B) s :
  bind m k s =
  (result_of (k (result_of (m s)) (state_of (m s))),
   state_of (k (result_of (m s)) (state_of (m s))),
   trace_of (m s) ++ trace_of (k (result_of (m s)) (state_of (m s)))).
Proof.
  unfold bind, result_of, state_of, trace_of.
  destruct (m s) as [[a s1] t1]. cbn.
  destruct (k a s1) as [[b s2] t2]. reflexivity.
Qed.

Lemma StartListening_uninitialized env hr s :
  is_initialized_ s = false ->
  StartListening env hr s =
  bind (Initialize env)
       (fun ok => if negb ok then ret false else StartListening_activate hr) s.
Proof.
  intros Hs. unfold StartListening.
  rewrite (bind_run (field is_initialized_)).
  change (field is_initialized_ s) with (is_initialized_ s, s, @nil Effect).
  cbn [result_of state_of trace_of fst snd app].
  rewrite Hs. cbn [negb].
  destruct (bind _ _ s) as [[b s2] t2]. reflexivity.
Qed.

Lemma StartListening_initialized env hr s :
  is_initialized_ s = true ->
  StartListening env hr s = StartListening_activate hr s.
Proof.
  intros Hs. unfold StartListening.
  rewrite (bind_run (field is_initialized_)).
  change (field is_initialized_ s) with (is_initialized_ s, s, @nil Effect).
  cbn [result_of state_of trace_of fst snd app].
  rewrite Hs. cbn [negb]. rewrite bind_run.
  change (ret true s) with (true, s, @nil Effect).
  cbn [result_of state_of trace_of fst snd app negb].
  destruct (StartListening_activate hr s) as [[b s2] t2]. reflexivity.
Qed.

(** C7. StartListening called while Uninitialized starts with the whole of
    Initialize; when that Initialize fails, StartListening does nothing more:
    it returns false, its effects are those of Initialize, no thread is
    spawned and, with the polling thread in view, the polling thread is where
    it was. *)
Theorem C7_StartListening_implicit_initialize :
  forall (env : InitEnv) (activate_hr : HRESULT) (s : SpeechRecognition),
    is_initialized_ s = false ->
    (exists rest,
        trace_of (StartListening env activate_hr s)
        = trace_of (Initialize env s) ++ rest)
    /\ (result_of (Initialize env s) = false ->
        StartListening env activate_hr s
        = (false, state_of (Initialize env s), trace_of (Initialize env s))
        /\ existsb is_spawn (trace_of (StartListening env activate_hr s)) = false
        /\ recognition_thread_ (state_of (StartListening env activate_hr s))
           = recognition_thread_ s
        /\ forall w, session w = s -> in_join w = false ->
             exists w', step w (Invoke (CallStartListening env activate_hr))
                        = Some w'
                        /\ poller w' = poller w).
Proof.
  intros env hr s Hs.
  pose proof (StartListening_uninitialized env hr s Hs) as Hrun.
  split.
  - rewrite Hrun, bind_run. cbn [trace_of snd]. eauto.
  - intros Hfail.
    assert (Heq : StartListening env hr s
                  = (false, state_of (Initialize env s),
                     trace_of (Initialize env s))).
    { rewrite Hrun, bind_run, Hfail. cbn. now rewrite app_nil_r. }
    destruct (Initialize_frame env s) as (Hth & _ & _ & _ & _ & _ & Hsp).
    rewrite Heq. cbn [trace_of state_of fst snd].
    repeat split; auto.
    intros w Hw Hj. unfold step. rewrite Hj. cbn [do_call].
    unfold control_runs. rewrite Hw, Heq, Hsp.
    eexists; split; reflexivity.
Qed.

Lemma C7_StartListening_implicit_initialize_witness :
  is_initialized_ new_session = false
  /\ result_of (Initialize (env_failing_at StepGrammar) new_session) = false
  /\ StartListening (env_failing_at StepGrammar) S_OK new_session
     = (false, state_of (Initialize (env_failing_at StepGrammar) new_session),
        trace_of (Initialize (env_failing_at StepGrammar) new_session))
  /\ existsb is_spawn
       (trace_of (StartListening (env_failing_at StepGrammar) S_OK new_session))
     = false.
Proof.
  split; [reflexivity|]. split; [reflexivity|].
  destruct (C7_StartListening_implicit_initialize
              (env_failing_at StepGrammar) S_OK new_session eq_refl)
    as [_ H].
  destruct (H eq_refl) as (H1 & H2 & _). split; assumption.
Defined.

(** C8. StartListening in state Initialized, when activating the grammar
    fails: the only calls made are the activation attempt and the error
    report (the error callback, when one is registered, is called once with
    the activation message), false is returned, and the object is left
    exactly as it was; so it is still Initialized and not listening, the stop
    flag is as before, no thread is spawned and every handle is kept. *)
Theorem C8_StartListening_activation_failure :
  forall (env : InitEnv) (activate_hr : HRESULT) (s : SpeechRecognition),
    is_initialized_ s = true ->
    is_listening_ s = false ->
    FAILED activate_hr = true ->
    StartListening env activate_hr s
    = (false, s,
       ESetDictationState (grammar_ s) SPRS_ACTIVE activate_hr
       :: ERead ErrorSlot
       :: match error_callback_ s with
          | Some f => [EError f msg_activate]
          | None => []
          end)
    /\ forall w, session w = s -> in_join w = false ->
         exists w', step w (Invoke (CallStartListening env activate_hr))
                    = Some w'
                    /\ session w' = s /\ poller w' = poller w.
Proof.
  intros env hr s Hi Hl Hf.
  assert (Heq : StartListening env hr s
    = (false, s,
       ESetDictationState (grammar_ s) SPRS_ACTIVE hr
       :: ERead ErrorSlot
       :: match error_callback_ s with
          | Some f => [EError f msg_activate]
          | None => []
          end)).
  { rewrite StartListening_initialized by assumption.
    unfold StartListening_activate. unfold_m. rewrite Hl, Hf.
    destruct (error_callback_ s); reflexivity. }
  split; [exact Heq|].
  intros w Hw Hj. unfold step. rewrite Hj. cbn [do_call].
  unfold control_runs. rewrite Hw, Heq.
  destruct (error_callback_ s); cbn; eexists; repeat split; reflexivity.
Qed.

Lemma C8_StartListening_activation_failure_witness :
  is_initialized_ initialized_session = true
  /\ is_listening_ initialized_session = false
  /\ FAILED E_FAIL = true
  /\ StartListening env_ok E_FAIL initialized_session
     = (false, initialized_session,
        [ESetDictationState 12288 SPRS_ACTIVE E_FAIL; ERead ErrorSlot;
         EError 2%nat msg_activate]).
Proof.
  split; [reflexivity|]. split; [reflexivity|]. split; [reflexivity|].
  exact (proj1 (C8_StartListening_activation_failure
                  env_ok E_FAIL initialized_session eq_refl eq_refl eq_refl)).
Defined.

(** ** Initialize that fails *)

Lemma RPC_E_CHANGED_MODE_negative : RPC_E_CHANGED_MODE < 0.
Proof. reflexivity. Qed.

(** Past the first test of Initialize, [com_initialized_] says whether
    CoInitializeEx succeeded. *)
Lemma com_initialized_iff_succeeded hr :
  FAILED hr && negb (hr =? RPC_E_CHANGED_MODE) = false ->
  negb (hr =? RPC_E_CHANGED_MODE) = negb (FAILED hr).
Proof.
  pose proof RPC_E_CHANGED_MODE_negative as Hneg.
  unfold FAILED.
  destruct (Z.ltb_spec hr 0), (Z.eqb_spec hr RPC_E_CHANGED_MODE);
    cbn; intros; try reflexivity; try discriminate; lia.
Qed.

Lemma com_runtime_failed hr :
  FAILED hr && negb (hr =? RPC_E_CHANGED_MODE) = true -> FAILED hr = true.
Proof. intros H. now apply andb_prop in H. Qed.

Lemma FAILED_SUCCEEDED hr : SUCCEEDED hr = negb (FAILED hr).
Proof.
  unfold FAILED, SUCCEEDED.
  destruct (Z.ltb_spec hr 0), (Z.leb_spec 0 hr); cbn; try reflexivity; lia.
Qed.

Lemma out_param_failed hr out :
  out_param_ok hr out = true -> FAILED hr = true -> out = nullptr.
Proof.
  unfold out_param_ok. intros H Hf. rewrite Hf in H. now apply Z.eqb_eq.
Qed.

Lemma out_param_succeeded hr out :
  out_param_ok hr out = true -> FAILED hr = false -> non_null out = true.
Proof.
  unfold out_param_ok. intros H Hf. now rewrite Hf in H.
Qed.

Lemma init_error_message_injective k k' :
  init_error_message k' = init_error_message k -> k' = k.
Proof.
  intros H. apply String.eqb_eq in H.
  destruct k, k'; try reflexivity; vm_compute in H; discriminate.
Qed.

Ltac use_contract :=
  repeat match goal with
  | H : out_param_ok ?hr ?out = true, Hf : FAILED ?hr = true |- _ =>
      pose proof (out_param_failed _ _ H Hf); clear H
  | H : out_param_ok ?hr ?out = true, Hf : FAILED ?hr = false |- _ =>
      pose proof (out_param_succeeded _ _ H Hf); clear H
  end.

(** [H : step_fails k && (negb (step_fails j1) && ...) = true] is cut into
    one fact for each step. *)
Ltac split_fails H :=
  repeat match type of H with
         | _ && _ = true =>
             let H1 := fresh "Hstep" in
             apply andb_prop in H as [H1 H];
             try apply negb_true_iff in H1
         end.

Ltac rewrite_facts :=
  repeat match goal with
         | H : FAILED _ && _ = _ |- _ => rewrite H
         end;
  repeat match goal with
         | H : negb (_ =? RPC_E_CHANGED_MODE) = _ |- _ => rewrite H
         end;
  repeat match goal with
         | H : FAILED ?h = _ |- context [FAILED ?h] => rewrite H
         | H : non_null ?p = _ |- context [non_null ?p] => rewrite H
         end.

Example msg_com_init_bytes : String.length msg_com_init = 19%nat.
Proof. reflexivity. Qed.

(** Initialize from Uninitialized, when step [k] is the first to fail. *)
Lemma Initialize_fails_at :
  forall (env : InitEnv) (s : SpeechRecognition) (k : InitStep),
    Uninitialized s ->
    com_contract env = true ->
    fails_at env k = true ->
    let r := Initialize env s in
    result_of r = false
    /\ acquired (trace_of r) = acquired_before env k
    /\ released (trace_of r) = rev (acquired_before env k)
    /\ Uninitialized (state_of r)
    /\ invocations (trace_of r)
       = match error_callback_ s with
         | Some f => [EError f (init_error_message k)]
         | None => []
         end
    /\ (forall k', init_error_message k' = init_error_message k -> k' = k).
Proof.
  intros env s k Hs Hc Hk r.
  assert (Hinj := init_error_message_injective k).
  destruct s as [rec ctx gr ev ini lis stp com thr rcb ecb scb].
  unfold Uninitialized in Hs. cbn in Hs.
  destruct Hs as (-> & -> & -> & -> & -> & -> & ->).
  destruct env as [h1 h2 o2 h3 o3 h4 e4 h5 o5 h6].
  unfold com_contract in Hc. cbn in Hc.
  apply andb_prop in Hc as [Hc Hc5]. apply andb_prop in Hc as [Hc2 Hc3].
  unfold Uninitialized.
  destruct k; unfold fails_at in Hk; cbn in Hk; split_fails Hk;
    try match goal with
        | H : FAILED h1 && _ = false |- _ =>
            pose proof (com_initialized_iff_succeeded _ H)
        | H : FAILED h1 && _ = true |- _ =>
            pose proof (com_runtime_failed _ H)
        end;
    use_contract; subst;
    subst r; unfold Initialize; unfold_m;
    cbn [co_initialize_hr co_create_hr co_create_out create_context_hr
         create_context_out set_interest_hr notify_event_handle
         create_grammar_hr create_grammar_out load_dictation_hr
         is_initialized_];
    destruct ecb;
    repeat (progress (rewrite_facts; cbn;
                      try change (non_null nullptr) with false;
                      rewrite ?FAILED_SUCCEEDED)).
  all: repeat split;
    repeat (progress (cbn; rewrite ?FAILED_SUCCEEDED; rewrite_facts));
    try destruct (FAILED h1) eqn:Hcom;
    repeat (progress (cbn; rewrite ?FAILED_SUCCEEDED; rewrite_facts));
    auto.
Qed.

(** C3. Initialize run in state Uninitialized, when step [k] is the first
    step to fail: the resources acquired are those of the steps before [k],
    the resources released are the same ones in the reverse order, false is
    returned, the object is Uninitialized again (every handle null), and the
    error callback, when one is registered, is called once, with the message
    of step [k], which no other step uses. *)
Theorem C3_Initialize_failure_unwinds :
  forall (env : InitEnv) (s : SpeechRecognition) (k : InitStep),
    Uninitialized s ->
    com_contract env = true ->
    fails_at env k = true ->
    let r := Initialize env s in
    result_of r = false
    /\ acquired (trace_of r) = acquired_before env k
    /\ released (trace_of r) = rev (acquired_before env k)
    /\ Uninitialized (state_of r)
    /\ invocations (trace_of r)
       = match error_callback_ s with
         | Some f => [EError f (init_error_message k)]
         | None => []
         end
    /\ (forall k', init_error_message k' = init_error_message k -> k' = k).
Proof. exact Initialize_fails_at. Qed.

Lemma C3_Initialize_failure_unwinds_witness :
  Uninitialized (with_callbacks new_session)
  /\ com_contract (env_failing_at StepDictation) = true
  /\ fails_at (env_failing_at StepDictation) StepDictation = true
  /\ result_of (Initialize (env_failing_at StepDictation)
                           (with_callbacks new_session)) = false
  /\ released (trace_of (Initialize (env_failing_at StepDictation)
                                    (with_callbacks new_session)))
     = [ComObject 12288; ComObject 8192; ComObject 4096; ComRuntime]
  /\ invocations (trace_of (Initialize (env_failing_at StepDictation)
                                       (with_callbacks new_session)))
     = [EError 2%nat msg_dictation].
Proof.
  assert (Hu : Uninitialized (with_callbacks new_session))
    by (repeat split; reflexivity).
  split; [exact Hu|]. split; [reflexivity|]. split; [reflexivity|].
  destruct (C3_Initialize_failure_unwinds
              (env_failing_at StepDictation) (with_callbacks new_session)
              StepDictation Hu eq_refl eq_refl)
    as (H1 & _ & H3 & _ & H5 & _).
  split; [exact H1|]. split; [exact H3|exact H5].
Defined.

(** ** Teardown *)

Lemma destructor_is_stop_then_cleanup hr s :
  destructor hr s = (StopListening hr ;; Cleanup) s.
Proof. reflexivity. Qed.

(** StopListening releases nothing and keeps every handle. *)
Lemma StopListening_keeps_handles hr s :
  let r := StopListening hr s in
  recognizer_ (state_of r) = recognizer_ s
  /\ context_ (state_of r) = context_ s
  /\ grammar_ (state_of r) = grammar_ s
  /\ com_initialized_ (state_of r) = com_initialized_ s
  /\ is_initialized_ (state_of r) = is_initialized_ s
  /\ released (trace_of r) = []
  /\ acquired (trace_of r) = []
  /\ existsb is_close_handle (trace_of r) = false.
Proof.
  unfold StopListening. unfold_m. destruct s. split_ifs; cbn; repeat split; auto.
Qed.

Lemma non_null_false p : non_null p = false -> p = nullptr.
Proof.
  unfold non_null. intros H. apply negb_false_iff in H. now apply Z.eqb_eq.
Qed.

Lemma Cleanup_releases s :
  released (trace_of (Cleanup s))
  = map ComObject (held_objects s) ++ held_runtime s
  /\ existsb is_close_handle (trace_of (Cleanup s)) = false
  /\ nothing_held (state_of (Cleanup s)).
Proof.
  unfold held_objects, held_runtime, nothing_held. unfold_m. destruct s.
  cbn [filter recognizer_ context_ grammar_ com_initialized_].
  split_ifs; cbn; repeat split; auto using non_null_false.
Qed.

Lemma Initialize_true_holds env s :
  Uninitialized s ->
  com_contract env = true ->
  result_of (Initialize env s) = true ->
  let s' := state_of (Initialize env s) in
  acquired (trace_of (Initialize env s))
  = rev (map ComObject (held_objects s') ++ held_runtime s')
  /\ released (trace_of (Initialize env s)) = []
  /\ com_initialized_ s' = SUCCEEDED (co_initialize_hr env)
  /\ grammar_ s' = create_grammar_out env
  /\ context_ s' = create_context_out env
  /\ recognizer_ s' = co_create_out env
  /\ non_null (grammar_ s') = true
  /\ non_null (context_ s') = true
  /\ non_null (recognizer_ s') = true
  /\ is_initialized_ s' = true.
Proof.
  intros Hs Hc Hr s'. subst s'.
  destruct s as [rec ctx gr ev ini lis stp com thr rcb ecb scb].
  unfold Uninitialized in Hs. cbn in Hs.
  destruct Hs as (-> & -> & -> & -> & -> & -> & ->).
  destruct env as [h1 h2 o2 h3 o3 h4 e4 h5 o5 h6].
  unfold com_contract in Hc. cbn in Hc.
  apply andb_prop in Hc as [Hc Hc5]. apply andb_prop in Hc as [Hc2 Hc3].
  revert Hr. unfold Initialize, held_objects, held_runtime. unfold_m.
  cbn [co_initialize_hr co_create_hr co_create_out create_context_hr
       create_context_out set_interest_hr notify_event_handle
       create_grammar_hr create_grammar_out load_dictation_hr
       is_initialized_].
  destruct (FAILED h1 && negb (h1 =? RPC_E_CHANGED_MODE)) eqn:H1;
    [destruct ecb; cbn; discriminate|].
  pose proof (com_initialized_iff_succeeded _ H1) as Hcom.
  destruct (FAILED h2) eqn:H2; [destruct ecb; cbn; split_ifs; discriminate|].
  destruct (FAILED h3) eqn:H3; [destruct ecb; cbn; split_ifs; discriminate|].
  destruct (FAILED h4) eqn:H4; [destruct ecb; cbn; split_ifs; discriminate|].
  destruct (FAILED h5) eqn:H5; [destruct ecb; cbn; split_ifs; discriminate|].
  destruct (FAILED h6) eqn:H6; [destruct ecb; cbn; split_ifs; discriminate|].
  use_contract. intros _.
  destruct scb; cbn; rewrite ?FAILED_SUCCEEDED; rewrite_facts;
    destruct (FAILED h1); cbn; repeat split; auto.
Qed.

Lemma released_app t1 t2 : released (t1 ++ t2) = released t1 ++ released t2.
Proof. unfold released. apply flat_map_app. Qed.

Lemma acquired_app t1 t2 : acquired (t1 ++ t2) = acquired t1 ++ acquired t2.
Proof. unfold acquired. apply flat_map_app. Qed.

Lemma Cleanup_co_uninitialize_count s :
  co_uninitialize_count (trace_of (Cleanup s))
  = if com_initialized_ s then 1%nat else 0%nat.
Proof.
  unfold co_uninitialize_count. unfold_m. destruct s.
  split_ifs; reflexivity.
Qed.

Lemma StopListening_co_uninitialize_count hr s :
  co_uninitialize_count (trace_of (StopListening hr s)) = 0%nat.
Proof.
  unfold co_uninitialize_count, StopListening. unfold_m. destruct s.
  split_ifs; reflexivity.
Qed.

Lemma co_uninitialize_count_app t1 t2 :
  co_uninitialize_count (t1 ++ t2)
  = (co_uninitialize_count t1 + co_uninitialize_count t2)%nat.
Proof.
  unfold co_uninitialize_count. now rewrite filter_app, List.length_app.
Qed.

Lemma destructor_run hr s :
  destructor hr s
  = (tt, state_of (Cleanup (state_of (StopListening hr s))),
     trace_of (StopListening hr s)
     ++ trace_of (Cleanup (state_of (StopListening hr s)))).
Proof.
  rewrite destructor_is_stop_then_cleanup, bind_run.
  unfold result_of. destruct (Cleanup _) as [[[] s2] t2]. reflexivity.
Qed.

Lemma held_after_StopListening hr s :
  held_objects (state_of (StopListening hr s)) = held_objects s
  /\ held_runtime (state_of (StopListening hr s)) = held_runtime s.
Proof.
  destruct (StopListening_keeps_handles hr s)
    as (Hr & Hc & Hg & Hcom & _).
  unfold held_objects, held_runtime. now rewrite Hr, Hc, Hg, Hcom.
Qed.


Lemma destructor_releases hr s :
  released (trace_of (destructor hr s))
  = map ComObject (held_objects s) ++ held_runtime s
  /\ existsb is_close_handle (trace_of (destructor hr s)) = false
  /\ nothing_held (state_of (destructor hr s))
  /\ co_uninitialize_count (trace_of (destructor hr s))
     = if com_initialized_ s then 1%nat else 0%nat.
Proof.
  rewrite destructor_run. cbn [trace_of state_of fst snd].
  destruct (StopListening_keeps_handles hr s)
    as (_ & _ & _ & Hcom & _ & Hrel & _ & Hclose).
  destruct (held_after_StopListening hr s) as [Ho Hrt].
  destruct (Cleanup_releases (state_of (StopListening hr s)))
    as (Hrel' & Hclose' & Hnone).
  rewrite released_app, Hrel, Hrel', Ho, Hrt.
  rewrite existsb_app, Hclose, Hclose'.
  rewrite co_uninitialize_count_app, StopListening_co_uninitialize_count,
    Cleanup_co_uninitialize_count, Hcom.
  repeat split; auto; apply Hnone.
Qed.

(** ** The polling loop *)

Ltac unfold_poll :=
  unfold process_event, has_object in *; unfold_m.

Lemma process_event_keeps_state r s : state_of (process_event r s) = s.
Proof.
  unfold_poll. split_ifs; reflexivity.
Qed.

Lemma drain_events_cons r rest s :
  drain_events (r :: rest) s
  = if fetched_one r then
      (tt, state_of (drain_events rest s),
       EGetEvents (context_ s) (ge_hr r) (ge_fetched r)
       :: trace_of (process_event r s) ++ trace_of (drain_events rest s))
    else (tt, s, [EGetEvents (context_ s) (ge_hr r) (ge_fetched r)]).
Proof.
  cbn [drain_events]. unfold bind at 1. unfold field at 1.
  unfold bind at 1. unfold emit at 1.
  destruct (fetched_one r); [|reflexivity].
  rewrite bind_run, !process_event_keeps_state.
  unfold result_of. destruct (drain_events rest s) as [[[] s2] t2].
  reflexivity.
Qed.

Lemma drain_events_keeps_state replies : forall s,
  state_of (drain_events replies s) = s.
Proof.
  induction replies as [|r rest IH]; intros s.
  - reflexivity.
  - rewrite drain_events_cons. destruct (fetched_one r); cbn; auto.
Qed.

Lemma released_objects_app t1 t2 :
  released_objects (t1 ++ t2) = released_objects t1 ++ released_objects t2.
Proof.
  induction t1 as [|e t1 IH]; [reflexivity|].
  destruct e; cbn; rewrite ?IH; reflexivity.
Qed.

Lemma process_event_releases r s :
  released_objects (trace_of (process_event r s))
  = if has_object (ge_event r) then [lParam (ge_event r)] else [].
Proof.
  unfold_poll. split_ifs; try reflexivity; discriminate.
Qed.

(** C5. An event fetched by the polling loop that carries an object
    (its parameter type is SPET_LPARAM_IS_OBJECT and its parameter is not
    null) has Release called on that object exactly once, whatever the kind
    of the event and whatever GetText answers; over the whole inner loop the
    Release calls are, in order, one for each fetched event that carries an
    object. *)
Theorem C5_event_object_released_once :
  forall (r : GetEventsReply) (replies : list GetEventsReply)
         (s : SpeechRecognition),
    has_object (ge_event r) = true ->
    released_objects (trace_of (process_event r s)) = [lParam (ge_event r)]
    /\ released_objects (trace_of (drain_events replies s))
       = map (fun q => lParam (ge_event q))
             (filter (fun q => has_object (ge_event q)) (drained replies)).
Proof.
  intros r replies s Hobj. split.
  - now rewrite process_event_releases, Hobj.
  - clear r Hobj. induction replies as [|q rest IH]; [reflexivity|].
    rewrite drain_events_cons. cbn [drained].
    destruct (fetched_one q); [|reflexivity].
    cbn [trace_of snd released_objects filter].
    rewrite released_objects_app, process_event_releases, IH.
    destruct (has_object (ge_event q)); reflexivity.
Qed.

Lemma C5_event_object_released_once_witness :
  has_object (ge_event reply_text_failure) = true
  /\ released_objects (trace_of (process_event reply_text_failure
                                               listening_session))
     = [28672]
  /\ released_objects
       (trace_of (drain_events
                    [reply_recognized hello_utf16 hello_utf8; reply_no_object;
                     reply_rejected; reply_text_failure; reply_queue_empty;
                     reply_rejected]
                    listening_session))
     = [20480; 24576; 28672].
Proof.
  split; [reflexivity|].
  exact (C5_event_object_released_once reply_text_failure
           [reply_recognized hello_utf16 hello_utf8; reply_no_object;
            reply_rejected; reply_text_failure; reply_queue_empty;
            reply_rejected]
           listening_session eq_refl).
Defined.

(** C4. What one fetched event makes the polling loop call back.  A
    recognition whose object yields a text that converts to a non-empty
    string calls the registered result callback exactly once, with that
    string and [is_final = true], and calls nothing else.  A false
    recognition calls no callback.  A recognition whose text converts to the
    empty string calls no callback, and its object is still released and the
    loop goes on to the next [GetEvents]. *)
Theorem C4_event_dispatch :
  forall (r : GetEventsReply) (rest : list GetEventsReply)
         (s : SpeechRecognition),
    let event := ge_event r in
    let tr := trace_of (process_event r s) in
    (forall text f,
        eEventId event = SPEI_RECOGNITION ->
        has_object event = true ->
        SUCCEEDED (gt_hr r) = true ->
        gt_text r = Some text ->
        WideToUtf8 text (mb_bytes r) <> EmptyString ->
        result_callback_ s = Some f ->
        invocations tr = [EResult f (WideToUtf8 text (mb_bytes r)) true])
    /\ (eEventId event = SPEI_FALSE_RECOGNITION -> invocations tr = [])
    /\ (forall text,
           eEventId event = SPEI_RECOGNITION ->
           has_object event = true ->
           gt_text r = Some text ->
           WideToUtf8 text (mb_bytes r) = EmptyString ->
           invocations tr = []
           /\ released_objects tr = [lParam event]
           /\ (fetched_one r = true ->
               trace_of (drain_events (r :: rest) s)
               = EGetEvents (context_ s) (ge_hr r) (ge_fetched r)
                 :: tr ++ trace_of (drain_events rest s))).
Proof.
  intros r rest s event tr. subst event tr.
  split; [|split].
  - intros text f Hid Hobj Hok Htext Hne Hcb.
    unfold process_event. rewrite Hid, Hobj, Hok, Htext, Z.eqb_refl.
    unfold_m. cbn. rewrite Hcb. cbn.
    destruct (WideToUtf8 text (mb_bytes r)); [congruence|reflexivity].
  - intros Hid. unfold process_event. rewrite Hid, Z.eqb_refl.
    change (SPEI_FALSE_RECOGNITION =? SPEI_RECOGNITION) with false.
    unfold_m. cbn.
    destruct (has_object (ge_event r)); reflexivity.
  - intros text Hid Hobj Htext Hempty.
    split; [|split].
    + unfold process_event. rewrite Hid, Hobj, Htext, Hempty, Z.eqb_refl.
      unfold_m.
      cbn. destruct (SUCCEEDED (gt_hr r)); [|reflexivity].
      cbn. destruct (result_callback_ s); reflexivity.
    + now rewrite process_event_releases, Hobj.
    + intros Hf. now rewrite drain_events_cons, Hf.
Qed.

Lemma C4_event_dispatch_witness :
  invocations (trace_of (process_event
                           (reply_recognized hello_utf16 hello_utf8)
                           listening_session))
  = [EResult 1%nat hello_utf8 true]
  /\ invocations (trace_of (process_event reply_rejected listening_session))
     = []
  /\ invocations (trace_of (process_event (reply_recognized [] hello_utf8)
                                          listening_session)) = []
  /\ released_objects
       (trace_of (process_event (reply_recognized [] hello_utf8)
                                listening_session)) = [20480].
Proof.
  destruct (C4_event_dispatch (reply_recognized hello_utf16 hello_utf8) []
              listening_session) as (H1 & _ & _).
  destruct (C4_event_dispatch reply_rejected [] listening_session)
    as (_ & H2 & _).
  destruct (C4_event_dispatch (reply_recognized [] hello_utf8) []
              listening_session) as (_ & _ & H3).
  split.
  - apply (H1 hello_utf16 1%nat); try reflexivity. discriminate.
  - split; [apply H2; reflexivity|].
    destruct (H3 [] eq_refl eq_refl eq_refl eq_refl) as (H4 & H5 & _).
    split; assumption.
Defined.

(** C10. An event of kind recognition or false recognition that carries no
    object (its parameter type is not SPET_LPARAM_IS_OBJECT, or its
    parameter is null): the loop body calls nothing for it, so no callback
    and no Release, and the loop goes on with the next [GetEvents]. *)
Theorem C10_recognition_event_without_object :
  forall (r : GetEventsReply) (rest : list GetEventsReply)
         (s : SpeechRecognition),
    eEventId (ge_event r) = SPEI_RECOGNITION
    \/ eEventId (ge_event r) = SPEI_FALSE_RECOGNITION ->
    elParamType (ge_event r) <> SPET_LPARAM_IS_OBJECT
    \/ lParam (ge_event r) = nullptr ->
    fetched_one r = true ->
    process_event r s = (tt, s, [])
    /\ drain_events (r :: rest) s
       = (tt, s, EGetEvents (context_ s) (ge_hr r) (ge_fetched r)
                 :: trace_of (drain_events rest s))
    /\ RecognitionThread_get_events r s
       = (Draining, s, [EGetEvents (context_ s) (ge_hr r) (ge_fetched r)]).
Proof.
  intros r rest s Hkind Hnone Hf.
  assert (Hobj : has_object (ge_event r) = false).
  { unfold has_object, non_null. destruct Hnone as [Hn|Hn].
    - apply Z.eqb_neq in Hn. now rewrite Hn.
    - rewrite Hn. cbn. apply andb_false_r. }
  assert (Hk : (eEventId (ge_event r) =? SPEI_RECOGNITION)
               || (eEventId (ge_event r) =? SPEI_FALSE_RECOGNITION) = true).
  { destruct Hkind as [-> | ->]; rewrite Z.eqb_refl;
      [reflexivity|apply orb_true_r]. }
  assert (Hp : process_event r s = (tt, s, [])).
  { unfold process_event. now rewrite Hk, Hobj. }
  split; [exact Hp|]. split.
  - rewrite drain_events_cons, Hf, Hp, drain_events_keeps_state. reflexivity.
  - unfold RecognitionThread_get_events. unfold_m. now rewrite Hf, Hp.
Qed.

Lemma C10_recognition_event_without_object_witness :
  (eEventId (ge_event reply_no_object) = SPEI_RECOGNITION
   \/ eEventId (ge_event reply_no_object) = SPEI_FALSE_RECOGNITION)
  /\ (elParamType (ge_event reply_no_object) <> SPET_LPARAM_IS_OBJECT
      \/ lParam (ge_event reply_no_object) = nullptr)
  /\ fetched_one reply_no_object = true
  /\ process_event reply_no_object listening_session
     = (tt, listening_session, [])
  /\ trace_of (drain_events [reply_no_object; reply_rejected]
                            listening_session)
     = [EGetEvents 8192 S_OK 1; EGetEvents 8192 S_OK 1; ERelease 24576;
        EGetEvents 8192 S_FALSE 0].
Proof.
  assert (H1 : eEventId (ge_event reply_no_object) = SPEI_RECOGNITION
               \/ eEventId (ge_event reply_no_object) = SPEI_FALSE_RECOGNITION)
    by (left; reflexivity).
  assert (H2 : elParamType (ge_event reply_no_object) <> SPET_LPARAM_IS_OBJECT
               \/ lParam (ge_event reply_no_object) = nullptr)
    by (right; reflexivity).
  split; [exact H1|]. split; [exact H2|]. split; [reflexivity|].
  destruct (C10_recognition_event_without_object reply_no_object
              [reply_rejected] listening_session H1 H2 eq_refl)
    as (Hp & Hd & _).
  split; [exact Hp|]. rewrite Hd. reflexivity.
Defined.

(** ** The two threads together *)

Lemma RecognitionThread_wait_run r s :
  RecognitionThread_wait r s
  = if should_stop_ s then (Exited, s, [])
    else (if r =? WAIT_OBJECT_0 then Draining else AtLoopHead, s,
          [EWaitForSingleObject (recognition_event_ s) 100 r]).
Proof.
  unfold RecognitionThread_wait. unfold_m.
  destruct (should_stop_ s); [reflexivity|].
  destruct (r =? WAIT_OBJECT_0); reflexivity.
Qed.

Lemma RecognitionThread_get_events_run r s :
  RecognitionThread_get_events r s
  = if fetched_one r then
      (Draining, s,
       EGetEvents (context_ s) (ge_hr r) (ge_fetched r)
       :: trace_of (process_event r s))
    else (AtLoopHead, s, [EGetEvents (context_ s) (ge_hr r) (ge_fetched r)]).
Proof.
  unfold RecognitionThread_get_events. unfold bind at 1. unfold field at 1.
  unfold bind at 1. unfold emit at 1.
  destruct (fetched_one r); [|reflexivity].
  rewrite bind_run, process_event_keeps_state.
  unfold ret. cbn. now rewrite app_nil_r.
Qed.

Lemma StopListening_signal_run hr s :
  StopListening_signal hr s
  = (tt, set_is_listening_ false (set_should_stop_ true s),
     if non_null (grammar_ s)
     then [ESetDictationState (grammar_ s) SPRS_INACTIVE hr] else []).
Proof.
  unfold_m. destruct s; cbn. destruct (non_null _); reflexivity.
Qed.

Lemma StopListening_join_run s :
  StopListening_join s
  = (tt, (if recognition_thread_ s then set_recognition_thread_ false s else s),
     (if recognition_thread_ s then [EJoin] else [])
     ++ ERead StatusSlot
        :: match status_callback_ s with
           | Some f => [EStatus f "stopped"]
           | None => []
           end).
Proof.
  unfold_m. destruct s as [? ? ? ? ? ? ? ? thr ? ? scb]; cbn.
  destruct thr, scb; reflexivity.
Qed.

Lemma StopListening_not_listening hr s :
  is_listening_ s = false -> StopListening hr s = (tt, s, []).
Proof.
  intros H. unfold StopListening. unfold_m. now rewrite H.
Qed.

Lemma StartListening_activate_cases hr s :
  let r := StartListening_activate hr s in
  (existsb is_spawn (trace_of r) = true
   /\ is_listening_ s = false
   /\ is_listening_ (state_of r) = true
   /\ recognition_thread_ (state_of r) = true
   /\ should_stop_ (state_of r) = false)
  \/ (existsb is_spawn (trace_of r) = false /\ state_of r = s).
Proof.
  unfold StartListening_activate. unfold_m. destruct s; cbn.
  split_ifs; cbn; auto 10.
Qed.

Lemma StartListening_cases env hr s :
  let r := StartListening env hr s in
  (existsb is_spawn (trace_of r) = true
   /\ is_listening_ s = false
   /\ is_listening_ (state_of r) = true
   /\ recognition_thread_ (state_of r) = true)
  \/ (existsb is_spawn (trace_of r) = false
      /\ is_listening_ (state_of r) = is_listening_ s
      /\ recognition_thread_ (state_of r) = recognition_thread_ s
      /\ should_stop_ (state_of r) = should_stop_ s).
Proof.
  cbv zeta.
  destruct (is_initialized_ s) eqn:Hi.
  - rewrite StartListening_initialized by assumption.
    destruct (StartListening_activate_cases hr s)
      as [(H1 & H2 & H3 & H4 & _) | (H1 & H2)].
    + left. auto.
    + right. rewrite H2. auto.
  - rewrite StartListening_uninitialized by assumption.
    rewrite bind_run.
    destruct (Initialize_frame env s) as (Ht & Hl & Hs & _ & _ & _ & Hsp).
    cbv zeta in *.
    destruct (result_of (Initialize env s)); cbn [negb].
    + cbn [trace_of state_of fst snd]. rewrite existsb_app, Hsp. cbn [orb].
      destruct (StartListening_activate_cases hr (state_of (Initialize env s)))
        as [(H1 & H2 & H3 & H4 & _) | (H1 & H2)].
      * left. rewrite <- Hl. auto.
      * right. cbv zeta in H2. rewrite H2. auto.
    + right. cbn. rewrite app_nil_r. auto.
Qed.

Lemma setters_frame c s :
  match c with
  | CallSetResultCallback _ | CallSetErrorCallback _
  | CallSetStatusCallback _ =>
      existsb is_spawn (trace_of (do_call c s)) = false
      /\ is_listening_ (state_of (do_call c s)) = is_listening_ s
      /\ recognition_thread_ (state_of (do_call c s)) = recognition_thread_ s
      /\ should_stop_ (state_of (do_call c s)) = should_stop_ s
  | _ => True
  end.
Proof.
  destruct c; cbn [do_call]; try exact I; unfold_m; destruct s; cbn; auto.
Qed.

Lemma control_runs_inv {A} (m : M A) w w' :
  control_runs m w = Some w' ->
  session w' = state_of (m (session w))
  /\ in_join w' = false
  /\ history w' = history w ++ tagged ControlThread (trace_of (m (session w)))
  /\ (if existsb is_spawn (trace_of (m (session w)))
      then recognition_thread_ (session w) = false /\ poller w' = AtLoopHead
      else poller w' = poller w).
Proof.
  unfold control_runs, state_of, trace_of.
  destruct (m (session w)) as [[a s'] tr]. cbn [fst snd].
  destruct (existsb is_spawn tr).
  - destruct (recognition_thread_ (session w)); [discriminate|].
    intros [= <-]. cbn. auto.
  - intros [= <-]. cbn. auto.
Qed.

Lemma effects_of_app t h1 h2 :
  effects_of t (h1 ++ h2) = effects_of t h1 ++ effects_of t h2.
Proof. unfold effects_of. apply flat_map_app. Qed.

Lemma effects_of_tagged_same t tr : effects_of t (tagged t tr) = tr.
Proof.
  induction tr as [|e tr IH]; [reflexivity|].
  cbn. destruct t; cbn; f_equal; exact IH.
Qed.

Lemma effects_of_tagged_other t t' tr :
  t <> t' -> effects_of t (tagged t' tr) = [].
Proof.
  intros Hne. induction tr as [|e tr IH]; [reflexivity|].
  cbn. destruct t, t'; try congruence; exact IH.
Qed.

(** A call other than StopListening, made outside the join. *)
Lemma step_invoke_other w c :
  (forall hr, c <> CallStopListening hr) ->
  step w (Invoke c)
  = if in_join w then None else control_runs (do_call c) w.
Proof.
  intros Hc. destruct c; try reflexivity. now destruct (Hc deactivate_hr).
Qed.

Lemma do_call_no_start c s :
  (forall env hr, c <> CallStartListening env hr) ->
  (forall hr, c <> CallStopListening hr) ->
  existsb is_spawn (trace_of (do_call c s)) = false
  /\ is_listening_ (state_of (do_call c s)) = is_listening_ s
  /\ recognition_thread_ (state_of (do_call c s)) = recognition_thread_ s
  /\ should_stop_ (state_of (do_call c s)) = should_stop_ s.
Proof.
  intros Hstart Hstop. destruct c.
  - cbn [do_call].
    destruct (Initialize_frame env s) as (Ht & Hl & Hs & _ & _ & _ & Hsp).
    auto.
  - now destruct (Hstart env activate_hr).
  - now destruct (Hstop deactivate_hr).
  - exact (setters_frame (CallSetResultCallback cb) s).
  - exact (setters_frame (CallSetErrorCallback cb) s).
  - exact (setters_frame (CallSetStatusCallback cb) s).
Qed.

Lemma step_preserves_ok w a w' :
  world_ok w -> step w a = Some w' -> world_ok w'.
Proof.
  intros [Hj Hl Hi] Hstep.
  destruct a as [c | | r | r].
  - destruct (in_join w) eqn:Hin.
    { destruct c; cbn in Hstep; rewrite Hin in Hstep; discriminate. }
    specialize (Hl eq_refl).
    destruct c as [env | env hr | hr | cb | cb | cb].
    2:{ (* StartListening *)
      rewrite step_invoke_other, Hin in Hstep by discriminate.
      apply control_runs_inv in Hstep.
      destruct Hstep as (Hs & Hin' & _ & Hp). cbn [do_call] in *.
      destruct (StartListening_cases env hr (session w))
        as [(H1 & H2 & H3 & H4) | (H1 & H2 & H3 & H4)];
        cbv zeta in *; rewrite H1 in Hp.
      - destruct Hp as [_ Hp].
        constructor; rewrite Hs, ?Hp, ?Hin'; cbn [is_running];
          try congruence.
      - constructor; rewrite Hs, ?Hp, ?Hin'; try congruence. }
    2:{ (* StopListening *)
      cbn [step] in Hstep. rewrite Hin in Hstep.
      destruct (is_listening_ (session w)) eqn:Hlis.
      - rewrite <- Hl in Hstep. cbn [andb] in Hstep.
        rewrite StopListening_signal_run in Hstep.
        injection Hstep as <-. 
        constructor; cbn; try discriminate.
        + now rewrite <- Hj, <- Hl.
        + intros _. repeat split. now rewrite <- Hl.
      - cbn [andb] in Hstep. apply control_runs_inv in Hstep.
        rewrite StopListening_not_listening in Hstep by assumption.
        cbn in Hstep. destruct Hstep as (Hs & Hin' & _ & Hp).
        constructor; rewrite Hs, ?Hp, ?Hin'; try congruence. }
    all: rewrite step_invoke_other, Hin in Hstep by discriminate;
      apply control_runs_inv in Hstep;
      destruct Hstep as (Hs & Hin' & _ & Hp);
      match type of Hs with
      | context [do_call ?c _] =>
          destruct (do_call_no_start c (session w))
            as (H1 & H2 & H3 & H4); try discriminate
      end;
      rewrite H1 in Hp;
      constructor; rewrite Hs, ?Hp, ?Hin'; try congruence.
  - (* JoinReturns *)
    cbn [step] in Hstep.
    destruct (in_join w); [|discriminate].
    destruct (Hi eq_refl) as (Hstop & Hlis & Hthr).
    destruct (poller w); try discriminate.
    rewrite StopListening_join_run, Hthr in Hstep.
    injection Hstep as <-.
    constructor; cbn; try discriminate; auto.
  - (* PollWait *)
    cbn [step] in Hstep.
    destruct (poller w) eqn:Hp; try discriminate.
    rewrite RecognitionThread_wait_run in Hstep.
    destruct (should_stop_ (session w)) eqn:Hst;
      [|destruct (r =? WAIT_OBJECT_0)];
      injection Hstep as <-; constructor; cbn in *;
      intuition (auto; congruence).
  - (* PollGetEvents *)
    cbn [step] in Hstep.
    destruct (poller w) eqn:Hp; try discriminate.
    rewrite RecognitionThread_get_events_run in Hstep.
    destruct (fetched_one r);
      injection Hstep as <-; constructor; cbn in *;
      intuition (auto; congruence).
Qed.

Lemma initial_world_ok : world_ok initial_world.
Proof. constructor; cbn; auto; discriminate. Qed.

Lemma run_preserves_ok acts : forall w w',
  world_ok w -> run w acts = Some w' -> world_ok w'.
Proof.
  induction acts as [|a acts IH]; intros w w' Hok Hrun; cbn in Hrun.
  - now injection Hrun as <-.
  - destruct (step w a) as [w1|] eqn:Hs; [|discriminate].
    eapply IH; [|exact Hrun]. eapply step_preserves_ok; eauto.
Qed.

Lemma tid_neq_cp : ControlThread <> PollingThread.
Proof. discriminate. Qed.

Lemma tid_neq_pc : PollingThread <> ControlThread.
Proof. discriminate. Qed.

Lemma RecognitionThread_wait_keeps_state r s : state_of (RecognitionThread_wait r s) = s.
Proof.
  rewrite RecognitionThread_wait_run. now destruct (should_stop_ s).
Qed.

Lemma RecognitionThread_get_events_keeps_state r s :
  state_of (RecognitionThread_get_events r s) = s.
Proof.
  rewrite RecognitionThread_get_events_run. now destruct (fetched_one r).
Qed.

Lemma RecognitionThread_wait_running r s :
  is_running (result_of (RecognitionThread_wait r s)) = true.
Proof.
  rewrite RecognitionThread_wait_run.
  destruct (should_stop_ s); [|destruct (r =? WAIT_OBJECT_0)]; reflexivity.
Qed.

Lemma RecognitionThread_get_events_running r s :
  is_running (result_of (RecognitionThread_get_events r s)) = true.
Proof.
  rewrite RecognitionThread_get_events_run. now destruct (fetched_one r).
Qed.

(** A step of the polling thread leaves the session as it is and adds its
    own effects to the history. *)
Lemma step_poll_inv w a w' :
  is_poll_action a = true ->
  step w a = Some w' ->
  exists pc tr,
    session w' = session w /\ in_join w' = in_join w /\ poller w' = pc
    /\ is_running pc = true
    /\ history w' = history w ++ tagged PollingThread tr.
Proof.
  intros Ha Hstep. destruct a as [c | | r | r]; try discriminate.
  - cbn [step] in Hstep. destruct (poller w); try discriminate.
    pose proof (RecognitionThread_wait_keeps_state r (session w)) as Hs.
    pose proof (RecognitionThread_wait_running r (session w)) as Hr.
    unfold state_of, result_of in *.
    destruct (RecognitionThread_wait r (session w)) as [[pc s'] tr]. cbn in Hs, Hr.
    injection Hstep as <-. exists pc, tr. cbn [session in_join poller history].
    auto.
  - cbn [step] in Hstep. destruct (poller w); try discriminate.
    pose proof (RecognitionThread_get_events_keeps_state r (session w)) as Hs.
    pose proof (RecognitionThread_get_events_running r (session w)) as Hr.
    unfold state_of, result_of in *.
    destruct (RecognitionThread_get_events r (session w)) as [[pc s'] tr]. cbn in Hs, Hr.
    injection Hstep as <-. exists pc, tr. cbn [session in_join poller history].
    auto.
Qed.

(** While the control thread waits in the join, only the polling thread
    moves, and the session is not written. *)
Lemma step_during_join w a w' :
  in_join w = true ->
  is_join_return a = false ->
  step w a = Some w' ->
  is_poll_action a = true
  /\ in_join w' = true
  /\ session w' = session w
  /\ effects_of ControlThread (history w')
     = effects_of ControlThread (history w).
Proof.
  intros Hin Ha Hstep.
  assert (Hp : is_poll_action a = true).
  { destruct a as [c | | r | r]; try reflexivity; [|discriminate].
    destruct c; cbn in Hstep; rewrite Hin in Hstep; discriminate. }
  destruct (step_poll_inv w a w' Hp Hstep)
    as (pc & tr & Hs & Hin' & _ & _ & Hh).
  rewrite Hh, effects_of_app, (effects_of_tagged_other _ _ _ tid_neq_cp),
    app_nil_r.
  repeat split; auto; congruence.
Qed.

Lemma run_during_join acts : forall w w',
  in_join w = true ->
  existsb is_join_return acts = false ->
  run w acts = Some w' ->
  forallb is_poll_action acts = true
  /\ in_join w' = true
  /\ session w' = session w
  /\ effects_of ControlThread (history w')
     = effects_of ControlThread (history w).
Proof.
  induction acts as [|a acts IH]; intros w w' Hin Hno Hrun; cbn in *.
  - injection Hrun as <-. auto.
  - apply orb_false_iff in Hno as [Ha Hno].
    destruct (step w a) as [w1|] eqn:Hs; [|discriminate].
    destruct (step_during_join w a w1 Hin Ha Hs) as (Hp & Hin1 & Hs1 & He1).
    destruct (IH w1 w' Hin1 Hno Hrun) as (Hp' & Hin' & Hs' & He').
    rewrite Hp, Hp'. repeat split; auto; congruence.
Qed.

(** With no polling thread and no new start, none appears. *)
Lemma step_without_thread w a w' :
  world_ok w ->
  poller w = NotRunning ->
  is_start a = false ->
  step w a = Some w' ->
  poller w' = NotRunning
  /\ effects_of PollingThread (history w')
     = effects_of PollingThread (history w).
Proof.
  intros [Hj Hl Hi] Hp Ha Hstep.
  rewrite Hp in Hj. cbn in Hj.
  destruct (in_join w) eqn:Hin.
  { destruct (Hi eq_refl) as (_ & _ & Ht). congruence. }
  specialize (Hl eq_refl).
  destruct a as [c | | r | r].
  - destruct c as [env | env hr | hr | cb | cb | cb]; [| discriminate | | | |].
    2:{ cbn [step] in Hstep. rewrite Hin in Hstep.
        rewrite Hl, Hj in Hstep. cbn [andb] in Hstep.
        apply control_runs_inv in Hstep.
        rewrite StopListening_not_listening in Hstep by congruence.
        cbn in Hstep. destruct Hstep as (_ & _ & Hh & Hp').
        rewrite Hh, Hp', app_nil_r. auto. }
    all: rewrite step_invoke_other, Hin in Hstep by discriminate;
      apply control_runs_inv in Hstep;
      destruct Hstep as (Hs & _ & Hh & Hp');
      match type of Hs with
      | context [do_call ?c _] =>
          destruct (do_call_no_start c (session w))
            as (H1 & _); try discriminate
      end;
      rewrite H1 in Hp';
      rewrite Hh, Hp', effects_of_app,
        (effects_of_tagged_other _ _ _ tid_neq_pc), app_nil_r; auto.
  - cbn [step] in Hstep. rewrite Hin in Hstep. discriminate.
  - cbn [step] in Hstep. rewrite Hp in Hstep. discriminate.
  - cbn [step] in Hstep. rewrite Hp in Hstep. discriminate.
Qed.

Lemma run_without_thread acts : forall w w',
  world_ok w ->
  poller w = NotRunning ->
  existsb is_start acts = false ->
  run w acts = Some w' ->
  poller w' = NotRunning
  /\ effects_of PollingThread (history w')
     = effects_of PollingThread (history w).
Proof.
  induction acts as [|a acts IH]; intros w w' Hok Hp Hno Hrun; cbn in *.
  - injection Hrun as <-. auto.
  - apply orb_false_iff in Hno as [Ha Hno].
    destruct (step w a) as [w1|] eqn:Hs; [|discriminate].
    destruct (step_without_thread w a w1 Hok Hp Ha Hs) as (Hp1 & He1).
    pose proof (step_preserves_ok w a w1 Hok Hs) as Hok1.
    destruct (IH w1 w' Hok1 Hp1 Hno Hrun) as (Hp' & He').
    split; congruence.
Qed.

(** Once the stop flag is up the polling thread leaves its loop: at the
    next test if it is at the loop head, after the queue is found empty if
    it is draining. *)
Lemma polling_thread_exits w :
  world_ok w ->
  in_join w = true ->
  exists acts w',
    run w acts = Some w'
    /\ existsb is_join_return acts = false
    /\ poller w' = Exited
    /\ exists w'', step w' JoinReturns = Some w''.
Proof.
  intros [Hj Hl Hi] Hin.
  destruct (Hi Hin) as (Hstop & Hlis & Hthr).
  assert (Hjoin : forall w', in_join w' = true -> poller w' = Exited ->
                             exists w'', step w' JoinReturns = Some w'').
  { intros w' H1 H2. cbn [step]. rewrite H1, H2.
    destruct (StopListening_join (session w')) as [[u s'] tr]. eauto. }
  destruct (poller w) eqn:Hp.
  - rewrite Hthr in Hj. discriminate.
  - exists [PollWait WAIT_TIMEOUT]. eexists.
    cbn [run step]. rewrite Hp, RecognitionThread_wait_run, Hstop.
    split; [reflexivity|]. split; [reflexivity|]. split; [reflexivity|].
    apply Hjoin; [exact Hin|reflexivity].
  - exists [PollGetEvents reply_queue_empty; PollWait WAIT_TIMEOUT]. eexists.
    cbn [run step]. rewrite Hp, RecognitionThread_get_events_run.
    cbn [fetched_one reply_queue_empty ge_hr ge_fetched andb].
    change (fetched_one reply_queue_empty) with false. cbn iota.
    cbn [poller session in_join]. rewrite RecognitionThread_wait_run, Hstop.
    split; [reflexivity|]. split; [reflexivity|]. split; [reflexivity|].
    apply Hjoin; [exact Hin|reflexivity].
  - exists []. exists w. cbn [run].
    split; [reflexivity|]. split; [reflexivity|]. split; [exact Hp|].
    apply Hjoin; assumption.
Qed.

Lemma tagged_app t tr1 tr2 : tagged t (tr1 ++ tr2) = tagged t tr1 ++ tagged t tr2.
Proof. unfold tagged. apply map_app. Qed.

(** The steps of the polling thread in the inner loop are the loop
    [drain_events]: fed the replies up to and including the first one that
    delivers no event, they leave the thread at the loop head, having made
    the calls of [drain_events]. *)
Lemma run_inner_loop fetched : forall w last,
  poller w = Draining ->
  forallb fetched_one fetched = true ->
  fetched_one last = false ->
  exists w',
    run w (map PollGetEvents (fetched ++ [last])) = Some w'
    /\ poller w' = AtLoopHead
    /\ session w' = session w
    /\ in_join w' = in_join w
    /\ history w'
       = history w
         ++ tagged PollingThread
              (trace_of (drain_events (fetched ++ [last]) (session w))).
Proof.
  induction fetched as [|r rest IH]; intros w last Hp Hall Hlast.
  - cbn [app map run step]. rewrite Hp, RecognitionThread_get_events_run, Hlast.
    eexists. split; [reflexivity|]. cbn [poller session in_join history].
    rewrite drain_events_cons, Hlast. auto.
  - cbn [forallb] in Hall. apply andb_prop in Hall as [Hr Hall].
    cbn [app map run step].
    rewrite Hp, RecognitionThread_get_events_run, Hr.
    set (w1 := mkWorld _ _ _ _).
    destruct (IH w1 last eq_refl Hall Hlast) as (w' & Hrun & Hp' & Hs & Hj & Hh).
    exists w'. split; [exact Hrun|].
    rewrite Hh. subst w1. cbn [poller session in_join history] in *.
    rewrite drain_events_cons, Hr, drain_events_keeps_state.
    cbn [trace_of snd].
    change (EGetEvents (context_ (session w)) (ge_hr r) (ge_fetched r)
            :: trace_of (process_event r (session w))
               ++ trace_of (drain_events (rest ++ [last]) (session w)))
      with ((EGetEvents (context_ (session w)) (ge_hr r) (ge_fetched r)
             :: trace_of (process_event r (session w)))
            ++ trace_of (drain_events (rest ++ [last]) (session w))).
    rewrite tagged_app, app_assoc. auto.
Qed.

Lemma step_stop_while_listening w hr w1 :
  world_ok w ->
  is_listening_ (session w) = true ->
  step w (Invoke (CallStopListening hr)) = Some w1 ->
  in_join w1 = true
  /\ poller w1 = poller w
  /\ should_stop_ (session w1) = true
  /\ is_listening_ (session w1) = false
  /\ effects_of PollingThread (history w1)
     = effects_of PollingThread (history w).
Proof.
  intros [Hj Hl Hi] Hlis Hstep. cbn [step] in Hstep.
  destruct (in_join w) eqn:Hin; [discriminate|].
  rewrite <- (Hl eq_refl), Hlis in Hstep. cbn [andb] in Hstep.
  rewrite StopListening_signal_run in Hstep. injection Hstep as <-.
  cbn [in_join poller session history].
  rewrite effects_of_app, (effects_of_tagged_other _ _ _ tid_neq_pc),
    app_nil_r.
  destruct (session w); cbn; auto.
Qed.

Lemma step_join_returns w w' :
  world_ok w ->
  step w JoinReturns = Some w' ->
  in_join w = true
  /\ poller w = Exited
  /\ poller w' = NotRunning
  /\ in_join w' = false
  /\ recognition_thread_ (session w') = false
  /\ history w'
     = history w
       ++ tagged ControlThread
            (EJoin :: ERead StatusSlot
               :: match status_callback_ (session w) with
                  | Some f => [EStatus f "stopped"]
                  | None => []
                  end)
  /\ effects_of PollingThread (history w')
     = effects_of PollingThread (history w).
Proof.
  intros [Hj Hl Hi] Hstep. cbn [step] in Hstep.
  destruct (in_join w) eqn:Hin; [|discriminate].
  destruct (Hi eq_refl) as (_ & _ & Hthr).
  destruct (poller w) eqn:Hp; try discriminate.
  rewrite StopListening_join_run, Hthr in Hstep.
  remember (tagged ControlThread _) as tg eqn:Htg in Hstep.
  injection Hstep as <-.
  cbn [in_join poller session history].
  rewrite effects_of_app. subst tg.
  rewrite (effects_of_tagged_other _ _ _ tid_neq_pc), app_nil_r.
  destruct (session w); cbn; auto 10.
Qed.

(** C1. StopListening called while the session is listening, in any
    execution of the two threads.  The call raises the stop flag and then
    waits in the join: until the join returns, the control thread makes no
    call, and the join returns only once the polling thread has left its
    loop, which it can always do.  When StopListening has returned there is
    no polling thread any more, and as long as StartListening is not called
    again the polling thread adds nothing to the history: no callback, and
    no other call either. *)
Theorem C1_StopListening_joins_polling_thread :
  forall (before during after : list Action) (hr : HRESULT)
         (w w1 w2 w3 w4 : World),
    run initial_world before = Some w ->
    is_listening_ (session w) = true ->
    step w (Invoke (CallStopListening hr)) = Some w1 ->
    run w1 during = Some w2 ->
    existsb is_join_return during = false ->
    step w2 JoinReturns = Some w3 ->
    run w3 after = Some w4 ->
    existsb is_start after = false ->
    (in_join w1 = true
     /\ forallb is_poll_action during = true
     /\ effects_of ControlThread (history w2)
        = effects_of ControlThread (history w1))
    /\ (poller w2 = Exited
        /\ exists rest,
            effects_of ControlThread (history w3)
            = effects_of ControlThread (history w2) ++ EJoin :: rest)
    /\ (poller w3 = NotRunning
        /\ recognition_thread_ (session w3) = false
        /\ poller w4 = NotRunning
        /\ effects_of PollingThread (history w4)
           = effects_of PollingThread (history w3)
        /\ invocations (effects_of PollingThread (history w4))
           = invocations (effects_of PollingThread (history w2)))
    /\ (exists acts v v',
           run w1 acts = Some v
           /\ existsb is_join_return acts = false
           /\ step v JoinReturns = Some v').
Proof.
  intros before during after hr w w1 w2 w3 w4
         Hbefore Hlis Hstop Hduring Hnojoin Hjoin Hafter Hnostart.
  pose proof (run_preserves_ok _ _ _ initial_world_ok Hbefore) as Hok.
  pose proof (step_preserves_ok _ _ _ Hok Hstop) as Hok1.
  pose proof (run_preserves_ok _ _ _ Hok1 Hduring) as Hok2.
  pose proof (step_preserves_ok _ _ _ Hok2 Hjoin) as Hok3.
  destruct (step_stop_while_listening _ _ _ Hok Hlis Hstop)
    as (Hin1 & _ & _ & _ & _).
  destruct (run_during_join _ _ _ Hin1 Hnojoin Hduring)
    as (Hpoll & Hin2 & _ & Hctl).
  destruct (step_join_returns _ _ Hok2 Hjoin)
    as (_ & Hp2 & Hp3 & _ & Hthr3 & Hh3 & He3).
  destruct (run_without_thread _ _ _ Hok3 Hp3 Hnostart Hafter)
    as (Hp4 & He4).
  split; [auto|]. split; [|split].
  - split; [exact Hp2|].
    rewrite Hh3, effects_of_app, effects_of_tagged_same. eauto.
  - repeat split; auto. now rewrite He4, He3.
  - destruct (polling_thread_exits w1 Hok1 Hin1)
      as (acts & v & Hrun & Hno & _ & v' & Hv).
    exists acts, v, v'. auto.
Qed.

Lemma C1_StopListening_joins_polling_thread_witness :
  run initial_world sample_before_stop = Some sample_w
  /\ is_listening_ (session sample_w) = true
  /\ step sample_w (Invoke (CallStopListening S_OK)) = Some sample_w1
  /\ run sample_w1 sample_during_join = Some sample_w2
  /\ existsb is_join_return sample_during_join = false
  /\ step sample_w2 JoinReturns = Some sample_w3
  /\ run sample_w3 sample_after_stop = Some sample_w4
  /\ existsb is_start sample_after_stop = false
  /\ poller sample_w2 = Exited
  /\ poller sample_w4 = NotRunning
  /\ effects_of PollingThread (history sample_w4)
     = effects_of PollingThread (history sample_w3).
Proof.
  assert (H1 : run initial_world sample_before_stop = Some sample_w)
    by (vm_compute; reflexivity).
  assert (H2 : is_listening_ (session sample_w) = true) by (vm_compute; reflexivity).
  assert (H3 : step sample_w (Invoke (CallStopListening S_OK))
               = Some sample_w1) by (vm_compute; reflexivity).
  assert (H4 : run sample_w1 sample_during_join = Some sample_w2)
    by (vm_compute; reflexivity).
  assert (H5 : existsb is_join_return sample_during_join = false)
    by (vm_compute; reflexivity).
  assert (H6 : step sample_w2 JoinReturns = Some sample_w3) by (vm_compute; reflexivity).
  assert (H7 : run sample_w3 sample_after_stop = Some sample_w4)
    by (vm_compute; reflexivity).
  assert (H8 : existsb is_start sample_after_stop = false) by (vm_compute; reflexivity).
  destruct (C1_StopListening_joins_polling_thread
              sample_before_stop sample_during_join sample_after_stop S_OK
              sample_w sample_w1 sample_w2 sample_w3 sample_w4
              H1 H2 H3 H4 H5 H6 H7 H8)
    as (_ & (Hp2 & _) & (_ & _ & Hp4 & He & _) & _).
  split; [exact H1|]. split; [exact H2|]. split; [exact H3|].
  split; [exact H4|]. split; [exact H5|]. split; [exact H6|].
  split; [exact H7|]. split; [exact H8|]. split; [exact Hp2|].
  split; [exact Hp4|exact He].
Defined.

Example sample_history_polling_thread :
  effects_of PollingThread (history sample_w4)
  = [EWaitForSingleObject 64 100 WAIT_TIMEOUT;
     EWaitForSingleObject 64 100 WAIT_OBJECT_0;
     EGetEvents 8192 S_OK 1; EGetText 20480 S_OK; ELock; ERead ResultSlot;
     EResult 1%nat hello_utf8 true; ECoTaskMemFree; EUnlock; ERelease 20480;
     EGetEvents 8192 S_OK 1; ERelease 24576;
     EGetEvents 8192 S_FALSE 0].
Proof. vm_compute. reflexivity. Qed.

(** ** The callback mutex *)

Lemma setters_hold_the_lock cb s :
  unlocked_accesses false (trace_of (SetResultCallback cb s)) = []
  /\ unlocked_accesses false (trace_of (SetErrorCallback cb s)) = []
  /\ unlocked_accesses false (trace_of (SetStatusCallback cb s)) = [].
Proof. repeat split. Qed.

Lemma process_event_holds_the_lock r s :
  unlocked_accesses false (trace_of (process_event r s)) = [].
Proof.
  unfold_poll. split_ifs; reflexivity.
Qed.

Lemma polling_thread_holds_the_lock r q s :
  unlocked_accesses false (trace_of (RecognitionThread_wait r s)) = []
  /\ unlocked_accesses false (trace_of (RecognitionThread_get_events q s)) = [].
Proof.
  split.
  - rewrite RecognitionThread_wait_run. now destruct (should_stop_ s).
  - rewrite RecognitionThread_get_events_run. destruct (fetched_one q); [|reflexivity].
    cbn [trace_of snd unlocked_accesses is_access andb].
    apply process_event_holds_the_lock.
Qed.

Lemma Initialize_takes_no_lock env s :
  existsb is_lock (trace_of (Initialize env s)) = false
  /\ (is_initialized_ s = false ->
      unlocked_accesses false (trace_of (Initialize env s)) <> []).
Proof.
  unfold Initialize. unfold_m. destruct s.
  split_ifs; cbn; split; try reflexivity; intros; discriminate.
Qed.

Lemma StopListening_takes_no_lock hr s :
  existsb is_lock (trace_of (StopListening hr s)) = false
  /\ (is_listening_ s = true ->
      unlocked_accesses false (trace_of (StopListening hr s)) <> []).
Proof.
  unfold StopListening. unfold_m.
  destruct s as [? ? ? ? ? lis ? ? ? ? ? ?]. destruct lis.
  - split_ifs; cbn; split; try reflexivity; intros; discriminate.
  - cbn. split; [reflexivity|discriminate].
Qed.

(** C2, as the code has it.  The setters and the polling thread touch the
    callback fields with [callback_mutex_] held.  Initialize and
    StopListening never take the mutex, and they read and call
    [error_callback_] and [status_callback_]: an Initialize that has work to
    do, and a StopListening that stops a listening session, each access a
    callback field with the mutex not held.  So it is for Initialize on a
    new session whose CoInitializeEx fails. *)
Theorem C2_control_thread_reads_callbacks_unlocked :
  unlocked_accesses false
    (trace_of (Initialize (env_failing_at StepComRuntime)
                          (with_callbacks new_session)))
  = [ERead ErrorSlot; EError 2%nat msg_com_init]
  /\ (forall env s,
         existsb is_lock (trace_of (Initialize env s)) = false
         /\ (is_initialized_ s = false ->
             unlocked_accesses false (trace_of (Initialize env s)) <> []))
  /\ (forall hr s,
         existsb is_lock (trace_of (StopListening hr s)) = false
         /\ (is_listening_ s = true ->
             unlocked_accesses false (trace_of (StopListening hr s)) <> []))
  /\ (forall cb s,
         unlocked_accesses false (trace_of (SetResultCallback cb s)) = []
         /\ unlocked_accesses false (trace_of (SetErrorCallback cb s)) = []
         /\ unlocked_accesses false (trace_of (SetStatusCallback cb s)) = [])
  /\ (forall r q s,
         unlocked_accesses false (trace_of (RecognitionThread_wait r s)) = []
         /\ unlocked_accesses false (trace_of (RecognitionThread_get_events q s)) = []).
Proof.
  split; [reflexivity|].
  split; [exact Initialize_takes_no_lock|].
  split; [exact StopListening_takes_no_lock|].
  split; [exact setters_hold_the_lock|exact polling_thread_holds_the_lock].
Qed.

(** ** Resources over a whole lifetime *)

Lemma Initialize_false_fails env s :
  is_initialized_ s = false ->
  result_of (Initialize env s) = false ->
  exists k, fails_at env k = true.
Proof.
  intros Hi Hr.
  destruct (step_fails env StepComRuntime) eqn:H1;
    [exists StepComRuntime; unfold fails_at; now rewrite H1|].
  destruct (step_fails env StepRecognizer) eqn:H2;
    [exists StepRecognizer; unfold fails_at; cbn [steps_before forallb];
     now rewrite H1, H2|].
  destruct (step_fails env StepContext) eqn:H3;
    [exists StepContext; unfold fails_at; cbn [steps_before forallb];
     now rewrite H1, H2, H3|].
  destruct (step_fails env StepInterest) eqn:H4;
    [exists StepInterest; unfold fails_at; cbn [steps_before forallb];
     now rewrite H1, H2, H3, H4|].
  destruct (step_fails env StepGrammar) eqn:H5;
    [exists StepGrammar; unfold fails_at; cbn [steps_before forallb];
     now rewrite H1, H2, H3, H4, H5|].
  destruct (step_fails env StepDictation) eqn:H6;
    [exists StepDictation; unfold fails_at; cbn [steps_before forallb];
     now rewrite H1, H2, H3, H4, H5, H6|].
  exfalso. revert Hr. cbn [step_fails] in *.
  unfold Initialize. unfold_m. rewrite Hi, H1, H2, H3, H4, H5, H6.
  cbn. destruct (status_callback_ _); cbn; discriminate.
Qed.

Lemma held_nothing s : nothing_held s -> held s = [].
Proof.
  intros (Hr & Hc & Hg & _ & Hcom).
  unfold held, held_objects, held_runtime. now rewrite Hr, Hc, Hg, Hcom.
Qed.

Lemma Uninitialized_nothing_held s : Uninitialized s -> nothing_held s.
Proof. intros (_ & _ & Hr & Hc & Hg & He & Hcom). repeat split; auto. Qed.

(** Initialize from Uninitialized: what it acquired is what was released
    together with what the session now holds. *)
Lemma Initialize_balanced env s :
  Uninitialized s ->
  com_contract env = true ->
  Permutation (acquired (trace_of (Initialize env s)))
              (released (trace_of (Initialize env s))
               ++ held (state_of (Initialize env s)))
  /\ uninitialized_holds_nothing (state_of (Initialize env s)).
Proof.
  intros Hs Hc.
  destruct (result_of (Initialize env s)) eqn:Hr.
  - destruct (Initialize_true_holds env s Hs Hc Hr)
      as (Hacq & Hrel & _ & _ & _ & _ & _ & _ & _ & Hi).
    split.
    + rewrite Hacq, Hrel. cbn [app]. unfold held.
      apply Permutation_sym, Permutation_rev.
    + intros H. congruence.
  - destruct Hs as (Hi & Hrest).
    destruct (Initialize_false_fails env s Hi Hr) as [k Hk].
    destruct (Initialize_fails_at env s k (conj Hi Hrest) Hc Hk)
      as (_ & Hacq & Hrel & Hu & _).
    split.
    + rewrite Hacq, Hrel,
        (held_nothing _ (Uninitialized_nothing_held _ Hu)), app_nil_r.
      apply Permutation_rev.
    + intros _. exact Hu.
Qed.

Lemma StartListening_activate_run hr s :
  StartListening_activate hr s
  = if is_listening_ s then (true, s, [])
    else if FAILED hr then
      (false, s,
       ESetDictationState (grammar_ s) SPRS_ACTIVE hr :: ERead ErrorSlot
       :: match error_callback_ s with
          | Some f => [EError f msg_activate]
          | None => []
          end)
    else
      (true,
       set_recognition_thread_ true
         (set_should_stop_ false (set_is_listening_ true s)),
       ESetDictationState (grammar_ s) SPRS_ACTIVE hr :: ESpawn
       :: ERead StatusSlot
       :: match status_callback_ s with
          | Some f => [EStatus f "listening"]
          | None => []
          end).
Proof.
  unfold StartListening_activate. unfold_m.
  destruct s as [? ? ? ? ? lis ? ? ? ? ecb scb]; cbn.
  destruct lis; [reflexivity|]. destruct (FAILED hr).
  - destruct ecb; reflexivity.
  - destruct scb; reflexivity.
Qed.

Lemma StartListening_activate_holds hr s :
  let r := StartListening_activate hr s in
  held (state_of r) = held s
  /\ is_initialized_ (state_of r) = is_initialized_ s
  /\ acquired (trace_of r) = []
  /\ released (trace_of r) = [].
Proof.
  cbv zeta. rewrite StartListening_activate_run.
  destruct (is_listening_ s); [cbn; auto|].
  destruct (FAILED hr).
  - destruct (error_callback_ s); cbn; auto.
  - destruct s as [? ? ? ? ? ? ? ? ? ? ? scb]; destruct scb; cbn; auto.
Qed.

Lemma setters_hold c s :
  match c with
  | CallSetResultCallback _ | CallSetErrorCallback _
  | CallSetStatusCallback _ =>
      same_but_callbacks s (state_of (do_call c s))
      /\ acquired (trace_of (do_call c s)) = []
      /\ released (trace_of (do_call c s)) = []
  | _ => True
  end.
Proof.
  destruct c; cbn [do_call]; try exact I; unfold_m; destruct s; cbn;
    unfold same_but_callbacks; cbn; auto 15.
Qed.

Lemma same_but_callbacks_held s s' :
  same_but_callbacks s s' ->
  held s' = held s
  /\ (uninitialized_holds_nothing s -> uninitialized_holds_nothing s').
Proof.
  intros (Hr & Hc & Hg & He & Hi & Hl & _ & Hcom & _). split.
  - unfold held, held_objects, held_runtime. now rewrite Hr, Hc, Hg, Hcom.
  - unfold uninitialized_holds_nothing, Uninitialized.
    rewrite Hr, Hc, Hg, He, Hi, Hl, Hcom. auto.
Qed.

(** One call: what was held and what is acquired is what is released and
    what is held afterwards. *)
Lemma do_call_balanced c s :
  uninitialized_holds_nothing s ->
  call_contract c = true ->
  Permutation (held s ++ acquired (trace_of (do_call c s)))
              (released (trace_of (do_call c s)) ++ held (state_of (do_call c s)))
  /\ uninitialized_holds_nothing (state_of (do_call c s)).
Proof.
  intros Hj Hc. destruct c as [env | env hr | hr | cb | cb | cb];
    cbn [do_call call_contract] in *.
  - destruct (is_initialized_ s) eqn:Hi.
    + rewrite Initialize_when_initialized by assumption.
      cbn. rewrite app_nil_r. auto.
    + specialize (Hj Hi).
      rewrite (held_nothing _ (Uninitialized_nothing_held _ Hj)).
      now apply Initialize_balanced.
  - destruct (is_initialized_ s) eqn:Hi.
    + rewrite StartListening_initialized by assumption.
      destruct (StartListening_activate_holds hr s) as (Hh & Hi' & Ha & Hr).
      cbv zeta in *. rewrite Hh, Ha, Hr, app_nil_r. split; [reflexivity|].
      intros H. congruence.
    + specialize (Hj Hi).
      rewrite StartListening_uninitialized, bind_run by assumption.
      cbn [trace_of state_of fst snd].
      destruct (Initialize_balanced env s Hj Hc) as (Hp & Hj').
      rewrite (held_nothing _ (Uninitialized_nothing_held _ Hj)).
      destruct (result_of (Initialize env s)) eqn:Hres; cbn [negb].
      * pose proof (Initialize_true_initialized env s Hres) as Hinit.
        destruct (StartListening_activate_holds hr
                    (state_of (Initialize env s))) as (Hh & Hi' & Ha & Hr).
        cbv zeta in *.
        rewrite acquired_app, released_app, Hh, Ha, Hr, !app_nil_r.
        split; [exact Hp|].
        intros H. congruence.
      * cbn. rewrite !app_nil_r. auto.
  - destruct (StopListening_keeps_handles hr s)
      as (Hr & Hx & Hg & Hcom & Hi & Hrel & Hacq & _).
    rewrite bind_run. cbn [trace_of state_of fst snd ret].
    rewrite !app_nil_r, Hrel, Hacq, app_nil_r. cbn [app].
    split.
    + unfold held, held_objects, held_runtime. now rewrite Hr, Hx, Hg, Hcom.
    + intros H. rewrite Hi in H. specialize (Hj H).
      destruct Hj as (H1 & H2 & Hrest).
      now rewrite StopListening_not_listening.
  - destruct (setters_hold (CallSetResultCallback cb) s) as (Hs & Ha & Hr).
    destruct (same_but_callbacks_held _ _ Hs) as (Hh & Hj').
    cbn [do_call] in *. rewrite Hh, Ha, Hr, app_nil_r. auto.
  - destruct (setters_hold (CallSetErrorCallback cb) s) as (Hs & Ha & Hr).
    destruct (same_but_callbacks_held _ _ Hs) as (Hh & Hj').
    cbn [do_call] in *. rewrite Hh, Ha, Hr, app_nil_r. auto.
  - destruct (setters_hold (CallSetStatusCallback cb) s) as (Hs & Ha & Hr).
    destruct (same_but_callbacks_held _ _ Hs) as (Hh & Hj').
    cbn [do_call] in *. rewrite Hh, Ha, Hr, app_nil_r. auto.
Qed.

Lemma do_calls_run c cs s :
  do_calls (c :: cs) s
  = (tt, state_of (do_calls cs (state_of (do_call c s))),
     trace_of (do_call c s) ++ trace_of (do_calls cs (state_of (do_call c s)))).
Proof.
  cbn [do_calls]. rewrite bind_run. unfold result_of.
  destruct (do_calls cs _) as [[[] s2] t2]. reflexivity.
Qed.

Lemma do_calls_balanced cs : forall s,
  uninitialized_holds_nothing s ->
  forallb call_contract cs = true ->
  Permutation (held s ++ acquired (trace_of (do_calls cs s)))
              (released (trace_of (do_calls cs s))
               ++ held (state_of (do_calls cs s)))
  /\ uninitialized_holds_nothing (state_of (do_calls cs s)).
Proof.
  induction cs as [|c cs IH]; intros s Hj Hc.
  - cbn. rewrite app_nil_r. auto.
  - cbn [forallb] in Hc. apply andb_prop in Hc as [Hc Hcs].
    destruct (do_call_balanced c s Hj Hc) as (Hp1 & Hj1).
    destruct (IH _ Hj1 Hcs) as (Hp2 & Hj2).
    rewrite do_calls_run. cbn [trace_of state_of fst snd].
    split; [|exact Hj2].
    rewrite acquired_app, released_app.
    apply perm_trans
      with ((released (trace_of (do_call c s))
             ++ held (state_of (do_call c s)))
            ++ acquired (trace_of (do_calls cs (state_of (do_call c s))))).
    + rewrite app_assoc. apply Permutation_app_tail. exact Hp1.
    + rewrite <- !app_assoc. apply Permutation_app_head. exact Hp2.
Qed.

Lemma Cleanup_acquires_nothing s : acquired (trace_of (Cleanup s)) = [].
Proof. unfold_m. destruct s. split_ifs; reflexivity. Qed.

Lemma destructor_balanced hr s :
  acquired (trace_of (destructor hr s)) = []
  /\ released (trace_of (destructor hr s)) = held s
  /\ nothing_held (state_of (destructor hr s)).
Proof.
  rewrite destructor_run. cbn [trace_of state_of fst snd].
  destruct (StopListening_keeps_handles hr s)
    as (_ & _ & _ & _ & _ & Hrel & Hacq & _).
  destruct (held_after_StopListening hr s) as [Ho Hrt].
  destruct (Cleanup_releases (state_of (StopListening hr s)))
    as (Hrel' & _ & Hnone).
  rewrite acquired_app, released_app, Hacq, Hrel, Hrel',
    Cleanup_acquires_nothing, Ho, Hrt.
  auto.
Qed.

Lemma lifetime_run cs hr s :
  lifetime cs hr s
  = (tt, state_of (destructor hr (state_of (do_calls cs s))),
     trace_of (do_calls cs s)
     ++ trace_of (destructor hr (state_of (do_calls cs s)))).
Proof.
  unfold lifetime. rewrite bind_run. unfold result_of.
  destruct (destructor hr _) as [[[] s2] t2]. reflexivity.
Qed.

Lemma new_session_holds_nothing : uninitialized_holds_nothing new_session.
Proof. intros _. repeat split. Qed.

(** Over a lifetime everything acquired is released, once. *)
Lemma lifetime_balanced cs hr :
  forallb call_contract cs = true ->
  Permutation (acquired (trace_of (lifetime cs hr new_session)))
              (released (trace_of (lifetime cs hr new_session)))
  /\ nothing_held (state_of (lifetime cs hr new_session)).
Proof.
  intros Hc. rewrite lifetime_run. cbn [trace_of state_of fst snd].
  destruct (do_calls_balanced cs new_session new_session_holds_nothing Hc)
    as (Hp & _).
  destruct (destructor_balanced hr (state_of (do_calls cs new_session)))
    as (Ha & Hr & Hn).
  split; [|exact Hn].
  rewrite acquired_app, released_app, Ha, Hr, app_nil_r. exact Hp.
Qed.

Lemma count_runtime_perm l l' :
  Permutation l l' -> count_runtime l = count_runtime l'.
Proof.
  unfold count_runtime. intros H.
  induction H as [|x l l' _ IH|x y l|l l' l'' _ IH1 _ IH2]; cbn.
  - reflexivity.
  - destruct (is_runtime x); cbn; congruence.
  - destruct (is_runtime x), (is_runtime y); reflexivity.
  - congruence.
Qed.

Lemma count_runtime_released t :
  count_runtime (released t) = co_uninitialize_count t.
Proof.
  unfold count_runtime, co_uninitialize_count.
  induction t as [|e t IH]; [reflexivity|].
  destruct e; cbn; auto.
Qed.

Lemma count_runtime_acquired t :
  count_runtime (acquired t) = co_initialize_count t.
Proof.
  unfold count_runtime, co_initialize_count.
  induction t as [|e t IH]; [reflexivity|].
  destruct e; cbn; auto; destruct (SUCCEEDED hr); cbn; auto.
Qed.

Lemma Initialize_never_closes env s :
  existsb is_close_handle (trace_of (Initialize env s)) = false.
Proof.
  unfold Initialize. unfold_m. destruct s. split_ifs; reflexivity.
Qed.

Lemma do_call_never_closes c s :
  existsb is_close_handle (trace_of (do_call c s)) = false.
Proof.
  destruct c as [env | env hr | hr | cb | cb | cb]; cbn [do_call].
  - apply Initialize_never_closes.
  - destruct (is_initialized_ s) eqn:Hi.
    + rewrite StartListening_initialized, StartListening_activate_run
        by assumption.
      destruct (is_listening_ s); [reflexivity|].
      destruct (FAILED hr);
        [destruct (error_callback_ s)|destruct (status_callback_ s)];
        reflexivity.
    + rewrite StartListening_uninitialized, bind_run by assumption.
      cbn [trace_of snd]. rewrite existsb_app, Initialize_never_closes.
      destruct (result_of (Initialize env s)); [|reflexivity].
      cbn [negb orb]. rewrite StartListening_activate_run.
      destruct (is_listening_ _); [reflexivity|].
      destruct (FAILED hr);
        [destruct (error_callback_ _)|destruct (status_callback_ _)];
        reflexivity.
  - rewrite bind_run. cbn [trace_of snd ret]. rewrite app_nil_r.
    apply StopListening_keeps_handles.
  - reflexivity.
  - reflexivity.
  - reflexivity.
Qed.

Lemma do_calls_never_close cs : forall s,
  existsb is_close_handle (trace_of (do_calls cs s)) = false.
Proof.
  induction cs as [|c cs IH]; intros s; [reflexivity|].
  rewrite do_calls_run. cbn [trace_of snd].
  now rewrite existsb_app, do_call_never_closes, IH.
Qed.
(** C9 does not hold as stated: with CoInitializeEx answering
    RPC_E_CHANGED_MODE, Initialize succeeds, and the teardown that follows
    calls CoUninitialize not once but never. *)
Lemma C9_counterexample :
  result_of (Initialize env_changed_mode new_session) = true
  /\ com_contract env_changed_mode = true
  /\ co_uninitialize_count
       (trace_of (destructor S_OK
                    (state_of (Initialize env_changed_mode new_session))))
     = 0%nat
  /\ co_uninitialize_count
       (trace_of (destructor S_OK
                    (state_of (Initialize env_changed_mode new_session))))
     <> 1%nat.
Proof.
  repeat split; try reflexivity. vm_compute. discriminate.
Qed.

(** C9, amended. Teardown, that is Cleanup (the path of a failed Initialize)
    and the destructor alike, from any state: Release is called on the
    grammar, then the context, then the recognizer (each when non-null),
    CloseHandle is never called and the event handle is forgotten, and
    CoUninitialize is called once when [com_initialized_] is set and not at
    all otherwise.  After an Initialize that succeeded, the destructor gives
    back what that Initialize acquired in the reverse order, and it calls
    CoUninitialize once when CoInitializeEx had succeeded and never when it
    had answered RPC_E_CHANGED_MODE.  Over a whole lifetime, any calls of the
    public members followed by the destructor, every resource acquired is
    released once: CoUninitialize is called as many times as CoInitializeEx
    succeeded, and CloseHandle is never called. *)
Theorem C9_teardown_releases_in_reverse_order :
  forall (s : SpeechRecognition) (hr : HRESULT),
    (released (trace_of (Cleanup s))
     = map ComObject (held_objects s) ++ held_runtime s
     /\ existsb is_close_handle (trace_of (Cleanup s)) = false
     /\ nothing_held (state_of (Cleanup s))
     /\ co_uninitialize_count (trace_of (Cleanup s))
        = if com_initialized_ s then 1%nat else 0%nat)
    /\ (released (trace_of (destructor hr s))
        = map ComObject (held_objects s) ++ held_runtime s
        /\ existsb is_close_handle (trace_of (destructor hr s)) = false
        /\ nothing_held (state_of (destructor hr s))
        /\ co_uninitialize_count (trace_of (destructor hr s))
           = if com_initialized_ s then 1%nat else 0%nat)
    /\ (forall env s0,
           Uninitialized s0 ->
           com_contract env = true ->
           result_of (Initialize env s0) = true ->
           s = state_of (Initialize env s0) ->
           released (trace_of (destructor hr s))
           = rev (acquired (trace_of (Initialize env s0)))
           /\ held_objects s = [create_grammar_out env;
                                create_context_out env;
                                co_create_out env]
           /\ co_uninitialize_count (trace_of (destructor hr s))
              = if co_initialize_hr env =? RPC_E_CHANGED_MODE
                then 0%nat else 1%nat)
    /\ (forall cs,
           forallb call_contract cs = true ->
           let tr := trace_of (lifetime cs hr new_session) in
           Permutation (acquired tr) (released tr)
           /\ co_uninitialize_count tr = co_initialize_count tr
           /\ existsb is_close_handle tr = false
           /\ nothing_held (state_of (lifetime cs hr new_session))).
Proof.
  intros s hr.
  pose proof (destructor_releases hr s) as Hd.
  split; [|split; [exact Hd|split]].
  - destruct (Cleanup_releases s) as (H1 & H2 & H3).
    repeat split; auto; try apply H3. apply Cleanup_co_uninitialize_count.
  - intros env s0 Hs0 Hc Hr ->.
    destruct (Initialize_true_holds env s0 Hs0 Hc Hr)
      as (Hacq & _ & Hcom & Hg & Hx & Hrec & Hng & Hnc & Hnr & _).
    destruct Hd as (Hrel & _ & _ & Hcount).
    rewrite Hrel, Hacq, rev_involutive. split; [reflexivity|].
    split.
    + unfold held_objects. cbn [filter]. rewrite Hng, Hnc, Hnr.
      now rewrite Hg, Hx, Hrec.
    + rewrite Hcount, Hcom.
      assert (Hne : FAILED (co_initialize_hr env)
                    && negb (co_initialize_hr env =? RPC_E_CHANGED_MODE)
                    = false).
      { revert Hr. unfold Initialize. unfold_m.
        destruct s0 as [rec ctx gr ev ini lis stp com thr rcb ecb scb].
        destruct Hs0 as (Hi & _). cbn in Hi. subst ini. cbn.
        destruct (FAILED (co_initialize_hr env)
                  && negb (co_initialize_hr env =? RPC_E_CHANGED_MODE));
          [destruct ecb; cbn; discriminate|reflexivity]. }
      rewrite FAILED_SUCCEEDED.
      rewrite <- (com_initialized_iff_succeeded _ Hne).
      now destruct (co_initialize_hr env =? RPC_E_CHANGED_MODE).
  - intros cs Hcs tr. subst tr.
    destruct (lifetime_balanced cs hr Hcs) as (Hperm & Hnone).
    split; [exact Hperm|]. split; [|split; [|exact Hnone]].
    + rewrite <- count_runtime_released, <- count_runtime_acquired.
      symmetry. now apply count_runtime_perm.
    + rewrite lifetime_run. cbn [trace_of snd].
      rewrite existsb_app, do_calls_never_close. cbn [orb].
      apply destructor_releases.
Qed.

Lemma C9_teardown_releases_in_reverse_order_witness :
  Uninitialized new_session
  /\ com_contract env_ok = true
  /\ result_of (Initialize env_ok new_session) = true
  /\ released (trace_of (destructor S_OK
                           (state_of (Initialize env_ok new_session))))
     = [ComObject 12288; ComObject 8192; ComObject 4096; ComRuntime]
  /\ co_uninitialize_count
       (trace_of (destructor S_OK (state_of (Initialize env_ok new_session))))
     = 1%nat
  /\ forallb call_contract sample_lifetime = true
  /\ co_uninitialize_count (trace_of (lifetime sample_lifetime S_OK new_session))
     = co_initialize_count (trace_of (lifetime sample_lifetime S_OK new_session))
  /\ co_initialize_count (trace_of (lifetime sample_lifetime S_OK new_session))
     = 2%nat.
Proof.
  assert (Hu : Uninitialized new_session) by (repeat split; reflexivity).
  split; [exact Hu|]. split; [reflexivity|]. split; [reflexivity|].
  destruct (C9_teardown_releases_in_reverse_order
              (state_of (Initialize env_ok new_session)) S_OK)
    as (_ & _ & H & Hlife).
  destruct (H env_ok new_session Hu eq_refl eq_refl eq_refl) as (H1 & _ & H3).
  split; [exact H1|]. split; [exact H3|]. split; [reflexivity|].
  destruct (Hlife sample_lifetime eq_refl) as (_ & H4 & _).
  split; [exact H4|]. vm_compute. reflexivity.
Defined.


(** * Further properties of the session *)

(** ** An invariance rule for executions of the two threads

    [P] is kept by every computation that writes the session; [R] holds of
    every call a computation makes, the polling thread being known to run
    only while [recognition_thread_] is joinable; [C] is what is assumed of
    the calls of the control thread. *)
Section RunInvariant.

Variable C : Call -> bool.
Variable P : SpeechRecognition -> Prop.
Variable R : Tid * Effect -> Prop.

Hypothesis call_keeps : forall c s,
  P s -> C c = true ->
  P (state_of (do_call c s))
  /\ Forall R (tagged ControlThread (trace_of (do_call c s))).
Hypothesis signal_keeps : forall hr s,
  P s -> is_listening_ s = true ->
  P (state_of (StopListening_signal hr s))
  /\ Forall R (tagged ControlThread (trace_of (StopListening_signal hr s))).
Hypothesis join_keeps : forall s,
  P s ->
  P (state_of (StopListening_join s))
  /\ Forall R (tagged ControlThread (trace_of (StopListening_join s))).
Hypothesis wait_keeps : forall r s,
  P s -> recognition_thread_ s = true ->
  Forall R (tagged PollingThread (trace_of (RecognitionThread_wait r s))).
Hypothesis get_events_keeps : forall r s,
  P s -> recognition_thread_ s = true ->
  Forall R (tagged PollingThread
              (trace_of (RecognitionThread_get_events r s))).

Lemma step_invariant w a w' :
  world_ok w -> P (session w) -> Forall R (history w) ->
  action_satisfies C a = true ->
  step w a = Some w' ->
  P (session w') /\ Forall R (history w').
Proof.
  intros Hok HP HR Hc Hstep.
  destruct a as [c | | r | r].
  - destruct (in_join w) eqn:Hin.
    { destruct c; cbn in Hstep; rewrite Hin in Hstep; discriminate. }
    assert (Hgen : control_runs (do_call c) w = Some w' ->
                   P (session w') /\ Forall R (history w')).
    { intros H. apply control_runs_inv in H.
      destruct H as (Hs & _ & Hh & _).
      destruct (call_keeps c (session w) HP Hc) as (HP' & HR').
      rewrite Hs, Hh. split; [exact HP'|].
      apply Forall_app. auto. }
    destruct c as [env | env hr | hr | cb | cb | cb];
      try (rewrite step_invoke_other, Hin in Hstep by discriminate;
           now apply Hgen).
    cbn [step] in Hstep. rewrite Hin in Hstep.
    destruct (is_listening_ (session w) && recognition_thread_ (session w))
      eqn:Hboth.
    + apply andb_prop in Hboth as [Hl _].
      destruct (signal_keeps hr (session w) HP Hl) as (HP' & HR').
      unfold state_of, trace_of in *.
      destruct (StopListening_signal hr (session w)) as [[u s'] tr].
      injection Hstep as <-. cbn [session history fst snd] in *.
      split; [exact HP'|]. apply Forall_app. auto.
    + apply Hgen. unfold control_runs in *. cbn [do_call].
      rewrite bind_run. cbn [ret result_of state_of trace_of fst snd].
      rewrite app_nil_r.
      destruct (StopListening hr (session w)) as [[u s'] tr].
      exact Hstep.
  - cbn [step] in Hstep. destruct (in_join w); [|discriminate].
    destruct (poller w); try discriminate.
    destruct (join_keeps (session w) HP) as (HP' & HR').
    unfold state_of, trace_of in *.
    destruct (StopListening_join (session w)) as [[u s'] tr].
    injection Hstep as <-. cbn [session history fst snd] in *.
    split; [exact HP'|]. apply Forall_app. auto.
  - cbn [step] in Hstep.
    destruct (poller w) eqn:Hp; try discriminate.
    assert (Hthr : recognition_thread_ (session w) = true).
    { rewrite (ok_joinable w Hok), Hp. reflexivity. }
    pose proof (wait_keeps r (session w) HP Hthr) as HR'.
    pose proof (RecognitionThread_wait_keeps_state r (session w)) as Hs.
    unfold state_of, trace_of in *.
    destruct (RecognitionThread_wait r (session w)) as [[pc s'] tr].
    injection Hstep as <-. cbn [session history fst snd] in *.
    subst s'. split; [exact HP|]. apply Forall_app. auto.
  - cbn [step] in Hstep.
    destruct (poller w) eqn:Hp; try discriminate.
    assert (Hthr : recognition_thread_ (session w) = true).
    { rewrite (ok_joinable w Hok), Hp. reflexivity. }
    pose proof (get_events_keeps r (session w) HP Hthr) as HR'.
    pose proof (RecognitionThread_get_events_keeps_state r (session w))
      as Hs.
    unfold state_of, trace_of in *.
    destruct (RecognitionThread_get_events r (session w)) as [[pc s'] tr].
    injection Hstep as <-. cbn [session history fst snd] in *.
    subst s'. split; [exact HP|]. apply Forall_app. auto.
Qed.

Lemma run_invariant acts : forall w w',
  world_ok w -> P (session w) -> Forall R (history w) ->
  forallb (action_satisfies C) acts = true ->
  run w acts = Some w' ->
  P (session w') /\ Forall R (history w').
Proof.
  induction acts as [|a acts IH]; intros w w' Hok HP HR Hc Hrun;
    cbn in Hrun.
  - injection Hrun as <-. auto.
  - cbn [forallb] in Hc. apply andb_prop in Hc as [Ha Hc].
    destruct (step w a) as [w1|] eqn:Hs; [|discriminate].
    destruct (step_invariant w a w1 Hok HP HR Ha Hs) as (HP1 & HR1).
    apply (IH w1 w'); auto. exact (step_preserves_ok w a w1 Hok Hs).
Qed.

End RunInvariant.

(** ** The invariant of the session *)

Lemma Initialize_flag_is_result env s :
  is_initialized_ s = false ->
  is_initialized_ (state_of (Initialize env s)) = result_of (Initialize env s).
Proof.
  intros Hi. unfold Initialize. unfold_m.
  destruct s as [? ? ? ? ini ? ? ? ? ? ? ?]. cbn in Hi. subst ini.
  split_ifs; reflexivity.
Qed.

Lemma new_session_ok : session_ok new_session.
Proof.
  constructor; cbn; try discriminate. intros _. repeat split.
Qed.

Lemma Initialize_keeps_session_ok env s :
  session_ok s -> com_contract env = true ->
  session_ok (state_of (Initialize env s)).
Proof.
  intros Hok Hc.
  destruct (is_initialized_ s) eqn:Hi.
  - rewrite Initialize_when_initialized by assumption. exact Hok.
  - destruct Hok as [Hu Hv Ht Hl]. specialize (Hu Hi).
    destruct (Initialize_frame env s) as (Hthr & Hlis & _).
    destruct (Initialize_balanced env s Hu Hc) as (_ & Hnone).
    pose proof (Initialize_flag_is_result env s Hi) as Hflag.
    constructor.
    + exact Hnone.
    + intros Hinit. rewrite Hflag in Hinit.
      destruct (Initialize_true_holds env s Hu Hc Hinit)
        as (_ & _ & _ & _ & _ & _ & Hg & Hx & Hr & _).
      unfold handles_valid. now rewrite Hg, Hx, Hr.
    + rewrite Hthr. intros H. specialize (Ht H). congruence.
    + rewrite Hlis. intros H. specialize (Hl H). congruence.
Qed.

Lemma StartListening_activate_keeps_session_ok hr s :
  session_ok s -> is_initialized_ s = true ->
  session_ok (state_of (StartListening_activate hr s)).
Proof.
  intros [Hu Hv Ht Hl] Hi. rewrite StartListening_activate_run.
  destruct (is_listening_ s); [constructor; auto|].
  destruct (FAILED hr); [constructor; auto|].
  destruct s; cbn in *. constructor; cbn; auto; congruence.
Qed.

Lemma StartListening_state env hr s :
  state_of (StartListening env hr s)
  = if is_initialized_ s then state_of (StartListening_activate hr s)
    else if result_of (Initialize env s)
         then state_of (StartListening_activate hr (state_of (Initialize env s)))
         else state_of (Initialize env s).
Proof.
  destruct (is_initialized_ s) eqn:Hi.
  - now rewrite StartListening_initialized.
  - rewrite StartListening_uninitialized, bind_run by assumption.
    cbn [state_of fst snd]. now destruct (result_of (Initialize env s)).
Qed.

Lemma StartListening_trace env hr s :
  trace_of (StartListening env hr s)
  = if is_initialized_ s then trace_of (StartListening_activate hr s)
    else trace_of (Initialize env s)
         ++ (if result_of (Initialize env s)
             then trace_of (StartListening_activate hr
                              (state_of (Initialize env s)))
             else []).
Proof.
  destruct (is_initialized_ s) eqn:Hi.
  - now rewrite StartListening_initialized.
  - rewrite StartListening_uninitialized, bind_run by assumption.
    cbn [trace_of fst snd]. now destruct (result_of (Initialize env s)).
Qed.

Lemma StartListening_keeps_session_ok env hr s :
  session_ok s -> com_contract env = true ->
  session_ok (state_of (StartListening env hr s)).
Proof.
  intros Hok Hc. rewrite StartListening_state.
  destruct (is_initialized_ s) eqn:Hi.
  - now apply StartListening_activate_keeps_session_ok.
  - pose proof (Initialize_keeps_session_ok env s Hok Hc) as Hok1.
    destruct (result_of (Initialize env s)) eqn:Hr; [|exact Hok1].
    apply StartListening_activate_keeps_session_ok; [exact Hok1|].
    now apply Initialize_true_initialized.
Qed.

Lemma StopListening_signal_keeps_session_ok hr s :
  session_ok s -> is_listening_ s = true ->
  session_ok (state_of (StopListening_signal hr s)).
Proof.
  intros [Hu Hv Ht Hl] Hlis. rewrite StopListening_signal_run.
  specialize (Hl Hlis).
  destruct s; cbn in *. constructor; cbn; auto; congruence.
Qed.

Lemma StopListening_join_keeps_session_ok s :
  session_ok s -> is_listening_ s = false ->
  session_ok (state_of (StopListening_join s)).
Proof.
  intros [Hu Hv Ht Hl] Hlis. rewrite StopListening_join_run.
  destruct s as [? ? ? ? ? ? ? ? thr ? ? ?]; cbn in *.
  destruct thr; cbn; constructor; cbn; auto; discriminate.
Qed.

Lemma StopListening_state hr s :
  state_of (StopListening hr s)
  = if is_listening_ s
    then state_of (StopListening_join (state_of (StopListening_signal hr s)))
    else s.
Proof.
  destruct (is_listening_ s) eqn:Hl.
  - unfold StopListening. rewrite bind_run.
    change (field is_listening_ s) with (is_listening_ s, s, @nil Effect).
    cbn [result_of state_of fst snd]. rewrite Hl. cbn [negb].
    rewrite bind_run. reflexivity.
  - now rewrite StopListening_not_listening.
Qed.

Lemma StopListening_trace hr s :
  trace_of (StopListening hr s)
  = if is_listening_ s
    then trace_of (StopListening_signal hr s)
         ++ trace_of (StopListening_join (state_of (StopListening_signal hr s)))
    else [].
Proof.
  destruct (is_listening_ s) eqn:Hl.
  - unfold StopListening. rewrite bind_run.
    change (field is_listening_ s) with (is_listening_ s, s, @nil Effect).
    cbn [result_of state_of trace_of fst snd app]. rewrite Hl. cbn [negb].
    rewrite bind_run. reflexivity.
  - now rewrite StopListening_not_listening.
Qed.

Lemma StopListening_keeps_session_ok hr s :
  session_ok s -> session_ok (state_of (StopListening hr s)).
Proof.
  intros Hok. rewrite StopListening_state.
  destruct (is_listening_ s) eqn:Hl; [|exact Hok].
  apply StopListening_join_keeps_session_ok.
  - now apply StopListening_signal_keeps_session_ok.
  - rewrite StopListening_signal_run. now destruct s.
Qed.

Lemma same_but_callbacks_session_ok s s' :
  same_but_callbacks s s' -> session_ok s -> session_ok s'.
Proof.
  intros (Hr & Hc & Hg & He & Hi & Hl & _ & Hcom & Ht) [Hu Hv Hth Hlis].
  constructor; unfold Uninitialized, handles_valid in *;
    rewrite ?Hr, ?Hc, ?Hg, ?He, ?Hi, ?Hl, ?Hcom, ?Ht; auto.
Qed.

Lemma do_call_state c s :
  state_of (do_call c s)
  = match c with
    | CallInitialize env => state_of (Initialize env s)
    | CallStartListening env hr => state_of (StartListening env hr s)
    | CallStopListening hr => state_of (StopListening hr s)
    | CallSetResultCallback cb => set_result_callback_ cb s
    | CallSetErrorCallback cb => set_error_callback_ cb s
    | CallSetStatusCallback cb => set_status_callback_ cb s
    end.
Proof.
  destruct c; cbn [do_call]; try reflexivity.
  rewrite bind_run. reflexivity.
Qed.

Lemma do_call_trace c s :
  trace_of (do_call c s)
  = match c with
    | CallInitialize env => trace_of (Initialize env s)
    | CallStartListening env hr => trace_of (StartListening env hr s)
    | CallStopListening hr => trace_of (StopListening hr s)
    | CallSetResultCallback _ => [ELock; EWrite ResultSlot; EUnlock]
    | CallSetErrorCallback _ => [ELock; EWrite ErrorSlot; EUnlock]
    | CallSetStatusCallback _ => [ELock; EWrite StatusSlot; EUnlock]
    end.
Proof.
  destruct c; cbn [do_call]; try reflexivity.
  rewrite bind_run. cbn [trace_of snd ret]. now rewrite app_nil_r.
Qed.

Lemma do_call_keeps_session_ok c s :
  session_ok s -> call_contract c = true ->
  session_ok (state_of (do_call c s)).
Proof.
  intros Hok Hc. rewrite do_call_state.
  destruct c as [env | env hr | hr | cb | cb | cb]; cbn [call_contract] in Hc.
  - now apply Initialize_keeps_session_ok.
  - now apply StartListening_keeps_session_ok.
  - now apply StopListening_keeps_session_ok.
  - eapply same_but_callbacks_session_ok; [|exact Hok].
    destruct s; repeat split.
  - eapply same_but_callbacks_session_ok; [|exact Hok].
    destruct s; repeat split.
  - eapply same_but_callbacks_session_ok; [|exact Hok].
    destruct s; repeat split.
Qed.

(** ** No call through a null pointer *)

Lemma no_null_call_app t1 t2 :
  no_null_call (t1 ++ t2) = no_null_call t1 && no_null_call t2.
Proof. unfold no_null_call. apply forallb_app. Qed.

Lemma no_null_call_tagged tid tr :
  no_null_call tr = true ->
  Forall (fun te : Tid * Effect => null_call (snd te) = false) (tagged tid tr).
Proof.
  unfold no_null_call. intros H. rewrite forallb_forall in H.
  apply Forall_forall. intros [t e] Hin.
  unfold tagged in Hin. apply in_map_iff in Hin as (e' & [= <- <-] & Hin).
  apply negb_true_iff. now apply H.
Qed.

Lemma non_null_eqb p : non_null p = true -> (p =? nullptr) = false.
Proof. unfold non_null. intros H. now apply negb_true_iff in H. Qed.

Ltac use_non_null :=
  repeat match goal with
         | H : non_null ?p = true |- _ => apply non_null_eqb in H
         end.

Lemma Initialize_no_null_call env s :
  com_contract env = true ->
  no_null_call (trace_of (Initialize env s)) = true.
Proof.
  intros Hc. destruct env as [h1 h2 o2 h3 o3 h4 e4 h5 o5 h6].
  unfold com_contract in Hc. cbn in Hc.
  apply andb_prop in Hc as [Hc Hc5]. apply andb_prop in Hc as [Hc2 Hc3].
  unfold Initialize. unfold_m. destruct s.
  cbn [co_initialize_hr co_create_hr co_create_out create_context_hr
       create_context_out set_interest_hr notify_event_handle
       create_grammar_hr create_grammar_out load_dictation_hr].
  split_ifs; use_contract; subst; use_non_null;
    cbn; unfold null_call; cbn;
    repeat match goal with
           | H : (_ =? nullptr) = false |- _ => rewrite H; clear H
           end;
    try reflexivity; try discriminate.
Qed.

Lemma handles_valid_inv s :
  handles_valid s = true ->
  (recognizer_ s =? nullptr) = false
  /\ (context_ s =? nullptr) = false
  /\ (grammar_ s =? nullptr) = false.
Proof.
  unfold handles_valid. intros H.
  apply andb_prop in H as [H Hg]. apply andb_prop in H as [Hr Hc].
  auto using non_null_eqb.
Qed.

Lemma StartListening_activate_no_null_call hr s :
  handles_valid s = true ->
  no_null_call (trace_of (StartListening_activate hr s)) = true.
Proof.
  intros Hv. destruct (handles_valid_inv s Hv) as (_ & _ & Hg).
  rewrite StartListening_activate_run.
  destruct (is_listening_ s); [reflexivity|].
  destruct (FAILED hr);
    [destruct (error_callback_ s)|destruct (status_callback_ s)];
    cbn; unfold null_call; cbn; now rewrite Hg.
Qed.

Lemma StartListening_no_null_call env hr s :
  session_ok s -> com_contract env = true ->
  no_null_call (trace_of (StartListening env hr s)) = true.
Proof.
  intros Hok Hc. rewrite StartListening_trace.
  destruct (is_initialized_ s) eqn:Hi.
  - apply StartListening_activate_no_null_call.
    now apply (sok_initialized s Hok).
  - rewrite no_null_call_app, Initialize_no_null_call by assumption.
    destruct (result_of (Initialize env s)) eqn:Hr; [|reflexivity].
    cbn [andb]. apply StartListening_activate_no_null_call.
    apply (sok_initialized _ (Initialize_keeps_session_ok env s Hok Hc)).
    now apply Initialize_true_initialized.
Qed.

Lemma StopListening_signal_no_null_call hr s :
  no_null_call (trace_of (StopListening_signal hr s)) = true.
Proof.
  rewrite StopListening_signal_run. cbn [trace_of snd].
  destruct (non_null (grammar_ s)) eqn:Hg; [|reflexivity].
  apply non_null_eqb in Hg. cbn. unfold null_call. cbn. now rewrite Hg.
Qed.

Lemma StopListening_join_no_null_call s :
  no_null_call (trace_of (StopListening_join s)) = true.
Proof.
  rewrite StopListening_join_run.
  destruct (recognition_thread_ s), (status_callback_ s); reflexivity.
Qed.

Lemma StopListening_no_null_call hr s :
  no_null_call (trace_of (StopListening hr s)) = true.
Proof.
  rewrite StopListening_trace. destruct (is_listening_ s); [|reflexivity].
  now rewrite no_null_call_app, StopListening_signal_no_null_call,
    StopListening_join_no_null_call.
Qed.

Lemma do_call_no_null_call c s :
  session_ok s -> call_contract c = true ->
  no_null_call (trace_of (do_call c s)) = true.
Proof.
  intros Hok Hc. rewrite do_call_trace.
  destruct c as [env | env hr | hr | cb | cb | cb]; cbn [call_contract] in Hc;
    try reflexivity.
  - now apply Initialize_no_null_call.
  - now apply StartListening_no_null_call.
  - apply StopListening_no_null_call.
Qed.

Lemma process_event_no_null_call r s :
  no_null_call (trace_of (process_event r s)) = true.
Proof.
  unfold process_event, has_object. unfold_m.
  split_ifs;
    repeat match goal with
           | H : _ && _ = true |- _ => apply andb_prop in H as [? H]
           end;
    use_non_null; cbn; unfold null_call; cbn;
    repeat match goal with
           | H : (_ =? nullptr) = false |- _ => rewrite H
           end; reflexivity.
Qed.

Lemma RecognitionThread_wait_no_null_call r s :
  no_null_call (trace_of (RecognitionThread_wait r s)) = true.
Proof.
  rewrite RecognitionThread_wait_run. now destruct (should_stop_ s).
Qed.

Lemma RecognitionThread_get_events_no_null_call r s :
  handles_valid s = true ->
  no_null_call (trace_of (RecognitionThread_get_events r s)) = true.
Proof.
  intros Hv. destruct (handles_valid_inv s Hv) as (_ & Hc & _).
  rewrite RecognitionThread_get_events_run.
  destruct (fetched_one r); cbn [trace_of snd].
  - change (no_null_call (?e :: ?t))
      with (negb (null_call e) && no_null_call t).
    rewrite process_event_no_null_call. unfold null_call. cbn.
    now rewrite Hc.
  - cbn. unfold null_call. cbn. now rewrite Hc.
Qed.

(** Along any execution in which the system keeps the COM rule for
    out-parameters, the session keeps its invariant and no method is called
    on a null pointer. *)
Lemma reachable_session_ok acts w :
  run initial_world acts = Some w ->
  actions_contract acts = true ->
  session_ok (session w)
  /\ Forall (fun te : Tid * Effect => null_call (snd te) = false) (history w).
Proof.
  intros Hrun Hc.
  set (R := fun te : Tid * Effect => null_call (snd te) = false).
  assert (H1 : forall c s, session_ok s -> call_contract c = true ->
               session_ok (state_of (do_call c s))
               /\ Forall R (tagged ControlThread (trace_of (do_call c s)))).
  { intros c s Hs Hcc. split.
    - now apply do_call_keeps_session_ok.
    - apply no_null_call_tagged. now apply do_call_no_null_call. }
  assert (H2 : forall hr s, session_ok s -> is_listening_ s = true ->
               session_ok (state_of (StopListening_signal hr s))
               /\ Forall R (tagged ControlThread
                              (trace_of (StopListening_signal hr s)))).
  { intros hr s Hs Hl. split.
    - now apply StopListening_signal_keeps_session_ok.
    - apply no_null_call_tagged, StopListening_signal_no_null_call. }
  assert (H3 : forall s, session_ok s ->
               session_ok (state_of (StopListening_join s))
               /\ Forall R (tagged ControlThread
                              (trace_of (StopListening_join s)))).
  { intros s Hs. split.
    - rewrite StopListening_join_run.
      destruct Hs as [Hu Hv Ht Hl].
      destruct s as [? ? ? ? ? ? ? ? thr ? ? ?]; cbn in *.
      destruct thr; cbn; constructor; cbn; auto; discriminate.
    - apply no_null_call_tagged, StopListening_join_no_null_call. }
  assert (H4 : forall r s, session_ok s -> recognition_thread_ s = true ->
               Forall R (tagged PollingThread
                           (trace_of (RecognitionThread_wait r s)))).
  { intros r s Hs Ht.
    apply no_null_call_tagged, RecognitionThread_wait_no_null_call. }
  assert (H5 : forall r s, session_ok s -> recognition_thread_ s = true ->
               Forall R (tagged PollingThread
                           (trace_of (RecognitionThread_get_events r s)))).
  { intros r s Hs Ht.
    apply no_null_call_tagged, RecognitionThread_get_events_no_null_call.
    apply (sok_initialized s Hs). now apply (sok_thread s Hs). }
  exact (run_invariant call_contract session_ok R H1 H2 H3 H4 H5 acts
           initial_world w
           initial_world_ok new_session_ok (Forall_nil R) Hc Hrun).
Qed.

(** X1. In every state an execution can reach, when the system keeps the
    COM rule for out-parameters: an initialized session has its three
    interface pointers set; a session that is not initialized holds nothing,
    does not listen and has no thread; a listening session is initialized;
    and the polling thread exists only while the three pointers are set. *)
Theorem X1_handles_all_or_none :
  forall (acts : list Action) (w : World),
    run initial_world acts = Some w ->
    actions_contract acts = true ->
    (IsInitialized (session w) = true -> handles_valid (session w) = true)
    /\ (IsInitialized (session w) = false ->
        nothing_held (session w)
        /\ IsListening (session w) = false
        /\ poller w = NotRunning)
    /\ (IsListening (session w) = true -> IsInitialized (session w) = true)
    /\ (is_running (poller w) = true -> handles_valid (session w) = true).
Proof.
  intros acts w Hrun Hc.
  destruct (reachable_session_ok acts w Hrun Hc) as ([Hu Hv Ht Hl] & _).
  pose proof (run_preserves_ok _ _ _ initial_world_ok Hrun) as Hok.
  unfold IsInitialized, IsListening.
  split; [exact Hv|]. split; [|split; [exact Hl|]].
  - intros Hi. specialize (Hu Hi).
    split; [now apply Uninitialized_nothing_held|].
    split; [apply Hu|].
    destruct (poller w) eqn:Hp; try reflexivity;
      assert (Hthr : recognition_thread_ (session w) = true)
        by (rewrite (ok_joinable w Hok), Hp; reflexivity);
      specialize (Ht Hthr); congruence.
  - intros Hrunning. apply Hv, Ht.
    now rewrite (ok_joinable w Hok).
Qed.

Lemma X1_handles_all_or_none_witness :
  run initial_world sample_before_stop = Some sample_w
  /\ actions_contract sample_before_stop = true
  /\ IsListening (session sample_w) = true
  /\ IsInitialized (session sample_w) = true
  /\ handles_valid (session sample_w) = true.
Proof.
  assert (H1 : run initial_world sample_before_stop = Some sample_w)
    by (vm_compute; reflexivity).
  assert (H2 : actions_contract sample_before_stop = true)
    by (vm_compute; reflexivity).
  assert (H3 : IsListening (session sample_w) = true)
    by (vm_compute; reflexivity).
  destruct (X1_handles_all_or_none sample_before_stop sample_w H1 H2)
    as (Hv & _ & Hl & _).
  split; [exact H1|]. split; [exact H2|]. split; [exact H3|].
  split; [exact (Hl H3)|exact (Hv (Hl H3))].
Defined.

Lemma control_runs_some {A} (m : M A) w :
  (existsb is_spawn (trace_of (m (session w))) = true ->
   recognition_thread_ (session w) = false) ->
  exists w', control_runs m w = Some w'.
Proof.
  unfold control_runs, trace_of.
  destruct (m (session w)) as [[a s'] tr]. cbn [snd].
  destruct (existsb is_spawn tr); intros H.
  - rewrite (H eq_refl). eauto.
  - eauto.
Qed.

(** X2. Outside the join of StopListening, no call of a public member ever
    aborts the program: in a reachable state StartListening constructs the
    polling thread only when [recognition_thread_] is not joinable, so there
    is never a second polling thread and [std::thread]'s assignment never
    terminates the process. *)
Theorem X2_no_second_polling_thread :
  forall (acts : list Action) (w : World) (c : Call),
    run initial_world acts = Some w ->
    in_join w = false ->
    exists w',
      step w (Invoke c) = Some w'
      /\ (existsb is_spawn (trace_of (do_call c (session w))) = true ->
          poller w = NotRunning /\ poller w' = AtLoopHead).
Proof.
  intros acts w c Hrun Hin.
  pose proof (run_preserves_ok _ _ _ initial_world_ok Hrun) as Hok.
  pose proof (ok_listening w Hok Hin) as Hlt.
  pose proof (ok_joinable w Hok) as Hj.
  assert (Hnone : recognition_thread_ (session w) = false ->
                  poller w = NotRunning).
  { intros H. rewrite H in Hj. now destruct (poller w). }
  assert (Hspawn : existsb is_spawn (trace_of (do_call c (session w))) = true
                   -> recognition_thread_ (session w) = false).
  { intros Hs. destruct c as [env | env hr | hr | cb | cb | cb].
    - destruct (do_call_no_start (CallInitialize env) (session w))
        as (H & _); first [discriminate | congruence].
    - cbn [do_call] in Hs.
      destruct (StartListening_cases env hr (session w))
        as [(_ & H2 & _) | (H1 & _)]; cbv zeta in *; congruence.
    - rewrite do_call_trace, StopListening_trace in Hs.
      rewrite StopListening_signal_run, StopListening_join_run in Hs.
      destruct (is_listening_ (session w)); [|discriminate].
      cbn [trace_of snd state_of fst] in Hs.
      destruct (non_null _), (recognition_thread_ _), (status_callback_ _);
        discriminate.
    - destruct (do_call_no_start (CallSetResultCallback cb) (session w))
        as (H & _); first [discriminate | congruence].
    - destruct (do_call_no_start (CallSetErrorCallback cb) (session w))
        as (H & _); first [discriminate | congruence].
    - destruct (do_call_no_start (CallSetStatusCallback cb) (session w))
        as (H & _); first [discriminate | congruence]. }
  assert (Hstep : step w (Invoke c) = control_runs (do_call c) w
                  \/ exists hr, c = CallStopListening hr
                                /\ is_listening_ (session w) = true).
  { destruct c as [env | env hr | hr | cb | cb | cb];
      try (left; rewrite step_invoke_other, Hin by discriminate; reflexivity).
    destruct (is_listening_ (session w)) eqn:Hl; [right; eauto|left].
    cbn [step]. rewrite Hin, Hl. cbn [andb do_call].
    unfold control_runs. rewrite bind_run.
    cbn [ret result_of state_of trace_of fst snd]. rewrite app_nil_r.
    now destruct (StopListening hr (session w)) as [[u s'] tr]. }
  destruct Hstep as [Heq | (hr & -> & Hl)].
  - destruct (control_runs_some (do_call c) w Hspawn) as [w' Hw'].
    exists w'. rewrite Heq. split; [exact Hw'|].
    intros Hs. apply control_runs_inv in Hw'.
    destruct Hw' as (_ & _ & _ & Hp). rewrite Hs in Hp.
    destruct Hp as [Hthr Hp]. auto.
  - cbn [step]. rewrite Hin, Hl, <- Hlt, Hl. cbn [andb].
    destruct (StopListening_signal hr (session w)) as [[u s'] tr].
    eexists. split; [reflexivity|].
    intros Hs. specialize (Hspawn Hs). congruence.
Qed.

Lemma X2_no_second_polling_thread_witness :
  run initial_world sample_before_stop = Some sample_w
  /\ in_join sample_w = false
  /\ exists w',
      step sample_w (Invoke (CallStartListening env_ok S_OK)) = Some w'.
Proof.
  assert (H1 : run initial_world sample_before_stop = Some sample_w)
    by (vm_compute; reflexivity).
  assert (H2 : in_join sample_w = false) by (vm_compute; reflexivity).
  split; [exact H1|]. split; [exact H2|].
  destruct (X2_no_second_polling_thread sample_before_stop sample_w
              (CallStartListening env_ok S_OK) H1 H2) as (w' & Hw' & _).
  exists w'. exact Hw'.
Defined.

(** X3. Along any execution in which the system keeps the COM rule for
    out-parameters, no method is ever called on a null pointer, by either
    thread: not on [recognizer_], [context_] or [grammar_], and not on the
    object an event carries. *)
Theorem X3_no_call_on_null_pointer :
  forall (acts : list Action) (w : World),
    run initial_world acts = Some w ->
    actions_contract acts = true ->
    Forall (fun te : Tid * Effect => null_call (snd te) = false) (history w).
Proof.
  intros acts w Hrun Hc. now apply (reachable_session_ok acts w Hrun Hc).
Qed.

Lemma X3_no_call_on_null_pointer_witness :
  run initial_world (sample_before_stop
                     ++ Invoke (CallStopListening S_OK) :: sample_during_join)
  = Some sample_w2
  /\ actions_contract (sample_before_stop
                       ++ Invoke (CallStopListening S_OK) :: sample_during_join)
     = true
  /\ Forall (fun te : Tid * Effect => null_call (snd te) = false)
            (history sample_w2).
Proof.
  assert (H1 : run initial_world
                 (sample_before_stop
                  ++ Invoke (CallStopListening S_OK) :: sample_during_join)
               = Some sample_w2) by (vm_compute; reflexivity).
  assert (H2 : actions_contract
                 (sample_before_stop
                  ++ Invoke (CallStopListening S_OK) :: sample_during_join)
               = true) by (vm_compute; reflexivity).
  split; [exact H1|]. split; [exact H2|].
  exact (X3_no_call_on_null_pointer _ _ H1 H2).
Defined.

(** ** StartListening and StopListening *)

Lemma StartListening_true env hr s :
  result_of (StartListening env hr s) = true ->
  is_initialized_ (state_of (StartListening env hr s)) = true
  /\ is_listening_ (state_of (StartListening env hr s)) = true.
Proof.
  assert (Hact : forall s1, is_initialized_ s1 = true ->
            result_of (StartListening_activate hr s1) = true ->
            is_initialized_ (state_of (StartListening_activate hr s1)) = true
            /\ is_listening_ (state_of (StartListening_activate hr s1)) = true).
  { intros s1 Hi. rewrite StartListening_activate_run.
    destruct (is_listening_ s1) eqn:Hl; [cbn; auto|].
    destruct (FAILED hr); [cbn; discriminate|].
    destruct s1; cbn in *. auto. }
  destruct (is_initialized_ s) eqn:Hi.
  - rewrite StartListening_initialized by assumption. now apply Hact.
  - rewrite StartListening_uninitialized, bind_run by assumption.
    cbn [result_of state_of fst snd].
    destruct (result_of (Initialize env s)) eqn:Hr; cbn [negb].
    + apply Hact. now apply Initialize_true_initialized.
    + cbn. discriminate.
Qed.

Lemma StartListening_while_listening env hr s :
  is_initialized_ s = true -> is_listening_ s = true ->
  StartListening env hr s = (true, s, []).
Proof.
  intros Hi Hl.
  rewrite StartListening_initialized, StartListening_activate_run by assumption.
  now rewrite Hl.
Qed.

Lemma do_call_keeps_listening c s :
  is_stop_call c = false ->
  is_initialized_ s = true -> is_listening_ s = true ->
  is_listening_ (state_of (do_call c s)) = true.
Proof.
  intros Hc Hi Hl. rewrite do_call_state.
  destruct c as [env | env hr | hr | cb | cb | cb]; try discriminate.
  - now rewrite Initialize_when_initialized.
  - now rewrite StartListening_while_listening.
  - now destruct s.
  - now destruct s.
  - now destruct s.
Qed.

Lemma do_calls_keep_listening cs : forall s,
  forallb (fun c => negb (is_stop_call c)) cs = true ->
  is_initialized_ s = true -> is_listening_ s = true ->
  is_initialized_ (state_of (do_calls cs s)) = true
  /\ is_listening_ (state_of (do_calls cs s)) = true.
Proof.
  induction cs as [|c cs IH]; intros s Hcs Hi Hl.
  - auto.
  - cbn [forallb] in Hcs. apply andb_prop in Hcs as [Hc Hcs].
    apply negb_true_iff in Hc.
    rewrite do_calls_cons. apply IH; [exact Hcs| |].
    + now apply do_call_keeps_initialized.
    + now apply do_call_keeps_listening.
Qed.

(** X4. StartListening is idempotent while the session listens: once a
    StartListening has returned true, and as long as StopListening is not
    called, a later StartListening returns true, makes no call at all (no
    second activation, no second thread, no status callback) and leaves the
    object as it is. *)
Theorem X4_StartListening_idempotent :
  forall (env0 env : InitEnv) (hr0 hr : HRESULT) (s0 : SpeechRecognition)
         (later : list Call),
    result_of (StartListening env0 hr0 s0) = true ->
    forallb (fun c => negb (is_stop_call c)) later = true ->
    let s := state_of (do_calls later (state_of (StartListening env0 hr0 s0))) in
    StartListening env hr s = (true, s, []).
Proof.
  intros env0 env hr0 hr s0 later Hr Hlater s.
  destruct (StartListening_true env0 hr0 s0 Hr) as (Hi & Hl).
  destruct (do_calls_keep_listening later _ Hlater Hi Hl) as (Hi' & Hl').
  now apply StartListening_while_listening.
Qed.

Lemma X4_StartListening_idempotent_witness :
  result_of (StartListening env_ok S_OK new_session) = true
  /\ (let s := state_of (do_calls [CallInitialize env_ok;
                                   CallSetResultCallback (Some 1%nat);
                                   CallStartListening env_ok E_FAIL]
                           (state_of (StartListening env_ok S_OK new_session)))
      in StartListening env_ok E_FAIL s = (true, s, [])).
Proof.
  split; [vm_compute; reflexivity|].
  apply (X4_StartListening_idempotent env_ok env_ok S_OK E_FAIL new_session);
    vm_compute; reflexivity.
Defined.

(** X5. StopListening never fails outwardly.  Whatever the grammar answers
    to the deactivation, the object after the call is the same, and the
    error callback is never called.  On a listening session the call leaves
    an initialized session that does not listen, with the stop flag up and no
    joinable thread, keeps every handle, releases nothing, and calls the
    status callback, when one is registered, once with "stopped" and after
    the join; on a session that does not listen it does nothing. *)
Theorem X5_StopListening_swallows_deactivation_failure :
  forall (hr hr' : HRESULT) (s : SpeechRecognition),
    state_of (StopListening hr s) = state_of (StopListening hr' s)
    /\ filter is_error_report (trace_of (StopListening hr s)) = []
    /\ (is_listening_ s = false -> StopListening hr s = (tt, s, []))
    /\ (is_listening_ s = true ->
        state_of (StopListening hr s)
        = set_recognition_thread_ false
            (set_is_listening_ false (set_should_stop_ true s))
        /\ released (trace_of (StopListening hr s)) = []
        /\ trace_of (StopListening hr s)
           = (if non_null (grammar_ s)
              then [ESetDictationState (grammar_ s) SPRS_INACTIVE hr] else [])
             ++ (if recognition_thread_ s then [EJoin] else [])
             ++ ERead StatusSlot
                :: match status_callback_ s with
                   | Some f => [EStatus f "stopped"]
                   | None => []
                   end).
Proof.
  intros hr hr' s.
  assert (Hstate : forall h, state_of (StopListening h s)
            = if is_listening_ s
              then set_recognition_thread_ false
                     (set_is_listening_ false (set_should_stop_ true s))
              else s).
  { intros h. rewrite StopListening_state, StopListening_signal_run,
      StopListening_join_run.
    destruct s as [? ? ? ? ? lis ? ? thr ? ? ?]; cbn.
    destruct lis, thr; reflexivity. }
  assert (Htrace : is_listening_ s = true ->
            trace_of (StopListening hr s)
            = (if non_null (grammar_ s)
               then [ESetDictationState (grammar_ s) SPRS_INACTIVE hr] else [])
              ++ (if recognition_thread_ s then [EJoin] else [])
              ++ ERead StatusSlot
                 :: match status_callback_ s with
                    | Some f => [EStatus f "stopped"]
                    | None => []
                    end).
  { intros Hl. rewrite StopListening_trace, Hl, StopListening_signal_run,
      StopListening_join_run.
    destruct s; reflexivity. }
  split; [now rewrite !Hstate|]. split; [|split].
  - destruct (is_listening_ s) eqn:Hl.
    + rewrite (Htrace eq_refl).
      destruct (non_null (grammar_ s)), (recognition_thread_ s),
        (status_callback_ s); reflexivity.
    + now rewrite StopListening_not_listening.
  - apply StopListening_not_listening.
  - intros Hl. split; [now rewrite Hstate, Hl|]. split.
    + apply StopListening_keeps_handles.
    + now apply Htrace.
Qed.

Lemma X5_StopListening_swallows_deactivation_failure_witness :
  is_listening_ listening_session = true
  /\ state_of (StopListening E_FAIL listening_session)
     = state_of (StopListening S_OK listening_session)
  /\ trace_of (StopListening E_FAIL listening_session)
     = [ESetDictationState 12288 SPRS_INACTIVE E_FAIL; EJoin;
        ERead StatusSlot; EStatus 3%nat "stopped"].
Proof.
  assert (Hl : is_listening_ listening_session = true)
    by (vm_compute; reflexivity).
  destruct (X5_StopListening_swallows_deactivation_failure
              E_FAIL S_OK listening_session) as (H1 & _ & _ & H4).
  destruct (H4 Hl) as (_ & _ & H5).
  split; [exact Hl|]. split; [exact H1|].
  rewrite H5. vm_compute. reflexivity.
Defined.

(** X6. StartListening starts a polling thread that runs, also after a
    StopListening: in a reachable state that is initialized and does not
    listen, a StartListening whose activation succeeds clears the stop flag
    (which StopListening leaves up), constructs the thread, and the thread's
    first test of the flag sends it into the wait, not out of the loop. *)
Theorem X6_restart_after_stop :
  forall (acts : list Action) (w : World) (env : InitEnv) (hr : HRESULT)
         (wait_result : DWORD),
    run initial_world acts = Some w ->
    in_join w = false ->
    IsInitialized (session w) = true ->
    IsListening (session w) = false ->
    FAILED hr = false ->
    exists w' w'',
      step w (Invoke (CallStartListening env hr)) = Some w'
      /\ poller w' = AtLoopHead
      /\ IsListening (session w') = true
      /\ should_stop_ (session w') = false
      /\ step w' (PollWait wait_result) = Some w''
      /\ poller w''
         = (if wait_result =? WAIT_OBJECT_0 then Draining else AtLoopHead)
      /\ history w''
         = history w'
           ++ [(PollingThread,
                EWaitForSingleObject (recognition_event_ (session w)) 100
                                     wait_result)].
Proof.
  intros acts w env hr r Hrun Hin Hi Hl Hf.
  unfold IsInitialized, IsListening in *.
  pose proof (run_preserves_ok _ _ _ initial_world_ok Hrun) as Hok.
  pose proof (ok_listening w Hok Hin) as Hlt. rewrite Hl in Hlt.
  assert (Hstart : StartListening env hr (session w)
            = (true,
               set_recognition_thread_ true
                 (set_should_stop_ false (set_is_listening_ true (session w))),
               ESetDictationState (grammar_ (session w)) SPRS_ACTIVE hr
               :: ESpawn :: ERead StatusSlot
               :: match status_callback_ (session w) with
                  | Some f => [EStatus f "listening"]
                  | None => []
                  end)).
  { rewrite StartListening_initialized, StartListening_activate_run
      by assumption. now rewrite Hl, Hf. }
  assert (Hstep : step w (Invoke (CallStartListening env hr))
            = Some (mkWorld
                      (set_recognition_thread_ true
                         (set_should_stop_ false
                            (set_is_listening_ true (session w))))
                      AtLoopHead false
                      (history w
                       ++ tagged ControlThread
                            (trace_of (StartListening env hr (session w)))))).
  { rewrite step_invoke_other, Hin by discriminate.
    unfold control_runs. cbn [do_call]. rewrite Hstart, <- Hlt.
    cbn [existsb is_spawn orb trace_of snd]. reflexivity. }
  set (s' := set_recognition_thread_ true
                (set_should_stop_ false (set_is_listening_ true (session w))))
    in *.
  assert (Hs1 : should_stop_ s' = false) by (subst s'; now destruct (session w)).
  assert (Hs2 : is_listening_ s' = true) by (subst s'; now destruct (session w)).
  assert (Hs3 : recognition_event_ s' = recognition_event_ (session w))
    by (subst s'; now destruct (session w)).
  exists (mkWorld s' AtLoopHead false
            (history w
             ++ tagged ControlThread
                  (trace_of (StartListening env hr (session w))))).
  exists (mkWorld s' (if r =? WAIT_OBJECT_0 then Draining else AtLoopHead)
            false
            ((history w
              ++ tagged ControlThread
                   (trace_of (StartListening env hr (session w))))
             ++ [(PollingThread,
                  EWaitForSingleObject (recognition_event_ (session w)) 100
                                       r)])).
  split; [exact Hstep|].
  cbn [poller session history in_join step].
  rewrite RecognitionThread_wait_run, Hs1, Hs3.
  repeat split; auto.
Qed.

Lemma X6_restart_after_stop_witness :
  run initial_world
      (sample_before_stop
       ++ Invoke (CallStopListening S_OK) :: sample_during_join
       ++ [JoinReturns]) = Some sample_w3
  /\ in_join sample_w3 = false
  /\ IsInitialized (session sample_w3) = true
  /\ IsListening (session sample_w3) = false
  /\ should_stop_ (session sample_w3) = true
  /\ FAILED S_OK = false
  /\ exists w',
      step sample_w3 (Invoke (CallStartListening env_ok S_OK)) = Some w'
      /\ poller w' = AtLoopHead
      /\ should_stop_ (session w') = false.
Proof.
  assert (H1 : run initial_world
                 (sample_before_stop
                  ++ Invoke (CallStopListening S_OK) :: sample_during_join
                  ++ [JoinReturns]) = Some sample_w3)
    by (vm_compute; reflexivity).
  assert (H2 : in_join sample_w3 = false) by (vm_compute; reflexivity).
  assert (H3 : IsInitialized (session sample_w3) = true)
    by (vm_compute; reflexivity).
  assert (H4 : IsListening (session sample_w3) = false)
    by (vm_compute; reflexivity).
  assert (H5 : should_stop_ (session sample_w3) = true)
    by (vm_compute; reflexivity).
  assert (H6 : FAILED S_OK = false) by (vm_compute; reflexivity).
  destruct (X6_restart_after_stop _ sample_w3 env_ok S_OK WAIT_TIMEOUT
              H1 H2 H3 H4 H6) as (w' & w'' & Hs & Hp & _ & Hstop & _).
  split; [exact H1|]. split; [exact H2|]. split; [exact H3|].
  split; [exact H4|]. split; [exact H5|]. split; [exact H6|].
  exists w'. split; [exact Hs|]. split; [exact Hp|exact Hstop].
Defined.

(** ** What the polling thread calls *)

Lemma process_event_recognition r s :
  eEventId (ge_event r) = SPEI_RECOGNITION ->
  has_object (ge_event r) = true ->
  trace_of (process_event r s)
  = EGetText (lParam (ge_event r)) (gt_hr r)
    :: (if SUCCEEDED (gt_hr r) then
          match gt_text r with
          | Some text =>
              [ELock; ERead ResultSlot]
              ++ match result_callback_ s with
                 | Some f =>
                     if string_empty (WideToUtf8 text (mb_bytes r)) then []
                     else [EResult f (WideToUtf8 text (mb_bytes r)) true]
                 | None => []
                 end
              ++ [ECoTaskMemFree; EUnlock]
          | None => []
          end
        else [])
    ++ [ERelease (lParam (ge_event r))].
Proof.
  intros Hid Hobj. unfold process_event.
  rewrite Hid, Hobj, Z.eqb_refl. unfold_m. cbn.
  destruct (SUCCEEDED (gt_hr r)); [|reflexivity].
  destruct (gt_text r) as [text|]; [|reflexivity]. cbn.
  destruct (result_callback_ s); [|reflexivity].
  destruct (string_empty _); reflexivity.
Qed.

Lemma process_event_other r s :
  (eEventId (ge_event r) =? SPEI_RECOGNITION) = false ->
  trace_of (process_event r s)
  = if has_object (ge_event r) then [ERelease (lParam (ge_event r))] else [].
Proof.
  intros Hid. unfold process_event. rewrite Hid. unfold_m. cbn.
  destruct (eEventId (ge_event r) =? SPEI_FALSE_RECOGNITION);
    destruct (has_object (ge_event r)); reflexivity.
Qed.

Lemma invocations_app t1 t2 :
  invocations (t1 ++ t2) = invocations t1 ++ invocations t2.
Proof. unfold invocations. apply filter_app. Qed.

Lemma string_empty_false s : s <> EmptyString -> string_empty s = false.
Proof. destruct s; [congruence|reflexivity]. Qed.

(** X7. A result callback set by the control thread is the one used for
    the very next event: when SetResultCallback runs while the polling thread
    is draining and the thread then handles a recognition with a non-empty
    text, the callback just set is called once with that text, and the one
    it replaced is not called; after SetResultCallback(nullptr) nothing is
    called. *)
Theorem X7_replaced_callback_used_for_next_event :
  forall (w w1 w2 : World) (cb : option callback) (r : GetEventsReply)
         (text : wstring),
    in_join w = false ->
    poller w = Draining ->
    fetched_one r = true ->
    eEventId (ge_event r) = SPEI_RECOGNITION ->
    has_object (ge_event r) = true ->
    SUCCEEDED (gt_hr r) = true ->
    gt_text r = Some text ->
    WideToUtf8 text (mb_bytes r) <> EmptyString ->
    step w (Invoke (CallSetResultCallback cb)) = Some w1 ->
    step w1 (PollGetEvents r) = Some w2 ->
    invocations (effects_of PollingThread (history w2))
    = invocations (effects_of PollingThread (history w))
      ++ match cb with
         | Some g => [EResult g (WideToUtf8 text (mb_bytes r)) true]
         | None => []
         end.
Proof.
  intros w w1 w2 cb r text Hin Hp Hf Hid Hobj Hok Htext Hne Hset Hev.
  rewrite step_invoke_other, Hin in Hset by discriminate.
  apply control_runs_inv in Hset.
  destruct Hset as (Hs1 & Hin1 & Hh1 & Hp1).
  rewrite do_call_trace in Hh1, Hp1. cbn [existsb is_spawn orb] in Hp1.
  rewrite do_call_state in Hs1.
  cbn [step] in Hev. rewrite Hp1, Hp in Hev.
  rewrite RecognitionThread_get_events_run, Hf in Hev.
  rewrite (process_event_recognition r (session w1) Hid Hobj) in Hev.
  rewrite Hok, Htext, (string_empty_false _ Hne), Hs1 in Hev.
  remember (tagged PollingThread _) as tg eqn:Htg in Hev.
  injection Hev as <-. cbn [history].
  rewrite Hh1, !effects_of_app. subst tg.
  rewrite (effects_of_tagged_other _ _ _ tid_neq_pc), app_nil_r,
    effects_of_tagged_same.
  rewrite invocations_app. f_equal.
  destruct (session w); destruct cb; reflexivity.
Qed.

Lemma forallb_true_always (acts : list Action) :
  forallb (action_satisfies (fun _ => true)) acts = true.
Proof.
  induction acts as [|a acts IH]; [reflexivity|].
  cbn [forallb]. rewrite IH. now destruct a.
Qed.

Lemma process_event_only_final_results r s :
  forallb (fun e => implb (is_invocation e) (is_final_result e))
          (trace_of (process_event r s)) = true.
Proof.
  unfold process_event, has_object. unfold_m. split_ifs; reflexivity.
Qed.

Lemma only_final_results_tagged tr :
  forallb (fun e => implb (is_invocation e) (is_final_result e)) tr = true ->
  Forall (fun te : Tid * Effect =>
            fst te = PollingThread ->
            is_invocation (snd te) = true -> is_final_result (snd te) = true)
         (tagged PollingThread tr).
Proof.
  intros H. rewrite forallb_forall in H. apply Forall_forall.
  intros [t e] Hin _ Hinv. unfold tagged in Hin.
  apply in_map_iff in Hin as (e' & [= _ <-] & Hin).
  specialize (H e' Hin). cbn [snd] in *. now rewrite Hinv in H.
Qed.

Lemma control_effects_vacuous tr :
  Forall (fun te : Tid * Effect =>
            fst te = PollingThread ->
            is_invocation (snd te) = true -> is_final_result (snd te) = true)
         (tagged ControlThread tr).
Proof.
  apply Forall_forall. intros [t e] Hin Ht. unfold tagged in Hin.
  apply in_map_iff in Hin as (e' & [= <- _] & _). discriminate.
Qed.

Lemma polling_thread_only_final_results acts w :
  run initial_world acts = Some w ->
  Forall (fun te : Tid * Effect =>
            fst te = PollingThread ->
            is_invocation (snd te) = true -> is_final_result (snd te) = true)
         (history w).
Proof.
  intros Hrun.
  set (R := fun te : Tid * Effect =>
              fst te = PollingThread ->
              is_invocation (snd te) = true ->
              is_final_result (snd te) = true).
  refine (proj2 (run_invariant (fun _ => true) (fun _ => True) R
                   _ _ _ _ _ acts initial_world w
                   initial_world_ok I (Forall_nil R)
                   (forallb_true_always acts) Hrun)).
  - intros c s _ _. split; [exact I|apply control_effects_vacuous].
  - intros hr s _ _. split; [exact I|apply control_effects_vacuous].
  - intros s _. split; [exact I|apply control_effects_vacuous].
  - intros r s _ _. apply only_final_results_tagged.
    rewrite RecognitionThread_wait_run. now destruct (should_stop_ s).
  - intros r s _ _. apply only_final_results_tagged.
    rewrite RecognitionThread_get_events_run.
    destruct (fetched_one r); [|reflexivity].
    cbn [trace_of snd forallb is_invocation implb andb].
    apply process_event_only_final_results.
Qed.

(** X8. The polling thread only ever reports final results, and it never
    writes the session: every callback it invokes, in any execution, is the
    result callback with [is_final = true] (never the error or the status
    callback), and a step of the polling thread leaves every field of the
    object as it is. *)
Theorem X8_polling_thread_reports_final_results_only :
  forall (acts : list Action) (w w' : World) (a : Action),
    run initial_world acts = Some w ->
    is_poll_action a = true ->
    step w a = Some w' ->
    session w' = session w
    /\ Forall (fun e => is_invocation e = true -> is_final_result e = true)
              (effects_of PollingThread (history w')).
Proof.
  intros acts w w' a Hrun Ha Hstep.
  destruct (step_poll_inv w a w' Ha Hstep) as (pc & tr & Hs & _).
  split; [exact Hs|].
  assert (Hrun' : run initial_world (acts ++ [a]) = Some w').
  { clear - Hrun Hstep. revert Hrun. generalize initial_world.
    induction acts as [|b acts IH]; intros w0 Hrun; cbn in *.
    - injection Hrun as ->. now rewrite Hstep.
    - destruct (step w0 b); [now apply IH|discriminate]. }
  pose proof (polling_thread_only_final_results _ _ Hrun') as HF.
  rewrite Forall_forall in *. intros e Hin Hinv.
  unfold effects_of in Hin. apply in_flat_map in Hin as ([t e'] & Hin & He).
  cbn [fst snd] in He. destruct t; cbn in He; [contradiction|].
  destruct He as [<- | []].
  exact (HF (PollingThread, e') Hin eq_refl Hinv).
Qed.

Lemma X8_polling_thread_reports_final_results_only_witness :
  run initial_world (firstn 5 sample_before_stop)
  = Some sample_draining
  /\ step sample_draining
          (PollGetEvents (reply_recognized hello_utf16 hello_utf8))
     = Some sample_w
  /\ session sample_w
     = session sample_draining
  /\ invocations (effects_of PollingThread (history sample_w))
     = [EResult 1%nat hello_utf8 true].
Proof.
  assert (H1 : run initial_world (firstn 5 sample_before_stop)
               = Some sample_draining)
    by (vm_compute; reflexivity).
  assert (H2 : step sample_draining
                    (PollGetEvents (reply_recognized hello_utf16 hello_utf8))
               = Some sample_w) by (vm_compute; reflexivity).
  destruct (X8_polling_thread_reports_final_results_only
              (firstn 5 sample_before_stop)
              sample_draining
              sample_w
              (PollGetEvents (reply_recognized hello_utf16 hello_utf8))
              H1 eq_refl H2) as (Hs & _).
  split; [exact H1|]. split; [exact H2|]. split; [exact Hs|].
  vm_compute. reflexivity.
Defined.

Lemma X7_replaced_callback_used_for_next_event_witness :
  in_join sample_draining = false
  /\ poller sample_draining = Draining
  /\ result_callback_ (session sample_draining) = Some 1%nat
  /\ step sample_draining (Invoke (CallSetResultCallback (Some 9%nat)))
     = Some sample_replaced
  /\ step sample_replaced
          (PollGetEvents (reply_recognized hello_utf16 hello_utf8))
     = Some sample_replaced_event
  /\ invocations (effects_of PollingThread (history sample_replaced_event))
     = invocations (effects_of PollingThread (history sample_draining))
       ++ [EResult 9%nat hello_utf8 true].
Proof.
  assert (H1 : in_join sample_draining = false) by (vm_compute; reflexivity).
  assert (H2 : poller sample_draining = Draining) by (vm_compute; reflexivity).
  assert (H3 : result_callback_ (session sample_draining) = Some 1%nat)
    by (vm_compute; reflexivity).
  assert (H4 : step sample_draining
                    (Invoke (CallSetResultCallback (Some 9%nat)))
               = Some sample_replaced) by (vm_compute; reflexivity).
  assert (H5 : step sample_replaced
                    (PollGetEvents (reply_recognized hello_utf16 hello_utf8))
               = Some sample_replaced_event) by (vm_compute; reflexivity).
  split; [exact H1|]. split; [exact H2|]. split; [exact H3|].
  split; [exact H4|]. split; [exact H5|].
  apply (X7_replaced_callback_used_for_next_event
           sample_draining sample_replaced sample_replaced_event
           (Some 9%nat) (reply_recognized hello_utf16 hello_utf8) hello_utf16
           H1 H2 eq_refl eq_refl eq_refl eq_refl eq_refl).
  - discriminate.
  - exact H4.
  - exact H5.
Defined.

(** X9. The text buffer of a recognition.  GetText is called exactly for
    the events of kind recognition that carry an object, once; the buffer it
    returns is freed with CoTaskMemFree exactly once when GetText succeeded
    and stored a non-null pointer, and CoTaskMemFree is not called otherwise
    (no event of another kind, no failed GetText, no null text). *)
Theorem X9_text_buffer_freed_once :
  forall (r : GetEventsReply) (s : SpeechRecognition),
    count is_get_text (trace_of (process_event r s))
    = (if (eEventId (ge_event r) =? SPEI_RECOGNITION)
          && has_object (ge_event r) then 1%nat else 0%nat)
    /\ count is_co_task_mem_free (trace_of (process_event r s))
       = (if (eEventId (ge_event r) =? SPEI_RECOGNITION)
             && has_object (ge_event r)
             && SUCCEEDED (gt_hr r)
             && match gt_text r with Some _ => true | None => false end
          then 1%nat else 0%nat).
Proof.
  intros r s.
  destruct (eEventId (ge_event r) =? SPEI_RECOGNITION) eqn:Hid.
  - apply Z.eqb_eq in Hid.
    destruct (has_object (ge_event r)) eqn:Hobj.
    + rewrite (process_event_recognition r s Hid Hobj). cbn [andb].
      destruct (SUCCEEDED (gt_hr r)); [|split; reflexivity].
      destruct (gt_text r); [|split; reflexivity].
      destruct (result_callback_ s); [|split; reflexivity].
      destruct (string_empty _); split; reflexivity.
    + unfold process_event. rewrite Hid, Hobj, Z.eqb_refl. split; reflexivity.
  - rewrite (process_event_other r s Hid). cbn [andb].
    destruct (has_object (ge_event r)); split; reflexivity.
Qed.

(** ** Initialize that fails, and Initialize that succeeds *)

Lemma session_eq s s' :
  recognizer_ s = recognizer_ s' -> context_ s = context_ s' ->
  grammar_ s = grammar_ s' -> recognition_event_ s = recognition_event_ s' ->
  is_initialized_ s = is_initialized_ s' -> is_listening_ s = is_listening_ s' ->
  should_stop_ s = should_stop_ s' -> com_initialized_ s = com_initialized_ s' ->
  recognition_thread_ s = recognition_thread_ s' ->
  result_callback_ s = result_callback_ s' ->
  error_callback_ s = error_callback_ s' ->
  status_callback_ s = status_callback_ s' ->
  s = s'.
Proof.
  destruct s, s'; cbn; intros; subst; reflexivity.
Qed.

Lemma Initialize_failed_restores env s :
  Uninitialized s ->
  com_contract env = true ->
  result_of (Initialize env s) = false ->
  state_of (Initialize env s) = s.
Proof.
  intros Hu Hc Hr.
  destruct (Initialize_false_fails env s (proj1 Hu) Hr) as [k Hk].
  destruct (Initialize_fails_at env s k Hu Hc Hk)
    as (_ & _ & _ & Hu' & _).
  destruct (Initialize_frame env s) as (H1 & H2 & H3 & H4 & H5 & H6 & _).
  destruct Hu as (A1 & A2 & A3 & A4 & A5 & A6 & A7).
  destruct Hu' as (B1 & B2 & B3 & B4 & B5 & B6 & B7).
  apply session_eq; congruence.
Qed.

(** X10. A failed Initialize is undone completely: run from state
    Uninitialized, under the COM rule for out-parameters, an Initialize that
    returns false leaves the object equal, field for field, to the object it
    started from; so a retry behaves as a first attempt does. *)
Theorem X10_failed_Initialize_restores_the_object :
  forall (env env' : InitEnv) (s : SpeechRecognition),
    Uninitialized s ->
    com_contract env = true ->
    result_of (Initialize env s) = false ->
    state_of (Initialize env s) = s
    /\ Initialize env' (state_of (Initialize env s)) = Initialize env' s.
Proof.
  intros env env' s Hu Hc Hr.
  pose proof (Initialize_failed_restores env s Hu Hc Hr) as Heq.
  split; [exact Heq|now rewrite Heq].
Qed.

Lemma X10_failed_Initialize_restores_the_object_witness :
  Uninitialized (with_callbacks new_session)
  /\ com_contract (env_failing_at StepDictation) = true
  /\ result_of (Initialize (env_failing_at StepDictation)
                           (with_callbacks new_session)) = false
  /\ state_of (Initialize (env_failing_at StepDictation)
                          (with_callbacks new_session))
     = with_callbacks new_session.
Proof.
  assert (Hu : Uninitialized (with_callbacks new_session))
    by (repeat split; reflexivity).
  split; [exact Hu|]. split; [reflexivity|]. split; [reflexivity|].
  exact (proj1 (X10_failed_Initialize_restores_the_object
                  (env_failing_at StepDictation) env_ok
                  (with_callbacks new_session) Hu eq_refl eq_refl)).
Defined.

Lemma Initialize_succeeds_run :
  forall (env : InitEnv) (s : SpeechRecognition),
    is_initialized_ s = false ->
    result_of (Initialize env s) = true ->
    trace_of (Initialize env s)
    = [ECoInitializeEx (co_initialize_hr env);
       ECoCreateInstance (co_create_hr env) (co_create_out env);
       ECreateRecoContext (co_create_out env) (create_context_hr env)
                          (create_context_out env);
       ESetInterest (create_context_out env) (set_interest_hr env);
       EGetNotifyEventHandle (create_context_out env) (notify_event_handle env);
       ECreateGrammar (create_context_out env) (create_grammar_hr env)
                      (create_grammar_out env);
       ELoadDictation (create_grammar_out env) (load_dictation_hr env);
       ERead StatusSlot]
      ++ match status_callback_ s with
         | Some f => [EStatus f "initialized"]
         | None => []
         end
    /\ state_of (Initialize env s)
       = set_is_initialized_ true
           (set_grammar_ (create_grammar_out env)
              (set_recognition_event_ (notify_event_handle env)
                 (set_context_ (create_context_out env)
                    (set_recognizer_ (co_create_out env)
                       (set_com_initialized_
                          (negb (co_initialize_hr env =? RPC_E_CHANGED_MODE))
                          s)))))
    /\ com_initialized_ (state_of (Initialize env s))
       = SUCCEEDED (co_initialize_hr env).
Proof.
  intros env s Hi Hr.
  destruct env as [h1 h2 o2 h3 o3 h4 e4 h5 o5 h6].
  destruct s as [rec ctx gr ev ini lis stp com thr rcb ecb scb].
  cbn in Hi. subst ini.
  revert Hr. unfold Initialize. unfold_m.
  cbn [co_initialize_hr co_create_hr co_create_out create_context_hr
       create_context_out set_interest_hr notify_event_handle
       create_grammar_hr create_grammar_out load_dictation_hr
       is_initialized_].
  destruct (FAILED h1 && negb (h1 =? RPC_E_CHANGED_MODE)) eqn:H1;
    [destruct ecb; cbn; discriminate|].
  pose proof (com_initialized_iff_succeeded _ H1) as Hcom.
  destruct (FAILED h2) eqn:H2; [destruct ecb; cbn; split_ifs; discriminate|].
  destruct (FAILED h3) eqn:H3; [destruct ecb; cbn; split_ifs; discriminate|].
  destruct (FAILED h4) eqn:H4; [destruct ecb; cbn; split_ifs; discriminate|].
  destruct (FAILED h5) eqn:H5; [destruct ecb; cbn; split_ifs; discriminate|].
  destruct (FAILED h6) eqn:H6; [destruct ecb; cbn; split_ifs; discriminate|].
  intros _. destruct scb; cbn; rewrite FAILED_SUCCEEDED, <- Hcom; auto.
Qed.

(** X11. An Initialize that succeeds makes exactly these calls, in this
    order: CoInitializeEx, CoCreateInstance, CreateRecoContext on the
    recognizer just created, SetInterest, GetNotifyEventHandle and
    CreateGrammar on the context just created, LoadDictation on the grammar
    just created; then it reads the status callback and calls it, when one is
    registered, with "initialized".  It calls no error callback and releases
    nothing, and it leaves the three pointers and the event handle as the
    system gave them, [com_initialized_] saying whether CoInitializeEx
    succeeded. *)
Theorem X11_successful_Initialize_call_order :
  forall (env : InitEnv) (s : SpeechRecognition),
    is_initialized_ s = false ->
    result_of (Initialize env s) = true ->
    trace_of (Initialize env s)
    = [ECoInitializeEx (co_initialize_hr env);
       ECoCreateInstance (co_create_hr env) (co_create_out env);
       ECreateRecoContext (co_create_out env) (create_context_hr env)
                          (create_context_out env);
       ESetInterest (create_context_out env) (set_interest_hr env);
       EGetNotifyEventHandle (create_context_out env) (notify_event_handle env);
       ECreateGrammar (create_context_out env) (create_grammar_hr env)
                      (create_grammar_out env);
       ELoadDictation (create_grammar_out env) (load_dictation_hr env);
       ERead StatusSlot]
      ++ match status_callback_ s with
         | Some f => [EStatus f "initialized"]
         | None => []
         end
    /\ state_of (Initialize env s)
       = set_is_initialized_ true
           (set_grammar_ (create_grammar_out env)
              (set_recognition_event_ (notify_event_handle env)
                 (set_context_ (create_context_out env)
                    (set_recognizer_ (co_create_out env)
                       (set_com_initialized_
                          (negb (co_initialize_hr env =? RPC_E_CHANGED_MODE))
                          s)))))
    /\ com_initialized_ (state_of (Initialize env s))
       = SUCCEEDED (co_initialize_hr env).
Proof. exact Initialize_succeeds_run. Qed.

Lemma X11_successful_Initialize_call_order_witness :
  is_initialized_ (with_callbacks new_session) = false
  /\ result_of (Initialize env_changed_mode (with_callbacks new_session)) = true
  /\ trace_of (Initialize env_changed_mode (with_callbacks new_session))
     = [ECoInitializeEx RPC_E_CHANGED_MODE; ECoCreateInstance S_OK 4096;
        ECreateRecoContext 4096 S_OK 8192; ESetInterest 8192 S_OK;
        EGetNotifyEventHandle 8192 64; ECreateGrammar 8192 S_OK 12288;
        ELoadDictation 12288 S_OK; ERead StatusSlot;
        EStatus 3%nat "initialized"].
Proof.
  split; [reflexivity|]. split; [vm_compute; reflexivity|].
  exact (proj1 (X11_successful_Initialize_call_order
                  env_changed_mode (with_callbacks new_session)
                  eq_refl eq_refl)).
Defined.

(** ** What one step of an execution is *)

Lemma step_cases w a w' :
  step w a = Some w' ->
  (exists c, a = Invoke c /\ in_join w = false
             /\ session w' = state_of (do_call c (session w))
             /\ history w'
                = history w
                  ++ tagged ControlThread (trace_of (do_call c (session w))))
  \/ (exists hr, a = Invoke (CallStopListening hr) /\ in_join w = false
                 /\ is_listening_ (session w) = true
                 /\ recognition_thread_ (session w) = true
                 /\ session w' = state_of (StopListening_signal hr (session w))
                 /\ history w'
                    = history w
                      ++ tagged ControlThread
                           (trace_of (StopListening_signal hr (session w))))
  \/ (a = JoinReturns /\ in_join w = true /\ poller w = Exited
      /\ session w' = state_of (StopListening_join (session w))
      /\ history w'
         = history w
           ++ tagged ControlThread (trace_of (StopListening_join (session w))))
  \/ (exists r, a = PollWait r /\ poller w = AtLoopHead
                /\ session w' = session w
                /\ history w'
                   = history w
                     ++ tagged PollingThread
                          (trace_of (RecognitionThread_wait r (session w))))
  \/ (exists r, a = PollGetEvents r /\ poller w = Draining
                /\ session w' = session w
                /\ history w'
                   = history w
                     ++ tagged PollingThread
                          (trace_of (RecognitionThread_get_events r (session w)))).
Proof.
  intros Hstep. destruct a as [c | | r | r].
  - destruct (in_join w) eqn:Hin.
    { destruct c; cbn in Hstep; rewrite Hin in Hstep; discriminate. }
    assert (Hgen : control_runs (do_call c) w = Some w' ->
                   session w' = state_of (do_call c (session w))
                   /\ history w'
                      = history w
                        ++ tagged ControlThread
                             (trace_of (do_call c (session w)))).
    { intros H. apply control_runs_inv in H. tauto. }
    destruct c as [env | env hr | hr | cb | cb | cb];
      try (rewrite step_invoke_other, Hin in Hstep by discriminate;
           left; eexists; split; [reflexivity|]; split; [reflexivity|];
           now apply Hgen).
    cbn [step] in Hstep. rewrite Hin in Hstep.
    destruct (is_listening_ (session w) && recognition_thread_ (session w))
      eqn:Hboth.
    + apply andb_prop in Hboth as [Hl Ht].
      right; left. exists hr.
      unfold state_of, trace_of.
      destruct (StopListening_signal hr (session w)) as [[u s'] tr].
      injection Hstep as <-. cbn [session history fst snd]. auto 10.
    + left. exists (CallStopListening hr).
      split; [reflexivity|]. split; [reflexivity|].
      apply Hgen. unfold control_runs in *. cbn [do_call].
      rewrite bind_run. cbn [ret result_of state_of trace_of fst snd].
      rewrite app_nil_r.
      destruct (StopListening hr (session w)) as [[u s'] tr].
      exact Hstep.
  - cbn [step] in Hstep. destruct (in_join w); [|discriminate].
    destruct (poller w); try discriminate.
    right; right; left.
    unfold state_of, trace_of.
    destruct (StopListening_join (session w)) as [[u s'] tr].
    injection Hstep as <-. cbn [session history fst snd]. auto 10.
  - cbn [step] in Hstep.
    destruct (poller w) eqn:Hp; try discriminate.
    right; right; right; left. exists r.
    pose proof (RecognitionThread_wait_keeps_state r (session w)) as Hs.
    unfold state_of, trace_of in *.
    destruct (RecognitionThread_wait r (session w)) as [[pc s'] tr].
    injection Hstep as <-. cbn [session history fst snd] in *. auto 10.
  - cbn [step] in Hstep.
    destruct (poller w) eqn:Hp; try discriminate.
    right; right; right; right. exists r.
    pose proof (RecognitionThread_get_events_keeps_state r (session w)) as Hs.
    unfold state_of, trace_of in *.
    destruct (RecognitionThread_get_events r (session w)) as [[pc s'] tr].
    injection Hstep as <-. cbn [session history fst snd] in *. auto 10.
Qed.

(** ** The mutex of the callbacks *)

Lemma lock_run_app h t1 t2 :
  lock_run h (t1 ++ t2)
  = match lock_run h t1 with
    | Some h' => lock_run h' t2
    | None => None
    end.
Proof.
  revert h. induction t1 as [|e t1 IH]; intros h; [reflexivity|].
  destruct e; cbn; try apply IH; destruct h; try reflexivity; apply IH.
Qed.

Lemma Initialize_lock_run env s :
  lock_run false (trace_of (Initialize env s)) = Some false.
Proof.
  unfold Initialize. unfold_m. destruct s. split_ifs; reflexivity.
Qed.

Lemma StartListening_activate_lock_run hr s :
  lock_run false (trace_of (StartListening_activate hr s)) = Some false.
Proof.
  rewrite StartListening_activate_run.
  destruct (is_listening_ s); [reflexivity|].
  destruct (FAILED hr);
    [destruct (error_callback_ s)|destruct (status_callback_ s)]; reflexivity.
Qed.

Lemma StopListening_signal_lock_run hr s :
  lock_run false (trace_of (StopListening_signal hr s)) = Some false.
Proof.
  rewrite StopListening_signal_run. now destruct (non_null _).
Qed.

Lemma StopListening_join_lock_run s :
  lock_run false (trace_of (StopListening_join s)) = Some false.
Proof.
  rewrite StopListening_join_run.
  destruct (recognition_thread_ s), (status_callback_ s); reflexivity.
Qed.

Lemma do_call_lock_run c s :
  lock_run false (trace_of (do_call c s)) = Some false.
Proof.
  rewrite do_call_trace. destruct c as [env | env hr | hr | cb | cb | cb];
    try reflexivity.
  - apply Initialize_lock_run.
  - rewrite StartListening_trace.
    destruct (is_initialized_ s); [apply StartListening_activate_lock_run|].
    rewrite lock_run_app, Initialize_lock_run.
    destruct (result_of _); [apply StartListening_activate_lock_run|reflexivity].
  - rewrite StopListening_trace. destruct (is_listening_ s); [|reflexivity].
    rewrite lock_run_app, StopListening_signal_lock_run.
    apply StopListening_join_lock_run.
Qed.

Lemma process_event_lock_run r s :
  lock_run false (trace_of (process_event r s)) = Some false.
Proof.
  unfold_poll. split_ifs; reflexivity.
Qed.

Lemma RecognitionThread_wait_lock_run r s :
  lock_run false (trace_of (RecognitionThread_wait r s)) = Some false.
Proof.
  rewrite RecognitionThread_wait_run. now destruct (should_stop_ s).
Qed.

Lemma RecognitionThread_get_events_lock_run r s :
  lock_run false (trace_of (RecognitionThread_get_events r s)) = Some false.
Proof.
  rewrite RecognitionThread_get_events_run.
  destruct (fetched_one r); [|reflexivity].
  cbn [trace_of snd lock_run]. apply process_event_lock_run.
Qed.

Lemma lock_run_step w a w' t :
  step w a = Some w' ->
  lock_run false (effects_of t (history w)) = Some false ->
  lock_run false (effects_of t (history w')) = Some false.
Proof.
  intros Hstep Hl.
  assert (Hadd : forall t' tr,
             lock_run false tr = Some false ->
             lock_run false (effects_of t (history w ++ tagged t' tr))
             = Some false).
  { intros t' tr Htr. rewrite effects_of_app, lock_run_app, Hl.
    destruct t, t'; rewrite ?effects_of_tagged_same;
      rewrite ?effects_of_tagged_other by discriminate; auto. }
  destruct (step_cases w a w' Hstep)
    as [(c & _ & _ & _ & ->) | [(hr & _ & _ & _ & _ & _ & ->)
       | [(_ & _ & _ & _ & ->) | [(r & _ & _ & _ & ->)
       | (r & _ & _ & _ & ->)]]]]; apply Hadd.
  - apply do_call_lock_run.
  - apply StopListening_signal_lock_run.
  - apply StopListening_join_lock_run.
  - apply RecognitionThread_wait_lock_run.
  - apply RecognitionThread_get_events_lock_run.
Qed.

(** X12. The mutex of the callbacks is used in a balanced way by both
    threads, whatever the system answers: along any execution each thread
    takes [callback_mutex_] only while it does not hold it (so no thread
    blocks on itself), gives it back only while it holds it, and holds it at
    no point between two of its steps; every member function and every turn
    of the polling loop leaves it free. *)
Theorem X12_callback_mutex_balanced :
  forall (acts : list Action) (w w' : World) (t : Tid),
    lock_run false (effects_of t (history w)) = Some false ->
    run w acts = Some w' ->
    lock_run false (effects_of t (history w')) = Some false
    /\ (forall c s, lock_run false (trace_of (do_call c s)) = Some false)
    /\ (forall hr s, lock_run false (trace_of (destructor hr s)) = Some false)
    /\ (forall r s,
           lock_run false (trace_of (RecognitionThread_get_events r s))
           = Some false).
Proof.
  intros acts w w' t Hl Hrun. split; [|split; [|split]].
  - revert w Hl Hrun. induction acts as [|a acts IH]; intros w Hl Hrun;
      cbn in Hrun.
    + now injection Hrun as <-.
    + destruct (step w a) as [w1|] eqn:Hs; [|discriminate].
      apply (IH w1); [|exact Hrun]. exact (lock_run_step w a w1 t Hs Hl).
  - apply do_call_lock_run.
  - intros hr s. rewrite destructor_run. cbn [trace_of snd].
    rewrite lock_run_app.
    pose proof (do_call_lock_run (CallStopListening hr) s) as H.
    rewrite do_call_trace in H. rewrite H.
    unfold_m. destruct s. split_ifs; reflexivity.
  - apply RecognitionThread_get_events_lock_run.
Qed.

Lemma X12_callback_mutex_balanced_witness :
  run initial_world sample_before_stop = Some sample_w
  /\ lock_run false (effects_of PollingThread (history sample_w)) = Some false
  /\ existsb is_lock (effects_of PollingThread (history sample_w)) = true.
Proof.
  assert (H1 : run initial_world sample_before_stop = Some sample_w)
    by (vm_compute; reflexivity).
  split; [exact H1|]. split; [|vm_compute; reflexivity].
  exact (proj1 (X12_callback_mutex_balanced
                  sample_before_stop initial_world sample_w PollingThread
                  eq_refl H1)).
Defined.

(** ** The handles while the polling thread exists *)

Lemma do_call_initialized_keeps_handles c s :
  is_initialized_ s = true ->
  recognizer_ (state_of (do_call c s)) = recognizer_ s
  /\ context_ (state_of (do_call c s)) = context_ s
  /\ grammar_ (state_of (do_call c s)) = grammar_ s
  /\ recognition_event_ (state_of (do_call c s)) = recognition_event_ s
  /\ released (trace_of (do_call c s)) = [].
Proof.
  intros Hi. rewrite do_call_state, do_call_trace.
  destruct c as [env | env hr | hr | cb | cb | cb].
  - rewrite Initialize_when_initialized by assumption. cbn. auto.
  - rewrite StartListening_initialized, StartListening_activate_run
      by assumption.
    destruct (is_listening_ s); [cbn; auto|].
    destruct (FAILED hr).
    + destruct (error_callback_ s); cbn; auto.
    + destruct s as [? ? ? ? ? ? ? ? ? ? ? scb]; destruct scb; cbn; auto.
  - rewrite StopListening_state, StopListening_trace.
    destruct (is_listening_ s); [|cbn; auto].
    rewrite StopListening_signal_run. cbn [state_of trace_of fst snd].
    rewrite StopListening_join_run. cbn [state_of trace_of fst snd].
    destruct s as [rec ctx gr ev ini lis stp com thr rcb ecb scb].
    cbn. destruct (non_null gr), thr, scb; cbn; auto.
  - destruct s; cbn; auto.
  - destruct s; cbn; auto.
  - destruct s; cbn; auto.
Qed.

(** X13. While the polling thread exists, the handles it uses stay as they
    are and nothing is released behind its back: in a reachable state with
    a polling thread, no step of either thread changes [recognizer_],
    [context_], [grammar_] or [recognition_event_], and the control thread
    calls neither Release nor CoUninitialize. *)
Theorem X13_handles_outlive_polling_thread :
  forall (acts : list Action) (w w' : World) (a : Action),
    run initial_world acts = Some w ->
    actions_contract acts = true ->
    is_running (poller w) = true ->
    step w a = Some w' ->
    recognizer_ (session w') = recognizer_ (session w)
    /\ context_ (session w') = context_ (session w)
    /\ grammar_ (session w') = grammar_ (session w)
    /\ recognition_event_ (session w') = recognition_event_ (session w)
    /\ released (effects_of ControlThread (history w'))
       = released (effects_of ControlThread (history w)).
Proof.
  intros acts w w' a Hrun Hc Hp Hstep.
  destruct (reachable_session_ok acts w Hrun Hc) as ([Hu Hv Ht Hl] & _).
  pose proof (run_preserves_ok _ _ _ initial_world_ok Hrun) as Hok.
  assert (Hi : is_initialized_ (session w) = true).
  { apply Ht. now rewrite (ok_joinable w Hok). }
  destruct (step_cases w a w' Hstep)
    as [(c & _ & _ & -> & ->) | [(hr & _ & _ & _ & _ & -> & ->)
       | [(_ & _ & _ & -> & ->) | [(r & _ & _ & -> & ->)
       | (r & _ & _ & -> & ->)]]]];
    rewrite effects_of_app, released_app;
    rewrite ?effects_of_tagged_same;
    rewrite ?effects_of_tagged_other by discriminate.
  - destruct (do_call_initialized_keeps_handles c (session w) Hi)
      as (H1 & H2 & H3 & H4 & H5).
    rewrite H5, app_nil_r. auto.
  - rewrite StopListening_signal_run. cbn [state_of trace_of fst snd].
    destruct (session w); cbn. destruct (non_null _); cbn;
      rewrite app_nil_r; auto.
  - rewrite StopListening_join_run. cbn [state_of trace_of fst snd].
    destruct (session w) as [? ? ? ? ? ? ? ? thr ? ? scb]; cbn.
    destruct thr, scb; cbn; rewrite app_nil_r; auto.
  - cbn. rewrite app_nil_r. auto.
  - cbn. rewrite app_nil_r. auto.
Qed.

Lemma X13_handles_outlive_polling_thread_witness :
  run initial_world sample_before_stop = Some sample_w
  /\ actions_contract sample_before_stop = true
  /\ is_running (poller sample_w) = true
  /\ step sample_w (Invoke (CallStopListening S_OK)) = Some sample_w1
  /\ context_ (session sample_w1) = context_ (session sample_w).
Proof.
  assert (H1 : run initial_world sample_before_stop = Some sample_w)
    by (vm_compute; reflexivity).
  assert (H2 : actions_contract sample_before_stop = true)
    by (vm_compute; reflexivity).
  assert (H3 : is_running (poller sample_w) = true)
    by (vm_compute; reflexivity).
  assert (H4 : step sample_w (Invoke (CallStopListening S_OK))
               = Some sample_w1) by (vm_compute; reflexivity).
  split; [exact H1|]. split; [exact H2|]. split; [exact H3|].
  split; [exact H4|].
  exact (proj1 (proj2 (X13_handles_outlive_polling_thread
                         sample_before_stop sample_w sample_w1
                         (Invoke (CallStopListening S_OK)) H1 H2 H3 H4))).
Defined.

(** ** The destructor of a session in use *)


Lemma StopListening_joins hr s :
  recognition_thread_ (state_of (StopListening hr s))
  = (if is_listening_ s then false else recognition_thread_ s)
  /\ count is_join (trace_of (StopListening hr s))
     = (if is_listening_ s && recognition_thread_ s then 1%nat else 0%nat).
Proof.
  rewrite StopListening_state, StopListening_trace.
  destruct (is_listening_ s); [|auto].
  rewrite StopListening_signal_run. cbn [state_of trace_of fst snd].
  rewrite StopListening_join_run. cbn [state_of trace_of fst snd].
  destruct s as [rec ctx gr ev ini lis stp com thr rcb ecb scb].
  cbn. destruct (non_null gr), thr, scb; cbn; auto.
Qed.



(** ** Which callbacks are called *)

Lemma registration_eqb_eq a b : registration_eqb a b = true -> a = b.
Proof.
  destruct a as [sa fa], b as [sb fb]. unfold registration_eqb. cbn.
  intros H. apply andb_prop in H as [Hs Hf]. apply Nat.eqb_eq in Hf.
  destruct sa, sb; try discriminate; now subst.
Qed.

Lemma registration_eqb_refl a : registration_eqb a a = true.
Proof.
  destruct a as [[] f]; unfold registration_eqb; cbn; apply Nat.eqb_refl.
Qed.

Lemma registered_In F sf : registered F sf = true <-> In sf F.
Proof.
  unfold registered. rewrite existsb_exists. split.
  - intros (x & Hx & He). apply registration_eqb_eq in He. now subst.
  - intros H. exists sf. split; [exact H|apply registration_eqb_refl].
Qed.

Lemma calls_within_app F t1 t2 :
  calls_within F (t1 ++ t2) = calls_within F t1 && calls_within F t2.
Proof. apply forallb_app. Qed.

Lemma calls_within_mono F G tr :
  (forall sf, In sf F -> In sf G) ->
  calls_within F tr = true -> calls_within G tr = true.
Proof.
  intros Hsub. unfold calls_within. rewrite !forallb_forall.
  intros H e He. specialize (H e He). destruct (invoked e); [|reflexivity].
  apply registered_In, Hsub, registered_In, H.
Qed.

Lemma callbacks_of_eq s s' :
  result_callback_ s' = result_callback_ s ->
  error_callback_ s' = error_callback_ s ->
  status_callback_ s' = status_callback_ s ->
  callbacks_of s' = callbacks_of s.
Proof. unfold callbacks_of. now intros -> -> ->. Qed.

Lemma Initialize_calls_stored env s :
  calls_within (callbacks_of s) (trace_of (Initialize env s)) = true.
Proof.
  unfold Initialize. unfold_m.
  destruct s as [rec ctx gr ev ini lis stp com thr rcb ecb scb].
  destruct rcb, ecb, scb;
    split_ifs; cbn; rewrite ?Nat.eqb_refl; reflexivity.
Qed.

Lemma StartListening_activate_calls_stored hr s :
  calls_within (callbacks_of s) (trace_of (StartListening_activate hr s)) = true
  /\ callbacks_of (state_of (StartListening_activate hr s)) = callbacks_of s.
Proof.
  rewrite StartListening_activate_run.
  destruct s as [rec ctx gr ev ini lis stp com thr rcb ecb scb].
  cbn [is_listening_ error_callback_ status_callback_].
  destruct lis; [auto|].
  destruct (FAILED hr); [destruct rcb, ecb|destruct rcb, ecb, scb];
    cbn; rewrite ?Nat.eqb_refl; auto.
Qed.

Lemma StartListening_calls_stored env hr s :
  calls_within (callbacks_of s) (trace_of (StartListening env hr s)) = true
  /\ callbacks_of (state_of (StartListening env hr s)) = callbacks_of s.
Proof.
  rewrite StartListening_state, StartListening_trace.
  destruct (is_initialized_ s); [apply StartListening_activate_calls_stored|].
  destruct (Initialize_frame env s) as (_ & _ & _ & Hr & He & Hs & _).
  pose proof (callbacks_of_eq _ _ Hr He Hs) as Heq.
  rewrite calls_within_app, Initialize_calls_stored.
  destruct (result_of (Initialize env s)); [|auto].
  destruct (StartListening_activate_calls_stored
              hr (state_of (Initialize env s))) as (H1 & H2).
  rewrite Heq in H1, H2. auto.
Qed.

Lemma StopListening_signal_calls_stored hr s :
  calls_within (callbacks_of s) (trace_of (StopListening_signal hr s)) = true
  /\ callbacks_of (state_of (StopListening_signal hr s)) = callbacks_of s.
Proof.
  rewrite StopListening_signal_run. destruct s; cbn.
  destruct (non_null _); auto.
Qed.

Lemma StopListening_join_calls_stored s :
  calls_within (callbacks_of s) (trace_of (StopListening_join s)) = true
  /\ callbacks_of (state_of (StopListening_join s)) = callbacks_of s.
Proof.
  rewrite StopListening_join_run.
  destruct s as [rec ctx gr ev ini lis stp com thr rcb ecb scb].
  destruct thr, rcb, ecb, scb; cbn; rewrite ?Nat.eqb_refl; auto.
Qed.

Lemma StopListening_calls_stored hr s :
  calls_within (callbacks_of s) (trace_of (StopListening hr s)) = true
  /\ callbacks_of (state_of (StopListening hr s)) = callbacks_of s.
Proof.
  rewrite StopListening_state, StopListening_trace.
  destruct (is_listening_ s); [|auto].
  destruct (StopListening_signal_calls_stored hr s) as (H1 & H2).
  destruct (StopListening_join_calls_stored
              (state_of (StopListening_signal hr s))) as (H3 & H4).
  rewrite H2 in H3, H4. rewrite calls_within_app, H1, H3. auto.
Qed.

Lemma process_event_calls_stored r s :
  calls_within (callbacks_of s) (trace_of (process_event r s)) = true.
Proof.
  unfold_poll. destruct s as [rec ctx gr ev ini lis stp com thr rcb ecb scb].
  destruct rcb, ecb, scb;
    split_ifs; cbn; rewrite ?Nat.eqb_refl; reflexivity.
Qed.

Lemma RecognitionThread_wait_calls_stored r s :
  calls_within (callbacks_of s) (trace_of (RecognitionThread_wait r s)) = true.
Proof.
  rewrite RecognitionThread_wait_run. now destruct (should_stop_ s).
Qed.

Lemma RecognitionThread_get_events_calls_stored r s :
  calls_within (callbacks_of s) (trace_of (RecognitionThread_get_events r s))
  = true.
Proof.
  rewrite RecognitionThread_get_events_run.
  destruct (fetched_one r); [|reflexivity].
  cbn [trace_of snd]. cbn [calls_within forallb invoked andb].
  apply process_event_calls_stored.
Qed.

Lemma do_call_calls_stored c s :
  calls_within (callbacks_of s) (trace_of (do_call c s)) = true
  /\ (forall sf, In sf (callbacks_of (state_of (do_call c s))) ->
                 In sf (callbacks_of s) \/ In sf (registers c)).
Proof.
  rewrite do_call_state, do_call_trace.
  destruct c as [env | env hr | hr | cb | cb | cb].
  - split; [apply Initialize_calls_stored|].
    destruct (Initialize_frame env s) as (_ & _ & _ & Hr & He & Hs & _).
    rewrite (callbacks_of_eq _ _ Hr He Hs). auto.
  - destruct (StartListening_calls_stored env hr s) as (H1 & ->). auto.
  - destruct (StopListening_calls_stored hr s) as (H1 & ->). auto.
  - split; [reflexivity|].
    destruct s as [rec ctx gr ev ini lis stp com thr rcb ecb scb].
    unfold callbacks_of. cbn. intros sf H.
    rewrite !in_app_iff in *. destruct cb; cbn in *; tauto.
  - split; [reflexivity|].
    destruct s as [rec ctx gr ev ini lis stp com thr rcb ecb scb].
    unfold callbacks_of. cbn. intros sf H.
    rewrite !in_app_iff in *. destruct cb; cbn in *; tauto.
  - split; [reflexivity|].
    destruct s as [rec ctx gr ev ini lis stp com thr rcb ecb scb].
    unfold callbacks_of. cbn. intros sf H.
    rewrite !in_app_iff in *. destruct cb; cbn in *; tauto.
Qed.

Lemma calls_within_tagged F t tr :
  calls_within F tr = true ->
  Forall (fun te : Tid * Effect => calls_within F [snd te] = true)
         (tagged t tr).
Proof.
  induction tr as [|e tr IH]; intros H; [constructor|].
  cbn in H. apply andb_prop in H as [He Htr].
  constructor; [cbn; now rewrite He|now apply IH].
Qed.

Lemma registered_calls_step F w a w' :
  (forall sf, In sf (action_registers a) -> In sf F) ->
  (forall sf, In sf (callbacks_of (session w)) -> In sf F) ->
  Forall (fun te : Tid * Effect => calls_within F [snd te] = true) (history w) ->
  step w a = Some w' ->
  (forall sf, In sf (callbacks_of (session w')) -> In sf F)
  /\ Forall (fun te : Tid * Effect => calls_within F [snd te] = true)
            (history w').
Proof.
  intros Ha HP HR Hstep.
  assert (Hadd : forall t tr,
             calls_within (callbacks_of (session w)) tr = true ->
             Forall (fun te : Tid * Effect => calls_within F [snd te] = true)
                    (history w ++ tagged t tr)).
  { intros t tr Htr. apply Forall_app. split; [exact HR|].
    apply calls_within_tagged. exact (calls_within_mono _ F tr HP Htr). }
  destruct (step_cases w a w' Hstep)
    as [(c & -> & _ & -> & ->) | [(hr & -> & _ & _ & _ & -> & ->)
       | [(-> & _ & _ & -> & ->) | [(r & -> & _ & -> & ->)
       | (r & -> & _ & -> & ->)]]]].
  - destruct (do_call_calls_stored c (session w)) as (H1 & H2).
    split; [|apply Hadd, H1].
    intros sf H. destruct (H2 sf H); auto.
  - destruct (StopListening_signal_calls_stored hr (session w)) as (H1 & ->).
    split; [exact HP|apply Hadd, H1].
  - destruct (StopListening_join_calls_stored (session w)) as (H1 & ->).
    split; [exact HP|apply Hadd, H1].
  - split; [exact HP|apply Hadd, RecognitionThread_wait_calls_stored].
  - split; [exact HP|apply Hadd, RecognitionThread_get_events_calls_stored].
Qed.

Lemma registered_calls_run F acts : forall w w',
  (forall sf, In sf (registrations acts) -> In sf F) ->
  (forall sf, In sf (callbacks_of (session w)) -> In sf F) ->
  Forall (fun te : Tid * Effect => calls_within F [snd te] = true) (history w) ->
  run w acts = Some w' ->
  (forall sf, In sf (callbacks_of (session w')) -> In sf F)
  /\ Forall (fun te : Tid * Effect => calls_within F [snd te] = true)
            (history w').
Proof.
  induction acts as [|a acts IH]; intros w w' Ha HP HR Hrun; cbn in Hrun.
  - injection Hrun as <-. auto.
  - destruct (step w a) as [w1|] eqn:Hs; [|discriminate].
    assert (Ha1 : forall sf, In sf (action_registers a) -> In sf F).
    { intros sf H. apply Ha. cbn. apply in_app_iff. auto. }
    assert (Ha2 : forall sf, In sf (registrations acts) -> In sf F).
    { intros sf H. apply Ha. cbn. apply in_app_iff. auto. }
    destruct (registered_calls_step F w a w1 Ha1 HP HR Hs) as (HP1 & HR1).
    exact (IH w1 w' Ha2 HP1 HR1 Hrun).
Qed.

(** X15. The session calls only what was registered with it, from the
    field it was registered in: in any execution that starts with a new
    session, every callback either thread has called is one that a call of
    the setter of that field, in that execution, has stored (a result
    callback is never called for an error or a status); in particular a
    session on which no callback was ever registered calls nothing,
    whatever happens. *)
Theorem X15_only_registered_callbacks_are_called :
  forall (acts : list Action) (w : World),
    run initial_world acts = Some w ->
    Forall (fun te : Tid * Effect =>
              match invoked (snd te) with
              | Some sf => In sf (registrations acts)
              | None => True
              end) (history w)
    /\ (registrations acts = [] ->
        invocations (effects_of ControlThread (history w)) = []
        /\ invocations (effects_of PollingThread (history w)) = []).
Proof.
  intros acts w Hrun.
  destruct (registered_calls_run (registrations acts) acts initial_world w)
    as (_ & HR); auto.
  { cbn. tauto. }
  assert (Hall : Forall (fun te : Tid * Effect =>
                           match invoked (snd te) with
                           | Some sf => In sf (registrations acts)
                           | None => True
                           end) (history w)).
  { eapply Forall_impl; [|exact HR]. intros te H. cbn in H.
    destruct (invoked (snd te)); [|exact I].
    apply registered_In. now rewrite andb_true_r in H. }
  split; [exact Hall|].
  intros Hnone. rewrite Hnone in Hall.
  assert (Hno : forall t, invocations (effects_of t (history w)) = []).
  { intros t. clear HR Hrun.
    induction Hall as [|te h Hte _ IH]; [reflexivity|].
    change (te :: h) with ([te] ++ h).
    rewrite effects_of_app, invocations_app, IH, app_nil_r.
    destruct te as [t' e]. cbn in Hte.
    destruct t, t', e; cbn in *; try reflexivity; contradiction. }
  split; apply Hno.
Qed.

Lemma X15_only_registered_callbacks_are_called_witness :
  run initial_world sample_before_stop = Some sample_w
  /\ registrations sample_before_stop
     = [(ResultSlot, 1%nat); (StatusSlot, 3%nat)]
  /\ Forall (fun te : Tid * Effect =>
               match invoked (snd te) with
               | Some sf => In sf (registrations sample_before_stop)
               | None => True
               end) (history sample_w).
Proof.
  assert (H1 : run initial_world sample_before_stop = Some sample_w)
    by (vm_compute; reflexivity).
  split; [exact H1|]. split; [vm_compute; reflexivity|].
  exact (proj1 (X15_only_registered_callbacks_are_called
                  sample_before_stop sample_w H1)).
Defined.

(** * The channels of the plugin *)

(** ** The handlers in closed form *)

Lemma setters_run r e st s :
  (SetResultCallback r ;; SetErrorCallback e ;; SetStatusCallback st) s
  = (tt, set_callbacks r e st s, setter_effects).
Proof. reflexivity. Qed.

Lemma HandleMethodCall_initialize env hr p :
  HandleMethodCall "initialize" env hr p
  = (Success (EVBool (result_of (Initialize env (instance_or_new p)))),
     mkPlugin (Some (state_of (Initialize env (instance_or_new p))))
              (g_event_sink p),
     match g_speech_recognition p with
     | Some _ => []
     | None => [OMakeSession]
     end ++ through (g_event_sink p)
                    (trace_of (Initialize env (instance_or_new p)))).
Proof.
  unfold HandleMethodCall, instance_or_new, result_of, state_of, trace_of.
  cbn [String.eqb Ascii.eqb Bool.eqb].
  destruct (g_speech_recognition p) as [s|].
  - now destruct (Initialize env s) as [[b s'] tr].
  - now destruct (Initialize env new_session) as [[b s'] tr].
Qed.

Lemma HandleMethodCall_startListening env hr p :
  HandleMethodCall "startListening" env hr p
  = match g_speech_recognition p with
    | None => (Error "NOT_INITIALIZED" msg_not_initialized, p, [])
    | Some s =>
        (Success (EVBool (result_of (StartListening env hr s))),
         mkPlugin (Some (state_of (StartListening env hr s))) (g_event_sink p),
         through (g_event_sink p) (trace_of (StartListening env hr s)))
    end.
Proof.
  unfold HandleMethodCall, result_of, state_of, trace_of.
  cbn [String.eqb Ascii.eqb Bool.eqb].
  destruct (g_speech_recognition p) as [s|]; [|reflexivity].
  now destruct (StartListening env hr s) as [[b s'] tr].
Qed.

Lemma HandleMethodCall_stopListening env hr p :
  HandleMethodCall "stopListening" env hr p
  = match g_speech_recognition p with
    | None => (Success (EVBool true), p, [])
    | Some s =>
        (Success (EVBool true),
         mkPlugin (Some (state_of (StopListening hr s))) (g_event_sink p),
         through (g_event_sink p) (trace_of (StopListening hr s)))
    end.
Proof.
  unfold HandleMethodCall, result_of, state_of, trace_of.
  cbn [String.eqb Ascii.eqb Bool.eqb].
  destruct (g_speech_recognition p) as [s|]; [|reflexivity].
  now destruct (StopListening hr s) as [[b s'] tr].
Qed.

Lemma HandleMethodCall_isListening env hr p :
  HandleMethodCall "isListening" env hr p
  = (Success (EVBool (plugin_listening p)), p, []).
Proof. reflexivity. Qed.

Lemma HandleMethodCall_isInitialized env hr p :
  HandleMethodCall "isInitialized" env hr p
  = (Success (EVBool (plugin_initialized p)), p, []).
Proof. reflexivity. Qed.

(** Every method name is one of the five, or is not implemented. *)
Lemma HandleMethodCall_cases name env hr p :
  (name = "initialize"%string)
  \/ (name = "startListening"%string)
  \/ (name = "stopListening"%string)
  \/ (name = "isListening"%string)
  \/ (name = "isInitialized"%string)
  \/ ((name =? "initialize")%string = false
      /\ (name =? "startListening")%string = false
      /\ (name =? "stopListening")%string = false
      /\ HandleMethodCall name env hr p = (NotImplemented, p, [])).
Proof.
  unfold HandleMethodCall.
  destruct (name =? "initialize")%string eqn:H1;
    [apply String.eqb_eq in H1; auto|].
  destruct (name =? "startListening")%string eqn:H2;
    [apply String.eqb_eq in H2; auto|].
  destruct (name =? "stopListening")%string eqn:H3;
    [apply String.eqb_eq in H3; auto|].
  destruct (name =? "isListening")%string eqn:H4;
    [apply String.eqb_eq in H4; auto 6|].
  destruct (name =? "isInitialized")%string eqn:H5;
    [apply String.eqb_eq in H5; auto 6|].
  auto 10.
Qed.

Lemma OnListen_run events p :
  OnListen events p
  = match g_speech_recognition p with
    | Some s =>
        if non_null events
        then (mkPlugin (Some (set_callbacks (Some on_result) (Some on_error)
                                            (Some on_status) s)) events,
              through events setter_effects)
        else (mkPlugin (Some s) events, [])
    | None => (mkPlugin None events, [])
    end.
Proof.
  unfold OnListen. destruct (g_speech_recognition p); [|reflexivity].
  now rewrite setters_run.
Qed.

Lemma OnCancel_run p :
  OnCancel p
  = (mkPlugin match g_speech_recognition p with
              | Some s => Some (set_callbacks None None None s)
              | None => None
              end nullptr,
     match g_speech_recognition p with
     | Some s => through (g_event_sink p) setter_effects
     | None => []
     end ++ (if non_null (g_event_sink p)
             then [ODeleteSink (g_event_sink p)] else [])).
Proof.
  unfold OnCancel. destruct p as [[s|] sink]; cbn [g_speech_recognition
    g_event_sink]; rewrite ?setters_run;
    destruct (non_null sink) eqn:Hn; rewrite ?app_nil_r; try reflexivity;
    apply non_null_false in Hn; now subst.
Qed.

Lemma PollingTurn_run r p :
  PollingTurn r p
  = if plugin_polling p
    then (p, through (g_event_sink p)
                     (trace_of (RecognitionThread_get_events
                                  r (instance_or_new p))))
    else (p, []).
Proof.
  unfold PollingTurn, plugin_polling, instance_or_new.
  destruct p as [[s|] sink]; cbn [g_speech_recognition g_event_sink];
    [|reflexivity].
  destruct (recognition_thread_ s); [|reflexivity].
  pose proof (RecognitionThread_get_events_keeps_state r s) as Hs.
  unfold state_of, trace_of in *.
  destruct (RecognitionThread_get_events r s) as [[pc s'] tr].
  cbn in *. now subst.
Qed.

(** ** What is observed of a run *)

Lemma handle_all_app acts1 acts2 p :
  handle_all (acts1 ++ acts2) p
  = (fst (handle_all acts2 (fst (handle_all acts1 p))),
     snd (handle_all acts1 p)
     ++ snd (handle_all acts2 (fst (handle_all acts1 p)))).
Proof.
  revert p. induction acts1 as [|a acts1 IH]; intros p; cbn.
  - now destruct (handle_all acts2 p).
  - destruct (handle a p) as [p1 outs1]. rewrite IH.
    destruct (handle_all acts1 p1) as [p2 outs2]. cbn.
    now rewrite app_assoc.
Qed.

Lemma handle_all_cons a acts p :
  handle_all (a :: acts) p
  = (fst (handle_all acts (fst (handle a p))),
     snd (handle a p) ++ snd (handle_all acts (fst (handle a p)))).
Proof.
  cbn. destruct (handle a p) as [p1 outs1]. cbn.
  now destruct (handle_all acts p1).
Qed.

Lemma sends_app o1 o2 : sends (o1 ++ o2) = sends o1 ++ sends o2.
Proof. apply flat_map_app. Qed.

Lemma deletes_app o1 o2 : deletes (o1 ++ o2) = deletes o1 ++ deletes o2.
Proof. apply flat_map_app. Qed.

Lemma replies_app o1 o2 : replies (o1 ++ o2) = replies o1 ++ replies o2.
Proof. apply flat_map_app. Qed.

Lemma session_effects_app o1 o2 :
  session_effects (o1 ++ o2) = session_effects o1 ++ session_effects o2.
Proof. apply flat_map_app. Qed.

Lemma through_app sink t1 t2 :
  through sink (t1 ++ t2) = through sink t1 ++ through sink t2.
Proof. apply flat_map_app. Qed.

Lemma run_callback_sends_only sink e :
  deletes (run_callback sink e) = []
  /\ replies (run_callback sink e) = []
  /\ session_effects (run_callback sink e) = []
  /\ existsb makes_session (run_callback sink e) = false
  /\ Forall (fun kv => fst kv = sink /\ non_null sink = true)
            (sends (run_callback sink e)).
Proof.
  destruct e; cbn; auto 6;
    destruct (non_null sink) eqn:Hn; rewrite ?andb_false_r; cbn; auto 6;
    destruct (Nat.eqb _ _); cbn; auto 10.
Qed.

Lemma through_observed sink tr :
  deletes (through sink tr) = []
  /\ replies (through sink tr) = []
  /\ session_effects (through sink tr) = tr
  /\ existsb makes_session (through sink tr) = false
  /\ Forall (fun kv => fst kv = sink /\ non_null sink = true)
            (sends (through sink tr)).
Proof.
  induction tr as [|e tr (IH1 & IH2 & IH3 & IH4 & IH5)]; [cbn; auto|].
  destruct (run_callback_sends_only sink e) as (H1 & H2 & H3 & H4 & H5).
  change (through sink (e :: tr))
    with (([OSession e] ++ run_callback sink e) ++ through sink tr).
  rewrite !deletes_app, !replies_app, !session_effects_app, !existsb_app,
    !sends_app.
  rewrite H1, H2, H3, H4, IH1, IH2, IH3, IH4.
  repeat split; auto. cbn. apply Forall_app. auto.
Qed.

Lemma sends_through_silent sink tr :
  calls_within [] tr = true -> sends (through sink tr) = [].
Proof.
  induction tr as [|e tr IH]; [reflexivity|]. cbn [calls_within forallb].
  intros H. apply andb_prop in H as [He Htr].
  change (through sink (e :: tr))
    with (([OSession e] ++ run_callback sink e) ++ through sink tr).
  rewrite !sends_app, (IH Htr), app_nil_r.
  destruct e; cbn in *; try reflexivity; discriminate.
Qed.

Lemma sends_through_null tr : sends (through nullptr tr) = [].
Proof.
  destruct (through_observed nullptr tr) as (_ & _ & _ & _ & H).
  destruct (sends (through nullptr tr)) as [|kv l]; [reflexivity|].
  apply Forall_inv in H. destruct H as [_ H]. discriminate.
Qed.

Lemma sends_setter_effects sink : sends (through sink setter_effects) = [].
Proof. reflexivity. Qed.

(** ** Before the first "initialize" *)

Lemma HandleMethodCall_without_instance name env hr p :
  g_speech_recognition p = None ->
  (name =? "initialize")%string = false ->
  HandleMethodCall name env hr p = (reply_without_instance name, p, []).
Proof.
  intros Hp Hn. unfold HandleMethodCall, reply_without_instance.
  rewrite Hn, Hp.
  repeat match goal with
         | |- context [if ?b then _ else _] => destruct b
         end; reflexivity.
Qed.

Lemma handle_without_instance a p :
  g_speech_recognition p = None ->
  is_initialize_call a = false ->
  g_speech_recognition (fst (handle a p)) = None
  /\ session_effects (snd (handle a p)) = []
  /\ sends (snd (handle a p)) = []
  /\ existsb makes_session (snd (handle a p)) = false
  /\ replies (snd (handle a p)) = map reply_without_instance (method_names [a]).
Proof.
  intros Hp Ha. destruct a as [name env hr | events | | r]; cbn [handle].
  - cbn in Ha. rewrite (HandleMethodCall_without_instance name env hr p Hp Ha).
    cbn. auto.
  - rewrite OnListen_run, Hp. cbn. auto.
  - rewrite OnCancel_run, Hp. cbn. destruct (non_null _); cbn; auto.
  - rewrite PollingTurn_run. unfold plugin_polling. rewrite Hp. cbn. auto.
Qed.

(** X16. Only "initialize" creates the instance.  As long as that method
    has not been called, whatever else is called and in whatever order: no
    [SpeechRecognition] is constructed, no call reaches the speech API,
    nothing is sent to an event sink, and the methods answer
    "startListening" with the error NOT_INITIALIZED, "stopListening" with
    true, "isListening" and "isInitialized" with false, and any other name
    with not-implemented. *)
Theorem X16_only_initialize_creates_the_instance :
  forall (acts : list Event) (p : Plugin),
    g_speech_recognition p = None ->
    existsb is_initialize_call acts = false ->
    g_speech_recognition (fst (handle_all acts p)) = None
    /\ session_effects (snd (handle_all acts p)) = []
    /\ sends (snd (handle_all acts p)) = []
    /\ existsb makes_session (snd (handle_all acts p)) = false
    /\ replies (snd (handle_all acts p))
       = map reply_without_instance (method_names acts).
Proof.
  induction acts as [|a acts IH]; intros p Hp Hacts; [cbn; auto|].
  cbn [existsb] in Hacts. apply orb_false_iff in Hacts as [Ha Hacts].
  destruct (handle_without_instance a p Hp Ha) as (H1 & H2 & H3 & H4 & H5).
  destruct (IH (fst (handle a p)) H1 Hacts) as (I1 & I2 & I3 & I4 & I5).
  rewrite handle_all_cons. cbn [fst snd].
  rewrite session_effects_app, sends_app, existsb_app, replies_app.
  rewrite H2, H3, H4, H5, I2, I3, I4, I5.
  replace (method_names (a :: acts))
    with (method_names [a] ++ method_names acts)
    by (unfold method_names; cbn [flat_map]; now rewrite app_nil_r).
  rewrite map_app. auto.
Qed.

Lemma X16_only_initialize_creates_the_instance_witness :
  g_speech_recognition initial_plugin = None
  /\ existsb is_initialize_call sample_without_initialize = false
  /\ replies (snd (handle_all sample_without_initialize initial_plugin))
     = map reply_without_instance (method_names sample_without_initialize)
  /\ map reply_without_instance (method_names sample_without_initialize)
     = [Error "NOT_INITIALIZED" msg_not_initialized; Success (EVBool false);
        NotImplemented].
Proof.
  assert (H1 : g_speech_recognition initial_plugin = None) by reflexivity.
  assert (H2 : existsb is_initialize_call sample_without_initialize = false)
    by (vm_compute; reflexivity).
  split; [exact H1|]. split; [exact H2|].
  split; [|vm_compute; reflexivity].
  exact (proj2 (proj2 (proj2 (proj2
           (X16_only_initialize_creates_the_instance
              sample_without_initialize initial_plugin H1 H2))))).
Defined.

(** ** Once initialized *)

Lemma set_callbacks_frame r e st s :
  is_initialized_ (set_callbacks r e st s) = is_initialized_ s
  /\ is_listening_ (set_callbacks r e st s) = is_listening_ s
  /\ recognition_thread_ (set_callbacks r e st s) = recognition_thread_ s
  /\ context_ (set_callbacks r e st s) = context_ s
  /\ callbacks_of (set_callbacks r e st s)
     = stored ResultSlot r ++ stored ErrorSlot e ++ stored StatusSlot st.
Proof. destruct s; cbn; auto. Qed.

Ltac cbn_plugin :=
  cbn [fst snd g_speech_recognition g_event_sink instance_or_new].

Lemma handle_keeps_initialized a p :
  plugin_initialized p = true ->
  plugin_initialized (fst (handle a p)) = true.
Proof.
  unfold plugin_initialized, IsInitialized.
  destruct p as [[s|] sink]; cbn [g_speech_recognition]; [|discriminate].
  intros Hi. destruct a as [name env hr | events | | r]; cbn [handle].
  - destruct (HandleMethodCall_cases name env hr (mkPlugin (Some s) sink))
      as [-> | [-> | [-> | [-> | [-> | (_ & _ & _ & ->)]]]]].
    + rewrite HandleMethodCall_initialize. cbn_plugin.
      now rewrite Initialize_when_initialized.
    + rewrite HandleMethodCall_startListening. cbn_plugin.
      now apply StartListening_keeps_initialized.
    + rewrite HandleMethodCall_stopListening. cbn_plugin.
      destruct (StopListening_keeps_handles hr s) as (_ & _ & _ & _ & H & _).
      cbv zeta in H. congruence.
    + exact Hi.
    + exact Hi.
    + exact Hi.
  - rewrite OnListen_run. cbn. destruct (non_null events); cbn; [|exact Hi].
    now destruct s.
  - rewrite OnCancel_run. cbn. now destruct s.
  - rewrite PollingTurn_run. now destruct (plugin_polling _).
Qed.

Lemma handle_all_keeps_initialized acts : forall p,
  plugin_initialized p = true ->
  plugin_initialized (fst (handle_all acts p)) = true.
Proof.
  induction acts as [|a acts IH]; intros p Hp; [exact Hp|].
  rewrite handle_all_cons. cbn [fst].
  apply IH. now apply handle_keeps_initialized.
Qed.

Lemma initialize_when_initialized env hr p :
  plugin_initialized p = true ->
  HandleMethodCall "initialize" env hr p = (Success (EVBool true), p, []).
Proof.
  intros Hi. rewrite HandleMethodCall_initialize.
  unfold plugin_initialized, IsInitialized, instance_or_new in *.
  destruct p as [[s|] sink]; cbn [g_speech_recognition g_event_sink] in *;
    [|discriminate].
  now rewrite Initialize_when_initialized.
Qed.

(** X17. Initialization is permanent.  Once "initialize" has answered
    true, then after any calls of the methods, of the stream handlers and
    any turns of the polling thread, "isInitialized" answers true, and
    "initialize" answers true again without constructing anything, without
    a call to the speech API and without an event: no method of the channel
    ever takes the instance back to the uninitialized state or destroys
    it. *)
Theorem X17_initialization_is_permanent :
  forall (p : Plugin) (env env' : InitEnv) (hr hr' : HRESULT)
         (acts : list Event),
    fst (fst (HandleMethodCall "initialize" env hr p)) = Success (EVBool true) ->
    let p1 := snd (fst (HandleMethodCall "initialize" env hr p)) in
    let p2 := fst (handle_all acts p1) in
    HandleMethodCall "isInitialized" env' hr' p2
    = (Success (EVBool true), p2, [])
    /\ HandleMethodCall "initialize" env' hr' p2
       = (Success (EVBool true), p2, []).
Proof.
  intros p env env' hr hr' acts Hr p1 p2.
  assert (H1 : plugin_initialized p1 = true).
  { subst p1. rewrite HandleMethodCall_initialize in *.
    cbn [fst snd] in *. unfold plugin_initialized, IsInitialized.
    cbn [g_speech_recognition].
    apply Initialize_true_initialized. congruence. }
  assert (H2 : plugin_initialized p2 = true)
    by now apply handle_all_keeps_initialized.
  split.
  - now rewrite HandleMethodCall_isInitialized, H2.
  - now apply initialize_when_initialized.
Qed.

Lemma X17_initialization_is_permanent_witness :
  fst (fst (HandleMethodCall "initialize" env_ok S_OK initial_plugin))
  = Success (EVBool true)
  /\ HandleMethodCall "isInitialized" env_ok S_OK
       (fst (handle_all
               (tl sample_early_listen)
               (snd (fst (HandleMethodCall "initialize" env_ok S_OK
                                           initial_plugin)))))
     = (Success (EVBool true),
        fst (handle_all
               (tl sample_early_listen)
               (snd (fst (HandleMethodCall "initialize" env_ok S_OK
                                           initial_plugin)))), []).
Proof.
  assert (H : fst (fst (HandleMethodCall "initialize" env_ok S_OK
                                         initial_plugin))
              = Success (EVBool true)) by (vm_compute; reflexivity).
  split; [exact H|].
  exact (proj1 (X17_initialization_is_permanent
                  initial_plugin env_ok env_ok S_OK S_OK
                  (tl sample_early_listen) H)).
Defined.

(** ** Listening *)

Lemma handle_keeps_listening a p :
  is_stop_method a = false ->
  plugin_initialized p = true ->
  plugin_listening p = true ->
  plugin_listening (fst (handle a p)) = true.
Proof.
  unfold plugin_initialized, plugin_listening, IsInitialized, IsListening.
  destruct p as [[s|] sink]; cbn [g_speech_recognition]; [|discriminate].
  intros Ha Hi Hl. destruct a as [name env hr | events | | r]; cbn [handle].
  - destruct (HandleMethodCall_cases name env hr (mkPlugin (Some s) sink))
      as [-> | [-> | [-> | [-> | [-> | (_ & _ & _ & ->)]]]]];
      try discriminate; try exact Hl.
    + rewrite HandleMethodCall_initialize. cbn_plugin.
      now rewrite Initialize_when_initialized.
    + rewrite HandleMethodCall_startListening. cbn_plugin.
      now rewrite StartListening_while_listening.
  - rewrite OnListen_run. cbn. destruct (non_null events); cbn; [|exact Hl].
    now destruct s.
  - rewrite OnCancel_run. cbn. now destruct s.
  - rewrite PollingTurn_run. now destruct (plugin_polling _).
Qed.

Lemma handle_all_keeps_listening acts : forall p,
  existsb is_stop_method acts = false ->
  plugin_initialized p = true ->
  plugin_listening p = true ->
  plugin_listening (fst (handle_all acts p)) = true.
Proof.
  induction acts as [|a acts IH]; intros p Hacts Hi Hl; [exact Hl|].
  cbn [existsb] in Hacts. apply orb_false_iff in Hacts as [Ha Hacts].
  rewrite handle_all_cons. cbn [fst].
  apply IH; [exact Hacts|now apply handle_keeps_initialized|].
  now apply handle_keeps_listening.
Qed.

Lemma stopListening_not_listening env hr p :
  plugin_listening (snd (fst (HandleMethodCall "stopListening" env hr p)))
  = false
  /\ plugin_polling (snd (fst (HandleMethodCall "stopListening" env hr p)))
     = (if plugin_listening p then false else plugin_polling p).
Proof.
  rewrite HandleMethodCall_stopListening.
  unfold plugin_listening, plugin_polling, IsListening.
  destruct p as [[s|] sink]; cbn [g_speech_recognition fst snd]; [|auto].
  destruct (StopListening_joins hr s) as (Hthr & _). rewrite Hthr.
  split; [|reflexivity].
  rewrite StopListening_state.
  destruct (is_listening_ s) eqn:Hl; [|exact Hl].
  rewrite StopListening_signal_run. cbn [state_of fst snd].
  rewrite StopListening_join_run. cbn [state_of fst snd].
  destruct s as [? ? ? ? ? ? ? ? thr ? ? ?]; now destruct thr.
Qed.

(** X18. What "isListening" answers.  "stopListening" answers true
    whatever the state, even without an instance and whatever
    SetDictationState returns, and right after it "isListening" answers
    false.  Once "startListening" has answered true, "isListening" answers
    true after any calls and turns of the polling thread among which there
    is no "stopListening", and a further "startListening" answers true
    without a call to the speech API and without an event. *)
Theorem X18_isListening_follows_start_and_stop :
  forall (p : Plugin) (env env' : InitEnv) (hr hr' : HRESULT)
         (acts : list Event),
    (fst (fst (HandleMethodCall "stopListening" env hr p))
     = Success (EVBool true)
     /\ HandleMethodCall "isListening" env' hr'
          (snd (fst (HandleMethodCall "stopListening" env hr p)))
        = (Success (EVBool false),
           snd (fst (HandleMethodCall "stopListening" env hr p)), []))
    /\ (fst (fst (HandleMethodCall "startListening" env hr p))
        = Success (EVBool true) ->
        existsb is_stop_method acts = false ->
        let p2 := fst (handle_all
                         acts
                         (snd (fst (HandleMethodCall "startListening"
                                                     env hr p)))) in
        HandleMethodCall "isListening" env' hr' p2
        = (Success (EVBool true), p2, [])
        /\ HandleMethodCall "startListening" env' hr' p2
           = (Success (EVBool true), p2, [])).
Proof.
  intros p env env' hr hr' acts. split.
  - split.
    + rewrite HandleMethodCall_stopListening.
      now destruct (g_speech_recognition p).
    + rewrite HandleMethodCall_isListening.
      now rewrite (proj1 (stopListening_not_listening env hr p)).
  - intros Hr Hacts p2.
    assert (H1 : plugin_initialized
                   (snd (fst (HandleMethodCall "startListening" env hr p)))
                 = true
                 /\ plugin_listening
                      (snd (fst (HandleMethodCall "startListening" env hr p)))
                    = true).
    { rewrite HandleMethodCall_startListening in *.
      destruct (g_speech_recognition p) as [s|]; [|discriminate].
      cbn [fst snd] in *. unfold plugin_initialized, plugin_listening.
      cbn [g_speech_recognition]. apply StartListening_true. congruence. }
    destruct H1 as [Hi Hl].
    assert (Hi2 : plugin_initialized p2 = true)
      by now apply handle_all_keeps_initialized.
    assert (Hl2 : plugin_listening p2 = true)
      by now apply handle_all_keeps_listening.
    split.
    + now rewrite HandleMethodCall_isListening, Hl2.
    + rewrite HandleMethodCall_startListening.
      unfold plugin_initialized, plugin_listening, IsInitialized,
        IsListening in *.
      destruct p2 as [[s|] sink]; cbn [g_speech_recognition g_event_sink] in *;
        [|discriminate].
      now rewrite StartListening_while_listening.
Qed.

Lemma X18_isListening_follows_start_and_stop_witness :
  fst (fst (HandleMethodCall "startListening" env_ok S_OK sample_subscribed))
  = Success (EVBool true)
  /\ existsb is_stop_method
             [Polling (reply_recognized hello_utf16 hello_utf8)] = false
  /\ HandleMethodCall "isListening" env_ok S_OK
       (fst (handle_all
               [Polling (reply_recognized hello_utf16 hello_utf8)]
               (snd (fst (HandleMethodCall "startListening" env_ok S_OK
                                           sample_subscribed)))))
     = (Success (EVBool true),
        fst (handle_all
               [Polling (reply_recognized hello_utf16 hello_utf8)]
               (snd (fst (HandleMethodCall "startListening" env_ok S_OK
                                           sample_subscribed)))), []).
Proof.
  assert (H1 : fst (fst (HandleMethodCall "startListening" env_ok S_OK
                                          sample_subscribed))
               = Success (EVBool true)) by (vm_compute; reflexivity).
  assert (H2 : existsb is_stop_method
                 [Polling (reply_recognized hello_utf16 hello_utf8)] = false)
    by (vm_compute; reflexivity).
  split; [exact H1|]. split; [exact H2|].
  exact (proj1 (proj2 (X18_isListening_follows_start_and_stop
                         sample_subscribed env_ok env_ok S_OK S_OK
                         [Polling (reply_recognized hello_utf16 hello_utf8)])
                      H1 H2)).
Defined.

(** ** The event stream *)

Lemma sends_with_reply outs r : sends (outs ++ [OReply r]) = sends outs.
Proof. rewrite sends_app. cbn. apply app_nil_r. Qed.

Lemma deletes_with_reply outs r : deletes (outs ++ [OReply r]) = deletes outs.
Proof. rewrite deletes_app. cbn. apply app_nil_r. Qed.

Lemma do_call_callbacks c s :
  registers c = [] ->
  (forall cb, c <> CallSetResultCallback cb) ->
  (forall cb, c <> CallSetErrorCallback cb) ->
  (forall cb, c <> CallSetStatusCallback cb) ->
  callbacks_of (state_of (do_call c s)) = callbacks_of s.
Proof.
  intros _ H1 H2 H3. rewrite do_call_state.
  destruct c as [env | env hr | hr | cb | cb | cb].
  - destruct (Initialize_frame env s) as (_ & _ & _ & Hr & He & Hs & _).
    now apply callbacks_of_eq.
  - apply StartListening_calls_stored.
  - apply StopListening_calls_stored.
  - now destruct (H1 cb).
  - now destruct (H2 cb).
  - now destruct (H3 cb).
Qed.

(** A method call, seen from the callbacks: they stay as they are, and
    only they are called. *)
Lemma HandleMethodCall_callbacks name env hr p :
  callbacks_of (instance_or_new
                  (snd (fst (HandleMethodCall name env hr p))))
  = callbacks_of (instance_or_new p)
  /\ g_event_sink (snd (fst (HandleMethodCall name env hr p)))
     = g_event_sink p
  /\ (g_speech_recognition p <> None ->
      g_speech_recognition (snd (fst (HandleMethodCall name env hr p)))
      <> None)
  /\ deletes (snd (HandleMethodCall name env hr p)) = []
  /\ (callbacks_of (instance_or_new p) = [] ->
      sends (snd (HandleMethodCall name env hr p)) = []).
Proof.
  destruct (HandleMethodCall_cases name env hr p)
    as [-> | [-> | [-> | [-> | [-> | (_ & _ & _ & ->)]]]]].
  - rewrite HandleMethodCall_initialize. cbn_plugin.
    destruct (Initialize_frame env (instance_or_new p))
      as (_ & _ & _ & Hr & He & Hs & _).
    rewrite (callbacks_of_eq _ _ Hr He Hs).
    destruct (through_observed (g_event_sink p)
                (trace_of (Initialize env (instance_or_new p))))
      as (Hd & _).
    repeat split; auto.
    + discriminate.
    + rewrite deletes_app, Hd. now destruct (g_speech_recognition p).
    + intros Hcb. rewrite sends_app.
      rewrite sends_through_silent
        by (rewrite <- Hcb; apply Initialize_calls_stored).
      now destruct (g_speech_recognition p).
  - rewrite HandleMethodCall_startListening. unfold instance_or_new.
    destruct (g_speech_recognition p) as [s|] eqn:Hp; cbn_plugin;
      [|rewrite Hp; auto 6].
    destruct (StartListening_calls_stored env hr s) as (H1 & H2).
    destruct (through_observed (g_event_sink p)
                (trace_of (StartListening env hr s))) as (Hd & _).
    repeat split; auto.
    + discriminate.
    + intros Hcb. apply sends_through_silent. now rewrite <- Hcb.
  - rewrite HandleMethodCall_stopListening. unfold instance_or_new.
    destruct (g_speech_recognition p) as [s|] eqn:Hp; cbn_plugin;
      [|rewrite Hp; auto 6].
    destruct (StopListening_calls_stored hr s) as (H1 & H2).
    destruct (through_observed (g_event_sink p)
                (trace_of (StopListening hr s))) as (Hd & _).
    repeat split; auto.
    + discriminate.
    + intros Hcb. apply sends_through_silent. now rewrite <- Hcb.
  - rewrite HandleMethodCall_isListening. cbn [fst snd]. auto 6.
  - rewrite HandleMethodCall_isInitialized. cbn [fst snd]. auto 6.
  - cbn [fst snd]. auto 6.
Qed.

Lemma PollingTurn_callbacks r p :
  fst (PollingTurn r p) = p
  /\ deletes (snd (PollingTurn r p)) = []
  /\ (callbacks_of (instance_or_new p) = [] ->
      sends (snd (PollingTurn r p)) = []).
Proof.
  rewrite PollingTurn_run. destruct (plugin_polling p); cbn [fst snd]; auto.
  destruct (through_observed (g_event_sink p)
              (trace_of (RecognitionThread_get_events r (instance_or_new p))))
    as (Hd & _).
  repeat split; auto.
  intros Hcb. apply sends_through_silent. rewrite <- Hcb.
  apply RecognitionThread_get_events_calls_stored.
Qed.

Lemma unsubscribed_instance p :
  unsubscribed p <-> callbacks_of (instance_or_new p) = [].
Proof.
  unfold unsubscribed, instance_or_new.
  destruct (g_speech_recognition p); [reflexivity|]. cbn. tauto.
Qed.

Lemma handle_unsubscribed a p :
  is_listen a = false ->
  unsubscribed p ->
  unsubscribed (fst (handle a p)) /\ sends (snd (handle a p)) = [].
Proof.
  intros Ha Hu. destruct a as [name env hr | events | | r]; cbn [handle].
  - destruct (HandleMethodCall_callbacks name env hr p)
      as (H1 & _ & _ & _ & H2).
    apply unsubscribed_instance in Hu.
    destruct (HandleMethodCall name env hr p) as [[reply p'] outs].
    cbn [fst snd] in *. rewrite sends_with_reply.
    split; [apply unsubscribed_instance; congruence|auto].
  - discriminate.
  - rewrite OnCancel_run. cbn [fst snd]. unfold unsubscribed.
    cbn [g_speech_recognition]. rewrite sends_app.
    destruct (g_speech_recognition p) as [s|].
    + split; [now destruct s|].
      rewrite sends_setter_effects. now destruct (non_null _).
    + split; [exact I|]. now destruct (non_null _).
  - destruct (PollingTurn_callbacks r p) as (H1 & _ & H2).
    rewrite H1. split; [exact Hu|]. now apply H2, unsubscribed_instance.
Qed.

Lemma handle_all_unsubscribed acts : forall p,
  existsb is_listen acts = false ->
  unsubscribed p ->
  unsubscribed (fst (handle_all acts p))
  /\ sends (snd (handle_all acts p)) = [].
Proof.
  induction acts as [|a acts IH]; intros p Hacts Hu; [cbn; auto|].
  cbn [existsb] in Hacts. apply orb_false_iff in Hacts as [Ha Hacts].
  destruct (handle_unsubscribed a p Ha Hu) as (H1 & H2).
  destruct (IH (fst (handle a p)) Hacts H1) as (I1 & I2).
  rewrite handle_all_cons. cbn [fst snd].
  now rewrite sends_app, H2, I2.
Qed.

(** X19. A stream that is listened to before the instance exists gets
    nothing, ever.  OnListen called while there is no instance keeps the
    sink and registers no callback; and as no method of the channel
    registers one, then whatever is called afterwards, "initialize",
    "startListening", recognitions of the polling thread, OnCancel, and in
    whatever order, nothing is sent to a sink until OnListen is called
    again. *)
Theorem X19_listen_before_initialize_is_lost :
  forall (p : Plugin) (events : ptr) (acts : list Event),
    g_speech_recognition p = None ->
    existsb is_listen acts = false ->
    OnListen events p = (mkPlugin None events, [])
    /\ sends (snd (handle_all acts (mkPlugin None events))) = []
    /\ unsubscribed (fst (handle_all acts (mkPlugin None events))).
Proof.
  intros p events acts Hp Hacts.
  split; [now rewrite OnListen_run, Hp|].
  destruct (handle_all_unsubscribed acts (mkPlugin None events) Hacts I).
  auto.
Qed.

Lemma X19_listen_before_initialize_is_lost_witness :
  g_speech_recognition initial_plugin = None
  /\ existsb is_listen sample_early_listen = false
  /\ sends (snd (handle_all sample_early_listen (mkPlugin None 32768))) = [].
Proof.
  assert (H1 : g_speech_recognition initial_plugin = None) by reflexivity.
  assert (H2 : existsb is_listen sample_early_listen = false)
    by (vm_compute; reflexivity).
  split; [exact H1|]. split; [exact H2|].
  exact (proj1 (proj2 (X19_listen_before_initialize_is_lost
                         initial_plugin 32768 sample_early_listen H1 H2))).
Defined.

(** ** With a subscription *)

Lemma callbacks_of_subscribed s :
  callbacks_of s = plugin_callbacks ->
  result_callback_ s = Some on_result
  /\ error_callback_ s = Some on_error
  /\ status_callback_ s = Some on_status.
Proof.
  unfold callbacks_of, plugin_callbacks.
  destruct (result_callback_ s), (error_callback_ s), (status_callback_ s);
    cbn; intros H; try discriminate; injection H as -> -> ->; auto.
Qed.

Lemma handle_keeps_subscription a p :
  is_subscription_change a = false ->
  subscribed p ->
  subscribed (fst (handle a p))
  /\ g_event_sink (fst (handle a p)) = g_event_sink p.
Proof.
  intros Ha Hs.
  assert (Hinst : g_speech_recognition p <> None).
  { unfold subscribed in Hs. now destruct (g_speech_recognition p). }
  assert (Hcb : callbacks_of (instance_or_new p) = plugin_callbacks).
  { unfold subscribed, instance_or_new in *.
    now destruct (g_speech_recognition p). }
  destruct a as [name env hr | events | | r]; cbn [handle];
    try discriminate.
  - destruct (HandleMethodCall_callbacks name env hr p)
      as (H1 & H2 & H3 & _).
    specialize (H3 Hinst).
    destruct (HandleMethodCall name env hr p) as [[reply p'] outs].
    cbn [fst snd] in *. split; [|exact H2].
    unfold subscribed, instance_or_new in *.
    destruct (g_speech_recognition p'); [congruence|contradiction].
  - destruct (PollingTurn_callbacks r p) as (-> & _). auto.
Qed.

Lemma handle_all_keeps_subscription acts : forall p,
  existsb is_subscription_change acts = false ->
  subscribed p ->
  subscribed (fst (handle_all acts p))
  /\ g_event_sink (fst (handle_all acts p)) = g_event_sink p.
Proof.
  induction acts as [|a acts IH]; intros p Hacts Hs; [cbn; auto|].
  cbn [existsb] in Hacts. apply orb_false_iff in Hacts as [Ha Hacts].
  destruct (handle_keeps_subscription a p Ha Hs) as (H1 & H2).
  destruct (IH (fst (handle a p)) Hacts H1) as (I1 & I2).
  rewrite handle_all_cons. cbn [fst]. split; [exact I1|congruence].
Qed.

Lemma OnListen_subscribes events p :
  g_speech_recognition p <> None ->
  non_null events = true ->
  subscribed (fst (OnListen events p))
  /\ g_event_sink (fst (OnListen events p)) = events
  /\ sends (snd (OnListen events p)) = []
  /\ deletes (snd (OnListen events p)) = [].
Proof.
  intros Hp Hn. rewrite OnListen_run.
  destruct (g_speech_recognition p) as [s|]; [|contradiction].
  rewrite Hn. cbn [fst snd]. unfold subscribed. cbn [g_speech_recognition].
  split; [now destruct s|]. auto.
Qed.

Lemma sends_through_invocations sink tr :
  sends (through sink tr) = sends (through sink (invocations tr)).
Proof.
  induction tr as [|e tr IH]; [reflexivity|].
  change (through sink (e :: tr))
    with (([OSession e] ++ run_callback sink e) ++ through sink tr).
  rewrite !sends_app, IH. unfold invocations. cbn [filter].
  destruct (is_invocation e) eqn:He.
  - change (through sink (e :: filter is_invocation tr))
      with (([OSession e] ++ run_callback sink e)
              ++ through sink (filter is_invocation tr)).
    now rewrite !sends_app.
  - destruct e; try discriminate; reflexivity.
Qed.

(** X20. A recognized text reaches the stream.  After OnListen was called
    with a sink while the instance exists, and until the next OnListen or
    OnCancel, whatever methods are called in between: a recognition whose
    text is not empty, fetched by the polling thread, is sent to that sink,
    once, as the map with "isFinal" true, "text" the text in UTF-8 and
    "type" "result".  OnListen itself sends nothing and deletes nothing. *)
Theorem X20_recognized_text_is_sent_to_the_sink :
  forall (p : Plugin) (events : ptr) (acts : list Event)
         (r : GetEventsReply) (text : wstring),
    g_speech_recognition p <> None ->
    non_null events = true ->
    existsb is_subscription_change acts = false ->
    plugin_polling (fst (handle_all acts (fst (OnListen events p)))) = true ->
    fetched_one r = true ->
    eEventId (ge_event r) = SPEI_RECOGNITION ->
    has_object (ge_event r) = true ->
    SUCCEEDED (gt_hr r) = true ->
    gt_text r = Some text ->
    WideToUtf8 text (mb_bytes r) <> EmptyString ->
    sends (snd (OnListen events p)) = []
    /\ deletes (snd (OnListen events p)) = []
    /\ sends (snd (handle (Polling r)
                          (fst (handle_all acts (fst (OnListen events p))))))
       = [(events,
           EVMap [("isFinal"%string, EVBool true);
                  ("text"%string, EVString (WideToUtf8 text (mb_bytes r)));
                  ("type"%string, EVString "result")])].
Proof.
  intros p events acts r text Hp Hn Hacts Hpoll Hf Hid Hobj Hhr Htext Hne.
  destruct (OnListen_subscribes events p Hp Hn) as (Hs & Hk & H1 & H2).
  destruct (handle_all_keeps_subscription acts _ Hacts Hs) as (Hs2 & Hk2).
  split; [exact H1|]. split; [exact H2|].
  set (p2 := fst (handle_all acts (fst (OnListen events p)))) in *.
  cbn [handle]. rewrite PollingTurn_run, Hpoll. cbn [snd].
  rewrite Hk2, Hk.
  assert (Hcb : result_callback_ (instance_or_new p2) = Some on_result).
  { unfold subscribed, instance_or_new in *.
    destruct (g_speech_recognition p2); [|contradiction].
    now apply callbacks_of_subscribed. }
  rewrite sends_through_invocations.
  rewrite RecognitionThread_get_events_run, Hf. cbn [trace_of snd].
  unfold invocations. cbn [filter is_invocation].
  fold (invocations (trace_of (process_event r (instance_or_new p2)))).
  rewrite (process_event_recognition r _ Hid Hobj), Hhr, Htext, Hcb.
  rewrite (string_empty_false _ Hne).
  cbn. rewrite Hn. reflexivity.
Qed.

Lemma X20_recognized_text_is_sent_to_the_sink_witness :
  sends (snd (handle (Polling (reply_recognized hello_utf16 hello_utf8))
                     (fst (handle_all
                             [MethodCall "startListening" env_ok S_OK]
                             (fst (OnListen 32768
                                            sample_initialized_plugin))))))
  = [(32768,
      EVMap [("isFinal"%string, EVBool true);
             ("text"%string,
              EVString (WideToUtf8 hello_utf16
                          (mb_bytes (reply_recognized hello_utf16
                                                      hello_utf8))));
             ("type"%string, EVString "result")])].
Proof.
  assert (H1 : g_speech_recognition sample_initialized_plugin <> None)
    by discriminate.
  assert (H2 : non_null 32768 = true) by reflexivity.
  assert (H3 : existsb is_subscription_change
                 [MethodCall "startListening" env_ok S_OK] = false)
    by reflexivity.
  assert (H4 : plugin_polling
                 (fst (handle_all
                         [MethodCall "startListening" env_ok S_OK]
                         (fst (OnListen 32768 sample_initialized_plugin))))
               = true) by (vm_compute; reflexivity).
  assert (H5 : WideToUtf8 hello_utf16
                 (mb_bytes (reply_recognized hello_utf16 hello_utf8))
               <> EmptyString) by discriminate.
  exact (proj2 (proj2 (X20_recognized_text_is_sent_to_the_sink
                         sample_initialized_plugin 32768
                         [MethodCall "startListening" env_ok S_OK]
                         (reply_recognized hello_utf16 hello_utf8)
                         hello_utf16
                         H1 H2 H3 H4 eq_refl eq_refl eq_refl eq_refl eq_refl
                         H5))).
Defined.

Lemma subscribed_callbacks p s :
  g_speech_recognition p = Some s ->
  subscribed p ->
  result_callback_ s = Some on_result
  /\ error_callback_ s = Some on_error
  /\ status_callback_ s = Some on_status.
Proof.
  unfold subscribed. intros ->. apply callbacks_of_subscribed.
Qed.

(** X21. A failed "initialize" is reported on the stream.  With the stream
    listened to and an instance that is not initialized, a call of
    "initialize" in which some step of Initialize fails (the system keeping
    the COM rule for out-parameters) answers false, sends exactly one event
    to the sink, the map with "error" the message of the first step that
    failed and "type" "error", constructs nothing, and leaves the plugin as
    it was, so that the method can be called again. *)
Theorem X21_failed_initialize_sends_one_error_event :
  forall (p : Plugin) (s : SpeechRecognition) (env : InitEnv) (hr : HRESULT)
         (k : InitStep),
    g_speech_recognition p = Some s ->
    subscribed p ->
    non_null (g_event_sink p) = true ->
    Uninitialized s ->
    com_contract env = true ->
    fails_at env k = true ->
    fst (fst (HandleMethodCall "initialize" env hr p)) = Success (EVBool false)
    /\ snd (fst (HandleMethodCall "initialize" env hr p)) = p
    /\ sends (snd (HandleMethodCall "initialize" env hr p))
       = [(g_event_sink p,
           EVMap [("error"%string, EVString (init_error_message k));
                  ("type"%string, EVString "error")])]
    /\ existsb makes_session (snd (HandleMethodCall "initialize" env hr p))
       = false.
Proof.
  intros p s env hr k Hp Hs Hn Hu Hc Hk.
  destruct (subscribed_callbacks p s Hp Hs) as (_ & Hecb & _).
  destruct (Initialize_fails_at env s k Hu Hc Hk)
    as (Hr & _ & _ & _ & Hinv & _). cbv zeta in Hr, Hinv.
  pose proof (Initialize_failed_restores env s Hu Hc Hr) as Hst.
  rewrite HandleMethodCall_initialize. unfold instance_or_new.
  rewrite Hp, Hr, Hst. cbn [fst snd app].
  split; [reflexivity|]. split; [destruct p; cbn in *; congruence|].
  split.
  - rewrite sends_through_invocations, Hinv, Hecb. cbn. now rewrite Hn.
  - apply through_observed.
Qed.

Lemma X21_failed_initialize_sends_one_error_event_witness :
  g_speech_recognition sample_failed_initialize
  = Some (instance_or_new sample_failed_initialize)
  /\ non_null (g_event_sink sample_failed_initialize) = true
  /\ fails_at (env_failing_at StepDictation) StepDictation = true
  /\ sends (snd (HandleMethodCall "initialize" (env_failing_at StepDictation)
                                  S_OK sample_failed_initialize))
     = [(g_event_sink sample_failed_initialize,
         EVMap [("error"%string,
                 EVString (init_error_message StepDictation));
                ("type"%string, EVString "error")])].
Proof.
  assert (H1 : g_speech_recognition sample_failed_initialize
               = Some (instance_or_new sample_failed_initialize))
    by (vm_compute; reflexivity).
  assert (H2 : subscribed sample_failed_initialize)
    by (vm_compute; reflexivity).
  assert (H3 : non_null (g_event_sink sample_failed_initialize) = true)
    by (vm_compute; reflexivity).
  assert (H4 : Uninitialized (instance_or_new sample_failed_initialize))
    by (repeat split; vm_compute; reflexivity).
  assert (H5 : com_contract (env_failing_at StepDictation) = true)
    by (vm_compute; reflexivity).
  assert (H6 : fails_at (env_failing_at StepDictation) StepDictation = true)
    by (vm_compute; reflexivity).
  split; [exact H1|]. split; [exact H3|]. split; [exact H6|].
  exact (proj1 (proj2 (proj2
           (X21_failed_initialize_sends_one_error_event
              sample_failed_initialize
              (instance_or_new sample_failed_initialize)
              (env_failing_at StepDictation) S_OK StepDictation
              H1 H2 H3 H4 H5 H6)))).
Defined.

(** X22. Every change of state is announced on the stream, once.  With the
    stream listened to: the "initialize" that initializes the instance sends
    the status "initialized", and a later one sends nothing; the
    "startListening" that starts the polling thread sends the status
    "listening", one whose activation fails answers false and sends the
    error of the activation, and one made while listening sends nothing; the
    "stopListening" that stops the thread sends the status "stopped", and
    one made while not listening sends nothing. *)
Theorem X22_status_events_follow_the_state :
  forall (p : Plugin) (s : SpeechRecognition) (env : InitEnv) (hr : HRESULT),
    g_speech_recognition p = Some s ->
    subscribed p ->
    non_null (g_event_sink p) = true ->
    (is_initialized_ s = true ->
     sends (snd (HandleMethodCall "initialize" env hr p)) = [])
    /\ (is_initialized_ s = false ->
        result_of (Initialize env s) = true ->
        sends (snd (HandleMethodCall "initialize" env hr p))
        = [(g_event_sink p,
            EVMap [("status"%string, EVString "initialized");
                   ("type"%string, EVString "status")])])
    /\ (is_initialized_ s = true ->
        sends (snd (HandleMethodCall "startListening" env hr p))
        = if is_listening_ s then []
          else if FAILED hr
               then [(g_event_sink p,
                      EVMap [("error"%string, EVString msg_activate);
                             ("type"%string, EVString "error")])]
               else [(g_event_sink p,
                      EVMap [("status"%string, EVString "listening");
                             ("type"%string, EVString "status")])])
    /\ (is_initialized_ s = true ->
        fst (fst (HandleMethodCall "startListening" env hr p))
        = Success (EVBool (is_listening_ s || negb (FAILED hr))))
    /\ sends (snd (HandleMethodCall "stopListening" env hr p))
       = if is_listening_ s
         then [(g_event_sink p,
                EVMap [("status"%string, EVString "stopped");
                       ("type"%string, EVString "status")])]
         else [].
Proof.
  intros p s env hr Hp Hs Hn.
  destruct (subscribed_callbacks p s Hp Hs) as (Hrcb & Hecb & Hscb).
  split; [|split; [|split; [|split]]].
  - intros Hi. rewrite HandleMethodCall_initialize. unfold instance_or_new.
    rewrite Hp, Initialize_when_initialized by assumption. reflexivity.
  - intros Hi Hr. rewrite HandleMethodCall_initialize. unfold instance_or_new.
    rewrite Hp. cbn [snd app].
    destruct (Initialize_succeeds_run env s Hi Hr) as (Ht & _).
    rewrite Ht, Hscb. cbn. now rewrite Hn.
  - intros Hi. rewrite HandleMethodCall_startListening, Hp. cbn [snd].
    rewrite StartListening_initialized, StartListening_activate_run
      by assumption.
    destruct (is_listening_ s); [reflexivity|].
    destruct (FAILED hr); cbn [trace_of snd]; rewrite ?Hecb, ?Hscb; cbn;
      now rewrite Hn.
  - intros Hi. rewrite HandleMethodCall_startListening, Hp. cbn [fst].
    rewrite StartListening_initialized, StartListening_activate_run
      by assumption.
    destruct (is_listening_ s); [reflexivity|].
    now destruct (FAILED hr).
  - rewrite HandleMethodCall_stopListening, Hp. cbn [snd].
    rewrite StopListening_trace.
    destruct (is_listening_ s); [|reflexivity].
    rewrite StopListening_signal_run. cbn [state_of trace_of fst snd].
    rewrite StopListening_join_run.
    destruct s as [rec ctx gr ev ini lis stp com thr rcb ecb scb].
    cbn in Hscb. subst scb. cbn.
    destruct (non_null gr), thr; cbn; now rewrite Hn.
Qed.

Lemma X22_status_events_follow_the_state_witness :
  g_speech_recognition sample_subscribed
  = Some (instance_or_new sample_subscribed)
  /\ non_null (g_event_sink sample_subscribed) = true
  /\ is_initialized_ (instance_or_new sample_subscribed) = true
  /\ sends (snd (HandleMethodCall "startListening" env_ok S_OK
                                  sample_subscribed))
     = if is_listening_ (instance_or_new sample_subscribed) then []
       else if FAILED S_OK
            then [(g_event_sink sample_subscribed,
                   EVMap [("error"%string, EVString msg_activate);
                          ("type"%string, EVString "error")])]
            else [(g_event_sink sample_subscribed,
                   EVMap [("status"%string, EVString "listening");
                          ("type"%string, EVString "status")])].
Proof.
  assert (H1 : g_speech_recognition sample_subscribed
               = Some (instance_or_new sample_subscribed))
    by (vm_compute; reflexivity).
  assert (H2 : subscribed sample_subscribed) by (vm_compute; reflexivity).
  assert (H3 : non_null (g_event_sink sample_subscribed) = true)
    by (vm_compute; reflexivity).
  assert (H4 : is_initialized_ (instance_or_new sample_subscribed) = true)
    by (vm_compute; reflexivity).
  split; [exact H1|]. split; [exact H3|]. split; [exact H4|].
  exact (proj1 (proj2 (proj2 (X22_status_events_follow_the_state
                                sample_subscribed
                                (instance_or_new sample_subscribed)
                                env_ok S_OK H1 H2 H3)))
               H4).
Defined.

(** ** After OnCancel *)

Lemma handle_without_sink a p :
  is_listen a = false ->
  g_event_sink p = nullptr ->
  g_event_sink (fst (handle a p)) = nullptr
  /\ deletes (snd (handle a p)) = [].
Proof.
  intros Ha Hk. destruct a as [name env hr | events | | r]; cbn [handle].
  - destruct (HandleMethodCall_callbacks name env hr p)
      as (_ & H1 & _ & H2 & _).
    destruct (HandleMethodCall name env hr p) as [[reply p'] outs].
    cbn [fst snd] in *. rewrite deletes_with_reply. split; congruence.
  - discriminate.
  - rewrite OnCancel_run. cbn [fst snd g_event_sink]. rewrite Hk.
    split; [reflexivity|]. rewrite deletes_app.
    destruct (g_speech_recognition p); reflexivity.
  - destruct (PollingTurn_callbacks r p) as (-> & H & _). auto.
Qed.

Lemma handle_all_without_sink acts : forall p,
  existsb is_listen acts = false ->
  g_event_sink p = nullptr ->
  g_event_sink (fst (handle_all acts p)) = nullptr
  /\ deletes (snd (handle_all acts p)) = [].
Proof.
  induction acts as [|a acts IH]; intros p Hacts Hk; [cbn; auto|].
  cbn [existsb] in Hacts. apply orb_false_iff in Hacts as [Ha Hacts].
  destruct (handle_without_sink a p Ha Hk) as (H1 & H2).
  destruct (IH (fst (handle a p)) Hacts H1) as (I1 & I2).
  rewrite handle_all_cons. cbn [fst snd].
  now rewrite deletes_app, H2, I2.
Qed.

(** X23. OnCancel ends the stream for good.  It clears the three
    callbacks of the instance, deletes the sink it holds, once, when it
    holds one, and forgets it, sending nothing.  From then on and until the
    next OnListen, whatever is called, a second OnCancel included, and
    whatever the polling thread recognizes: nothing is sent, and nothing is
    deleted, so the sink is neither used after its deletion nor deleted
    twice. *)
Theorem X23_cancel_ends_the_stream :
  forall (p : Plugin) (acts : list Event),
    existsb is_listen acts = false ->
    g_event_sink (fst (OnCancel p)) = nullptr
    /\ unsubscribed (fst (OnCancel p))
    /\ sends (snd (OnCancel p)) = []
    /\ deletes (snd (OnCancel p))
       = (if non_null (g_event_sink p) then [g_event_sink p] else [])
    /\ sends (snd (handle_all acts (fst (OnCancel p)))) = []
    /\ deletes (snd (handle_all acts (fst (OnCancel p)))) = [].
Proof.
  intros p acts Hacts.
  assert (Hk : g_event_sink (fst (OnCancel p)) = nullptr)
    by now rewrite OnCancel_run.
  assert (Hu : unsubscribed (fst (OnCancel p))).
  { rewrite OnCancel_run. unfold unsubscribed. cbn [fst g_speech_recognition].
    destruct (g_speech_recognition p) as [s|]; [now destruct s|exact I]. }
  destruct (handle_all_unsubscribed acts _ Hacts Hu) as (_ & Hsend).
  destruct (handle_all_without_sink acts _ Hacts Hk) as (_ & Hdel).
  split; [exact Hk|]. split; [exact Hu|].
  split; [|split; [|split; [exact Hsend|exact Hdel]]].
  - rewrite OnCancel_run. cbn [snd]. rewrite sends_app.
    destruct (g_speech_recognition p), (non_null _); reflexivity.
  - rewrite OnCancel_run. cbn [snd]. rewrite deletes_app.
    destruct (g_speech_recognition p), (non_null _); reflexivity.
Qed.

Lemma X23_cancel_ends_the_stream_witness :
  existsb is_listen sample_after_cancel = false
  /\ deletes (snd (OnCancel sample_plugin)) = [32768]
  /\ sends (snd (handle_all sample_after_cancel (fst (OnCancel sample_plugin))))
     = []
  /\ deletes (snd (handle_all sample_after_cancel
                              (fst (OnCancel sample_plugin)))) = [].
Proof.
  assert (H1 : existsb is_listen sample_after_cancel = false)
    by (vm_compute; reflexivity).
  split; [exact H1|]. split; [vm_compute; reflexivity|].
  exact (proj2 (proj2 (proj2 (proj2
           (X23_cancel_ends_the_stream sample_plugin sample_after_cancel
                                       H1))))).
Defined.
